(** * ESG_pilot: the inter-agent messaging core

    A shallow embedding of
      - [backend/app/bus/schemas.py]      (the A2A message value object),
      - [backend/app/bus/message_bus.py]  (the in-process dispatcher),
      - [backend/app/agents/base_agent.py] (the agent runtime pipeline),
    together with the properties the specification states about them.

    Conventions.
      - Python [str] is [string]; [Dict[str, _]] and [Set[str]] are stdpp's
        [gmap string _] and [gset string]; unbounded Python [int] is [Z].
      - Wall-clock readings ([time.time()], [datetime.now()]) are exact
        rationals, in seconds, and the bus compares them exactly.  The
        response times and averages of the agent are Python floats:
        rationals that are binary64 values, every operation on them
        rounded to the nearest double ([round_double]).
      - asyncio is cooperative: code between two suspension points runs
        atomically.  Each such segment of the bus is one [Event]; a run of
        the bus is a list of events. *)

From Stdlib Require Import QArith Qround Qabs Lqa.
From stdpp Require Import gmap strings list fin_maps pretty.
From Equations Require Import Equations.

Set Warnings "-clear-no-such-hyp".

Local Open Scope Z_scope.
Local Open Scope string_scope.
Local Open Scope list_scope.

(* ===================================================================== *)
(** ** schemas.py *)
(* ===================================================================== *)

Module Schemas.

Inductive MessageType := REQUEST | RESPONSE | EVENT | ERROR.

Inductive Priority := LOW | NORMAL | HIGH | URGENT.

(** JSON-like values stored in the open [payload] / [context] maps. *)
#[warnings="-register-all"]
Inductive PyVal :=
| VNone
| VBool (b : bool)
| VInt (z : Z)
| VNum (q : Q)
| VStr (s : string)
| VList (l : list PyVal).

(** A Python dict keeps insertion order: an association list. *)
Definition PyDict := list (string * PyVal).

Record A2AMessage := {
  conversation_id : string;
  task_id : string;
  from_agent : string;
  to_agent : string;
  message_type : MessageType;
  action : string;
  payload : PyDict;
  message_id : string;
  context : PyDict;
  timestamp : Q;
  priority : Priority;
  expires_at : option Q;
  status : string;
  retry_count : Z;
  max_retries : Z;
  error_message : option string
}.

(** The dataclass constructor with the defaults of the optional fields
    that callers in this development leave out.  [message_id] is always
    passed explicitly here; [uuid4] is only its default factory. *)
Definition mk_message (mid conv task from to : string) (ty : MessageType)
    (act : string) (pl ctx : PyDict) (ts : Q) (pr : Priority) : A2AMessage :=
  {| conversation_id := conv; task_id := task; from_agent := from;
     to_agent := to; message_type := ty; action := act; payload := pl;
     message_id := mid; context := ctx; timestamp := ts; priority := pr;
     expires_at := None; status := "pending"; retry_count := 0;
     max_retries := 3; error_message := None |}.

End Schemas.

Import Schemas.

(* ===================================================================== *)
(** ** message_bus.py *)
(* ===================================================================== *)

Module MessageBus.

(** Counters kept in [self._stats]. *)
Record Stats := {
  total_messages : Z;
  processed_messages : Z;
  duplicate_messages : Z;
  failed_messages : Z
}.

(** How an awaited subscriber callback ends. *)
Inductive HandlerEnd :=
| Returned                 (* the coroutine returned *)
| Raised                   (* it raised an [Exception] *)
| WasCancelled.            (* it raised [asyncio.CancelledError] *)

Inductive TaskStatus :=
| Pending                  (* created, not yet inside the agent lock *)
| InHandler                (* holds the agent lock, awaiting the handler *)
| Skipped                  (* re-check under the lock found the key processed *)
| Done (e : HandlerEnd).

(** The dispatch coroutine: absent, at its [queue.get()] await, or at
    its [asyncio.gather] await for the listed tasks. *)
Inductive Loop :=
| NotRunning
| Waiting (last_cleanup : Q)
| Gathering (last_cleanup : Q) (tasks : list nat).

Inductive PublishResult :=
| PubReturn (b : bool)
| PubRaise.

Section Bus.
(** Subscriber callbacks are compared with [in] and [list.remove], so
    they only need a decidable equality. *)
Context {Handler : Type} `{EqDecision Handler}.

Record Task := {
  t_message : A2AMessage;
  t_handler : Handler;
  t_status : TaskStatus
}.

Record Bus := {
  _subscribers : gmap string (list Handler);
  _queue : option (list A2AMessage);
  _processed_messages : gset string;
  _processing_messages : gset string;
  _message_timestamps : gmap string Q;
  _processing_locks : gmap string bool;    (* agent id -> lock is held *)
  _message_ttl : Q;
  _cleanup_interval : Q;
  _stats : Stats;
  (* the dispatch coroutine and the tasks it has created *)
  _dispatch_task : Loop;
  tasks : list Task;
  (* ghost: every handler invocation the bus has started, oldest first *)
  invoked : list (Handler * A2AMessage)
}.

Definition zero_stats : Stats :=
  {| total_messages := 0; processed_messages := 0;
     duplicate_messages := 0; failed_messages := 0 |}.

(** [MessageBus.__init__] *)
Definition init : Bus :=
  {| _subscribers := ∅; _queue := None;
     _processed_messages := ∅; _processing_messages := ∅;
     _message_timestamps := ∅; _processing_locks := ∅;
     _message_ttl := 300; _cleanup_interval := 60;
     _stats := zero_stats;
     _dispatch_task := NotRunning; tasks := []; invoked := [] |}.

(** Functional record updates. *)
Definition set_subscribers v (b : Bus) : Bus :=
  {| _subscribers := v; _queue := _queue b;
     _processed_messages := _processed_messages b;
     _processing_messages := _processing_messages b;
     _message_timestamps := _message_timestamps b;
     _processing_locks := _processing_locks b;
     _message_ttl := _message_ttl b;
     _cleanup_interval := _cleanup_interval b;
     _stats := _stats b; _dispatch_task := _dispatch_task b;
     tasks := tasks b; invoked := invoked b |}.
Definition set_queue v (b : Bus) : Bus :=
  {| _subscribers := _subscribers b; _queue := v;
     _processed_messages := _processed_messages b;
     _processing_messages := _processing_messages b;
     _message_timestamps := _message_timestamps b;
     _processing_locks := _processing_locks b;
     _message_ttl := _message_ttl b;
     _cleanup_interval := _cleanup_interval b;
     _stats := _stats b; _dispatch_task := _dispatch_task b;
     tasks := tasks b; invoked := invoked b |}.
Definition set_dedup (done processing : gset string)
    (stamps : gmap string Q) (b : Bus) : Bus :=
  {| _subscribers := _subscribers b; _queue := _queue b;
     _processed_messages := done;
     _processing_messages := processing;
     _message_timestamps := stamps;
     _processing_locks := _processing_locks b;
     _message_ttl := _message_ttl b;
     _cleanup_interval := _cleanup_interval b;
     _stats := _stats b; _dispatch_task := _dispatch_task b;
     tasks := tasks b; invoked := invoked b |}.
Definition set_locks v (b : Bus) : Bus :=
  {| _subscribers := _subscribers b; _queue := _queue b;
     _processed_messages := _processed_messages b;
     _processing_messages := _processing_messages b;
     _message_timestamps := _message_timestamps b;
     _processing_locks := v;
     _message_ttl := _message_ttl b;
     _cleanup_interval := _cleanup_interval b;
     _stats := _stats b; _dispatch_task := _dispatch_task b;
     tasks := tasks b; invoked := invoked b |}.
Definition set_stats v (b : Bus) : Bus :=
  {| _subscribers := _subscribers b; _queue := _queue b;
     _processed_messages := _processed_messages b;
     _processing_messages := _processing_messages b;
     _message_timestamps := _message_timestamps b;
     _processing_locks := _processing_locks b;
     _message_ttl := _message_ttl b;
     _cleanup_interval := _cleanup_interval b;
     _stats := v; _dispatch_task := _dispatch_task b;
     tasks := tasks b; invoked := invoked b |}.
Definition set_loop v (b : Bus) : Bus :=
  {| _subscribers := _subscribers b; _queue := _queue b;
     _processed_messages := _processed_messages b;
     _processing_messages := _processing_messages b;
     _message_timestamps := _message_timestamps b;
     _processing_locks := _processing_locks b;
     _message_ttl := _message_ttl b;
     _cleanup_interval := _cleanup_interval b;
     _stats := _stats b; _dispatch_task := v;
     tasks := tasks b; invoked := invoked b |}.
Definition set_tasks v (b : Bus) : Bus :=
  {| _subscribers := _subscribers b; _queue := _queue b;
     _processed_messages := _processed_messages b;
     _processing_messages := _processing_messages b;
     _message_timestamps := _message_timestamps b;
     _processing_locks := _processing_locks b;
     _message_ttl := _message_ttl b;
     _cleanup_interval := _cleanup_interval b;
     _stats := _stats b; _dispatch_task := _dispatch_task b;
     tasks := v; invoked := invoked b |}.
Definition set_invoked v (b : Bus) : Bus :=
  {| _subscribers := _subscribers b; _queue := _queue b;
     _processed_messages := _processed_messages b;
     _processing_messages := _processing_messages b;
     _message_timestamps := _message_timestamps b;
     _processing_locks := _processing_locks b;
     _message_ttl := _message_ttl b;
     _cleanup_interval := _cleanup_interval b;
     _stats := _stats b; _dispatch_task := _dispatch_task b;
     tasks := tasks b; invoked := v |}.

(** [_get_queue]: the queue is created on first use. *)
Definition _get_queue (b : Bus) : list A2AMessage * Bus :=
  match _queue b with
  | Some q => (q, b)
  | None => ([], set_queue (Some []) b)
  end.

(** [_generate_message_key]:
    [f"{conversation_id}:{action}:{message_id}"] *)
Definition _generate_message_key (m : A2AMessage) : string :=
  conversation_id m +:+ ":" +:+ action m +:+ ":" +:+ message_id m.

(** [_is_duplicate_message] *)
Definition _is_duplicate_message (m : A2AMessage) (b : Bus) : bool :=
  let message_key := _generate_message_key m in
  bool_decide (message_key ∈ _processed_messages b)
  || bool_decide (message_key ∈ _processing_messages b).

(** [_mark_message_processing] *)
Definition _mark_message_processing (m : A2AMessage) (now : Q) (b : Bus) : Bus :=
  let message_key := _generate_message_key m in
  set_dedup (_processed_messages b)
            ({[message_key]} ∪ _processing_messages b)
            (<[message_key := now]> (_message_timestamps b)) b.

(** [_mark_message_processed] *)
Definition _mark_message_processed (m : A2AMessage) (now : Q) (b : Bus) : Bus :=
  let message_key := _generate_message_key m in
  set_dedup ({[message_key]} ∪ _processed_messages b)
            (_processing_messages b ∖ {[message_key]})
            (<[message_key := now]> (_message_timestamps b)) b.

(** [current_time - timestamp > self._message_ttl] *)
Definition is_expired (ttl current_time stamp : Q) : bool :=
  negb (Qle_bool (current_time - stamp) ttl).

(** [_cleanup_old_messages] *)
Definition _cleanup_old_messages (current_time : Q) (b : Bus) : Bus :=
  let expired_keys : gset string :=
    dom (filter (fun kv => is_expired (_message_ttl b) current_time kv.2 = true)
                (_message_timestamps b)) in
  set_dedup (_processed_messages b ∖ expired_keys)
            (_processing_messages b ∖ expired_keys)
            (filter (fun kv => is_expired (_message_ttl b) current_time kv.2 ≠ true)
                    (_message_timestamps b)) b.

(** [list.remove(x)]: drops the first occurrence. *)
Fixpoint remove_first (h : Handler) (l : list Handler) : list Handler :=
  match l with
  | [] => []
  | x :: l' => if decide (x = h) then l' else x :: remove_first h l'
  end.

(** [subscribe]; [_subscribers] is a [defaultdict(list)]. *)
Definition subscribe (agent_id : string) (handler : Handler) (b : Bus) : Bus :=
  set_subscribers
    (<[agent_id := default [] (_subscribers b !! agent_id) ++ [handler]]>
       (_subscribers b)) b.

(** [unsubscribe] *)
Definition unsubscribe (agent_id : string) (handler : Handler) (b : Bus) : Bus :=
  let registered := default [] (_subscribers b !! agent_id) in
  if bool_decide (handler ∈ registered)
  then set_subscribers
         (<[agent_id := remove_first handler registered]> (_subscribers b)) b
  else b.

Definition bump_total (s : Stats) : Stats :=
  {| total_messages := total_messages s + 1;
     processed_messages := processed_messages s;
     duplicate_messages := duplicate_messages s;
     failed_messages := failed_messages s |}.
Definition bump_processed (s : Stats) : Stats :=
  {| total_messages := total_messages s;
     processed_messages := processed_messages s + 1;
     duplicate_messages := duplicate_messages s;
     failed_messages := failed_messages s |}.
Definition bump_duplicate (s : Stats) : Stats :=
  {| total_messages := total_messages s;
     processed_messages := processed_messages s;
     duplicate_messages := duplicate_messages s + 1;
     failed_messages := failed_messages s |}.
Definition bump_failed (s : Stats) : Stats :=
  {| total_messages := total_messages s;
     processed_messages := processed_messages s;
     duplicate_messages := duplicate_messages s;
     failed_messages := failed_messages s + 1 |}.

(** [publish].  [now] is the reading of [time.time()] and [put_raises]
    says whether [queue.put] raises an [Exception]. *)
Definition publish (m : A2AMessage) (now : Q) (put_raises : bool) (b : Bus)
    : PublishResult * Bus :=
  let b := set_stats (bump_total (_stats b)) b in
  if _is_duplicate_message m b then
    (PubReturn false, set_stats (bump_duplicate (_stats b)) b)
  else
    let b := _mark_message_processing m now b in
    let '(q, b) := _get_queue b in
    if put_raises then
      let message_key := _generate_message_key m in
      (PubRaise,
       set_dedup (_processed_messages b)
                 (_processing_messages b ∖ {[message_key]})
                 (_message_timestamps b) b)
    else
      (PubReturn true, set_queue (Some (q ++ [m])) b).

Definition set_status (st : TaskStatus) (t : Task) : Task :=
  {| t_message := t_message t; t_handler := t_handler t; t_status := st |}.

(** A lock of [_processing_locks] ([defaultdict(asyncio.Lock)]) is
    held iff its entry is [true]; a missing entry is a lock that was
    never touched. *)
Definition lock_held (agent_id : string) (b : Bus) : bool :=
  default false (_processing_locks b !! agent_id).

(** [_handle_message_safely], first segment: the task gets the agent
    lock ([async with self._processing_locks[agent_id]]), re-checks the
    processed set and, unless it skips, calls the handler.  The segment
    cannot run while the lock is held by another task. *)
Definition task_enter (tid : nat) (b : Bus) : option Bus :=
  match tasks b !! tid with
  | Some t =>
      match t_status t with
      | Pending =>
          let message := t_message t in
          let agent_id := to_agent message in
          let message_key := _generate_message_key message in
          if lock_held agent_id b then None
          else if bool_decide (message_key ∈ _processed_messages b) then
            (* return inside the [async with]: lock taken and released *)
            Some (set_locks (<[agent_id := false]> (_processing_locks b))
                   (set_tasks (<[tid := set_status Skipped t]> (tasks b)) b))
          else
            Some (set_locks (<[agent_id := true]> (_processing_locks b))
                   (set_invoked (invoked b ++ [(t_handler t, message)])
                     (set_tasks (<[tid := set_status InHandler t]> (tasks b)) b)))
      | _ => None
      end
  | None => None
  end.

(** [_handle_message_safely], second segment: the awaited handler has
    ended; bookkeeping, then the lock is released. *)
Definition task_exit (tid : nat) (e : HandlerEnd) (now : Q) (b : Bus) : option Bus :=
  match tasks b !! tid with
  | Some t =>
      match t_status t with
      | InHandler =>
          let message := t_message t in
          let agent_id := to_agent message in
          let b := set_tasks (<[tid := set_status (Done e) t]> (tasks b)) b in
          let b :=
            match e with
            | Returned =>
                let b := _mark_message_processed message now b in
                set_stats (bump_processed (_stats b)) b
            | WasCancelled => b
            | Raised =>
                let b := set_stats (bump_failed (_stats b)) b in
                _mark_message_processed message now b
            end in
          Some (set_locks (<[agent_id := false]> (_processing_locks b)) b)
      | _ => None
      end
  | None => None
  end.

(** [_dispatch], top of the [while True] body: periodic cleanup. *)
Definition loop_top (current_time : Q) (b : Bus) : option Bus :=
  match _dispatch_task b with
  | Waiting last_cleanup =>
      if negb (Qle_bool (current_time - last_cleanup) (_cleanup_interval b))
      then Some (set_loop (Waiting current_time)
                   (_cleanup_old_messages current_time b))
      else Some b
  | _ => None
  end.

Definition new_tasks (m : A2AMessage) (handlers : list Handler) : list Task :=
  map (fun h => {| t_message := m; t_handler := h; t_status := Pending |}) handlers.

(** [_dispatch], from the moment [queue.get()] delivers a message up
    to the [asyncio.gather] await (or the [continue]). *)
Definition loop_get (b : Bus) : option Bus :=
  match _dispatch_task b, _queue b with
  | Waiting last_cleanup, Some (message :: rest) =>
      let b := set_queue (Some rest) b in
      let message_key := _generate_message_key message in
      match _subscribers b !! to_agent message with
      | None => Some b                      (* no subscribers: dropped *)
      | Some handlers =>
          if bool_decide (message_key ∈ _processed_messages b) then Some b
          else
            match handlers with
            | [] => Some b
            | _ :: _ =>
                let first := length (tasks b) in
                Some (set_loop
                        (Gathering last_cleanup (seq first (length handlers)))
                        (set_tasks (tasks b ++ new_tasks message handlers) b))
            end
      end
  | _, _ => None
  end.

Definition task_finished (b : Bus) (tid : nat) : bool :=
  match tasks b !! tid with
  | Some t => match t_status t with
              | Skipped | Done _ => true
              | _ => false
              end
  | None => true
  end.

(** [_dispatch]: [asyncio.gather] returns once every task has ended. *)
Definition loop_gathered (b : Bus) : option Bus :=
  match _dispatch_task b with
  | Gathering last_cleanup tids =>
      if forallb (task_finished b) tids
      then Some (set_loop (Waiting last_cleanup) b)
      else None
  | _ => None
  end.

(** [start]; the new coroutine reads the clock once before looping. *)
Definition start (now : Q) (b : Bus) : Bus :=
  match _dispatch_task b with
  | NotRunning => set_loop (Waiting now) (_get_queue b).2
  | _ => b
  end.

(** Cancelling the dispatch coroutine cancels the gathered tasks: one
    that has not entered its handler never will. *)
Definition cancel_pending (t : Task) : Task :=
  match t_status t with
  | Pending => set_status (Done WasCancelled) t
  | _ => t
  end.

Definition in_flight (t : Task) : bool :=
  match t_status t with InHandler => true | _ => false end.

(** The state [stop] leaves when it clears the bus. *)
Definition stopped (b : Bus) : Bus :=
  let b := set_tasks (map cancel_pending (tasks b)) (set_loop NotRunning b) in
  set_dedup ∅ ∅ ∅ (set_queue None b).

(** [stop], at the moment it clears the state and returns.  Before that
    it has awaited the cancelled dispatch coroutine, and that one ends
    only when every task it gathered has ended: a task inside its handler
    ends first (a [TaskExit], with [WasCancelled] unless the handler
    swallows the cancellation), a task that has not entered its handler
    never will.  [None] while a task is still inside its handler. *)
Definition stop (b : Bus) : option Bus :=
  if existsb in_flight (tasks b) then None else Some (stopped b).

(** Result of [get_stats]. *)
Record StatsView := {
  sv_total_messages : Z;
  sv_processed_messages : Z;
  sv_duplicate_messages : Z;
  sv_failed_messages : Z;
  sv_active_subscribers : Z;
  sv_processing_messages : Z;
  sv_processed_messages_cache : Z;
  sv_queue_size : Z
}.

(** [get_stats] *)
Definition get_stats (b : Bus) : StatsView :=
  {| sv_total_messages := total_messages (_stats b);
     sv_processed_messages := processed_messages (_stats b);
     sv_duplicate_messages := duplicate_messages (_stats b);
     sv_failed_messages := failed_messages (_stats b);
     sv_active_subscribers := Z.of_nat (size (_subscribers b));
     sv_processing_messages := Z.of_nat (size (_processing_messages b));
     sv_processed_messages_cache := Z.of_nat (size (_processed_messages b));
     sv_queue_size := match _queue b with
                      | Some q => Z.of_nat (length q)
                      | None => 0
                      end |}.

(** [reset_stats] *)
Definition reset_stats (b : Bus) : Bus := set_stats zero_stats b.

(** *** Runs of the bus *)

Inductive Event :=
| Subscribe (agent_id : string) (handler : Handler)
| Unsubscribe (agent_id : string) (handler : Handler)
| Publish (m : A2AMessage) (now : Q) (put_raises : bool)
| Start (now : Q)
| Stop
| ResetStats
| LoopTop (now : Q)
| LoopGet
| LoopGathered
| TaskEnter (tid : nat)
| TaskExit (tid : nat) (e : HandlerEnd) (now : Q).

(** One atomic segment; [None] when the segment cannot run in [b]. *)
Definition step (b : Bus) (ev : Event) : option Bus :=
  match ev with
  | Subscribe a h => Some (subscribe a h b)
  | Unsubscribe a h => Some (unsubscribe a h b)
  | Publish m now put_raises => Some (publish m now put_raises b).2
  | Start now => Some (start now b)
  | Stop => stop b
  | ResetStats => Some (reset_stats b)
  | LoopTop now => loop_top now b
  | LoopGet => loop_get b
  | LoopGathered => loop_gathered b
  | TaskEnter tid => task_enter tid b
  | TaskExit tid e now => task_exit tid e now b
  end.

Fixpoint run (b : Bus) (evs : list Event) : option Bus :=
  match evs with
  | [] => Some b
  | ev :: evs' =>
      match step b ev with
      | Some b' => run b' evs'
      | None => None
      end
  end.

(** The clock reading an event takes, if any. *)
Definition event_time (ev : Event) : option Q :=
  match ev with
  | Publish _ now _ | Start now | LoopTop now | TaskExit _ _ now => Some now
  | _ => None
  end.

End Bus.
End MessageBus.

(* ===================================================================== *)
(** ** base_agent.py *)
(* ===================================================================== *)

Module BaseAgent.

(** [AgentError] and its subclasses: [str(e)], [error_code], [recoverable]. *)
Record AgentError := {
  err_str : string;
  error_code : string;
  recoverable : bool
}.

Definition AgentInitializationError (message : string) : AgentError :=
  {| err_str := message; error_code := "AGENT_INIT_ERROR"; recoverable := false |}.
Definition AgentCommunicationError (message : string) : AgentError :=
  {| err_str := message; error_code := "AGENT_COMM_ERROR"; recoverable := true |}.
Definition AgentProcessingError (message : string) (recoverable : bool) : AgentError :=
  {| err_str := message; error_code := "AGENT_PROC_ERROR"; recoverable := recoverable |}.

(** The exceptions ([Exception] subclasses) the runtime distinguishes.
    [asyncio.CancelledError] is a [BaseException]: no clause of the
    pipeline catches it, and it is not modelled on the agent side. *)
Inductive Exn :=
| ExAgent (e : AgentError)       (* caught by [except AgentError] *)
| ExOther (descr : string).      (* any other [Exception]; [descr] is [str(e)] *)

Inductive Outcome (A : Type) :=
| Ret (a : A)
| Exc (e : Exn).
Arguments Ret {A} a.
Arguments Exc {A} e.

Record LastError := {
  le_error : string;
  le_error_code : string;
  le_timestamp : string;
  le_message_action : string
}.

Record ErrorStats := {
  total_errors : Z;
  recoverable_errors : Z;
  critical_errors : Z;
  last_error : option LastError;
  error_types : gmap string Z
}.

Record PerformanceStats := {
  messages_processed : Z;
  messages_failed : Z;
  average_response_time : Q;
  last_activity : option Q
}.

(** What the runtime does that is visible outside the agent object. *)
Inductive Effect :=
| Invoked (m : A2AMessage)        (* [await handler(message)] in the retry loop *)
| Slept (seconds : Q)             (* [asyncio.sleep] *)
| Constructed (m : A2AMessage)    (* [A2AMessage(...)] built by the runtime *)
| Published (m : A2AMessage).     (* [self.message_bus.publish(m)] *)

(** Python dicts with insertion order. *)
Fixpoint dict_get {V} (k : string) (d : list (string * V)) : option V :=
  match d with
  | [] => None
  | (k', v) :: d' => if decide (k' = k) then Some v else dict_get k d'
  end.
Fixpoint dict_set {V} (k : string) (v : V) (d : list (string * V)) : list (string * V) :=
  match d with
  | [] => [(k, v)]
  | (k', v') :: d' =>
      if decide (k' = k) then (k, v) :: d' else (k', v') :: dict_set k v d'
  end.

(** The integer nearest to [x], ties to the even one. *)
Definition round_half_even (x : Q) : Z :=
  let f := Qfloor x in
  match ((x - inject_Z f) ?= (1 # 2))%Q with
  | Lt => f
  | Gt => f + 1
  | Eq => if Z.even f then f else f + 1
  end.

(** A Python [float] is an IEEE 754 binary64; the finite ones are
    rationals.  [round_double x] is the double nearest to [x], ties to the
    even significand (53 bits, least exponent -1074): what [float(n)],
    [int / int] and each of [*], [+], [/] on floats give when [x] is the
    exact result.  Overflow is left out: the numbers here are built from
    differences of [datetime]s, which stay below 2^39 seconds. *)
Definition round_double (x : Q) : Q :=
  if (Qnum x =? 0)%Z then 0%Q
  else
    let a := Qabs x in
    let l := (Z.log2 (Qnum a) - Z.log2 (Zpos (Qden a)))%Z in
    let top := if Qle_bool (2 ^ l)%Q a then l else (l - 1)%Z in
    let e := Z.max (top - 52) (-1074) in
    let significand := round_half_even (a / 2 ^ e)%Q in
    Qred ((if (Qnum x <? 0)%Z then -1 else 1)
          * inject_Z significand * 2 ^ e)%Q.
Arguments round_double : simpl never.

(** [float(n)] for an [int], and the float operations. *)
Definition float_of_int (n : Z) : Q := round_double (inject_Z n).
Definition float_mul (x y : Q) : Q := round_double (x * y)%Q.
Definition float_add (x y : Q) : Q := round_double (x + y)%Q.
Definition float_div (x y : Q) : Q := round_double (x / y)%Q.

(** [round(x, 3)] on a float: the exact value of [x] is rounded to the
    nearest multiple of 1/1000, ties to the even one, and the result is the
    double nearest to that decimal. *)
Definition py_round3 (x : Q) : Q :=
  round_double (round_half_even (x * 1000)%Q # 1000).

Section Runtime.
(** Everything the registered handlers own and may change. *)
Context {Env : Type}.
(** The successive readings of [datetime.now()], in seconds. *)
Variable wall_clock : nat -> Q.
(** [str(float)] inside an f-string, and [datetime.isoformat]. *)
Variable float_str : Q -> string.
Variable isoformat : Q -> string.

(** A registered handler coroutine ([message_handlers] values): it
    returns a result mapping or [None], or raises. *)
Definition Handler := A2AMessage -> Env -> Outcome (option PyDict) * Env.

(** The attributes set by [BaseAgent.__init__].  [message_bus] only
    records whether a bus has been injected: [publish] on it cannot
    fail, since the bus queue is unbounded, and its answer is discarded
    by [send_message]. *)
Record Agent := {
  agent_id : string;
  message_bus : bool;
  message_handlers : list (string * Handler);
  running : bool;
  retry_count : Z;
  max_retries : Z;
  retry_delay : Q;
  error_stats : ErrorStats;
  performance_stats : PerformanceStats;
  _processing_requests : gset string
}.

Definition zero_error_stats : ErrorStats :=
  {| total_errors := 0; recoverable_errors := 0; critical_errors := 0;
     last_error := None; error_types := ∅ |}.
Definition zero_performance_stats : PerformanceStats :=
  {| messages_processed := 0; messages_failed := 0;
     average_response_time := 0; last_activity := None |}.

(** [BaseAgent.__init__] *)
Definition init (agent_id : string) : Agent :=
  {| agent_id := agent_id; message_bus := false; message_handlers := [];
     running := false; retry_count := 0; max_retries := 3; retry_delay := 1;
     error_stats := zero_error_stats;
     performance_stats := zero_performance_stats;
     _processing_requests := ∅ |}.

Definition set_error_stats v (a : Agent) : Agent :=
  {| agent_id := agent_id a; message_bus := message_bus a;
     message_handlers := message_handlers a; running := running a;
     retry_count := retry_count a; max_retries := max_retries a;
     retry_delay := retry_delay a; error_stats := v;
     performance_stats := performance_stats a;
     _processing_requests := _processing_requests a |}.
Definition set_performance_stats v (a : Agent) : Agent :=
  {| agent_id := agent_id a; message_bus := message_bus a;
     message_handlers := message_handlers a; running := running a;
     retry_count := retry_count a; max_retries := max_retries a;
     retry_delay := retry_delay a; error_stats := error_stats a;
     performance_stats := v;
     _processing_requests := _processing_requests a |}.
Definition set_processing_requests v (a : Agent) : Agent :=
  {| agent_id := agent_id a; message_bus := message_bus a;
     message_handlers := message_handlers a; running := running a;
     retry_count := retry_count a; max_retries := max_retries a;
     retry_delay := retry_delay a; error_stats := error_stats a;
     performance_stats := performance_stats a;
     _processing_requests := v |}.
Definition set_handlers v (a : Agent) : Agent :=
  {| agent_id := agent_id a; message_bus := message_bus a;
     message_handlers := v; running := running a;
     retry_count := retry_count a; max_retries := max_retries a;
     retry_delay := retry_delay a; error_stats := error_stats a;
     performance_stats := performance_stats a;
     _processing_requests := _processing_requests a |}.
Definition set_running v (a : Agent) : Agent :=
  {| agent_id := agent_id a; message_bus := message_bus a;
     message_handlers := message_handlers a; running := v;
     retry_count := retry_count a; max_retries := max_retries a;
     retry_delay := retry_delay a; error_stats := error_stats a;
     performance_stats := performance_stats a;
     _processing_requests := _processing_requests a |}.
Definition set_message_bus v (a : Agent) : Agent :=
  {| agent_id := agent_id a; message_bus := v;
     message_handlers := message_handlers a; running := running a;
     retry_count := retry_count a; max_retries := max_retries a;
     retry_delay := retry_delay a; error_stats := error_stats a;
     performance_stats := performance_stats a;
     _processing_requests := _processing_requests a |}.

(** [register_handler] *)
Definition register_handler (action : string) (handler : Handler) (a : Agent) : Agent :=
  set_handlers (dict_set action handler (message_handlers a)) a.

(** [reset_error_stats], [reset_performance_stats] *)
Definition reset_error_stats (a : Agent) : Agent := set_error_stats zero_error_stats a.
Definition reset_performance_stats (a : Agent) : Agent :=
  set_performance_stats zero_performance_stats a.

(** *** The state the pipeline runs in

    One call of [_handle_message] is evaluated as a whole; several calls
    on one agent follow each other. *)

Record World := {
  self : Agent;
  env : Env;
  ticks : nat;              (* clock readings taken so far *)
  log : list Effect         (* ghost: effects so far, oldest first *)
}.

Definition M (A : Type) : Type := World -> Outcome A * World.

Definition ret {A} (a : A) : M A := fun w => (Ret a, w).
Definition raise {A} (e : Exn) : M A := fun w => (Exc e, w).
Definition bind {A B} (c : M A) (k : A -> M B) : M B :=
  fun w => match c w with
           | (Ret a, w') => k a w'
           | (Exc e, w') => (Exc e, w')
           end.
(** [try: c  except Exception as e: h e] *)
Definition try_except {A} (c : M A) (h : Exn -> M A) : M A :=
  fun w => match c w with
           | (Exc e, w') => h e w'
           | r => r
           end.
(** [try: c  finally: f], for an [f] that does not raise *)
Definition try_finally {A} (c : M A) (f : World -> World) : M A :=
  fun w => let '(r, w') := c w in (r, f w').

Definition with_self (f : Agent -> Agent) (w : World) : World :=
  {| self := f (self w); env := env w; ticks := ticks w; log := log w |}.
Definition emit (e : Effect) (w : World) : World :=
  {| self := self w; env := env w; ticks := ticks w; log := log w ++ [e] |}.
Definition modify (f : World -> World) : M unit := fun w => (Ret tt, f w).

Local Notation "x <- c ;; k" := (bind c (fun x => k))
  (at level 100, c at next level, right associativity).
Local Notation "c ;;; k" := (bind c (fun _ => k))
  (at level 100, right associativity).

(** [datetime.now()] *)
Definition now : M Q :=
  fun w => (Ret (wall_clock (ticks w)),
            {| self := self w; env := env w; ticks := S (ticks w); log := log w |}).

Definition after_call (message : A2AMessage) (env' : Env) (w : World) : World :=
  {| self := self w; env := env'; ticks := ticks w;
     log := log w ++ [Invoked message] |}.

(** What [_execute_with_retry] is given to call: a coroutine method of
    the agent.  It may read the agent; what it changes lives in [Env]. *)
Definition Callable := Agent -> A2AMessage -> Env -> Outcome (option PyDict) * Env.

(** [_process_message] *)
Definition _process_message : Callable :=
  fun a message e =>
    match dict_get (action message) (message_handlers a) with
    | Some handler => handler message e
    | None =>
        (Ret (Some [("type", VStr "error");
                    ("conversation_id", VStr (conversation_id message));
                    ("stage", VStr "error");
                    ("error", VStr ("Unknown action: " +:+ action message));
                    ("supported_actions",
                     VList (map (fun kv => VStr kv.1) (message_handlers a)))]),
         e)
    end.

(** [_execute_with_retry] *)
Equations _execute_with_retry (handler : Callable) (message : A2AMessage)
    (retry_count : Z) (w : World) : Outcome (option PyDict) * World
    by wf (Z.to_nat (max_retries (self w) - retry_count)) lt :=
  _execute_with_retry handler message retry_count w with
      handler (self w) message (env w) := {
    | (Ret r, env') => (Ret r, after_call message env' w)
    | (Exc (ExOther d), env') => (Exc (ExOther d), after_call message env' w)
    | (Exc (ExAgent e), env') with
        recoverable e, decide (retry_count < max_retries (self w)) := {
        | true, left _ =>
            _execute_with_retry handler message (retry_count + 1)
              (emit (Slept (retry_delay (self w) * inject_Z (retry_count + 1)))
                 (after_call message env' w))
        | _, _ => (Exc (ExAgent e), after_call message env' w) } }.
Next Obligation. lia. Qed.

(** [str(e)] *)
Definition exn_str (e : Exn) : string :=
  match e with
  | ExAgent e => err_str e
  | ExOther descr => descr
  end.

(** [send_message].  The two checks raise inside the [try], so their
    errors are wrapped like any other. *)
Definition send_message (message : A2AMessage) : M unit :=
  try_except
    (fun w =>
       if negb (message_bus (self w)) then
         (Exc (ExAgent (AgentCommunicationError "MessageBus not available")), w)
       else if negb (running (self w)) then
         (Exc (ExAgent (AgentCommunicationError
                          ("Agent " +:+ agent_id (self w) +:+ " is not running"))), w)
       else (Ret tt, emit (Published message) w))
    (fun e => raise (ExAgent (AgentCommunicationError
                                ("Failed to send message: " +:+ exn_str e)))).

(** The message built in [_send_response]. *)
Definition response_message (a : Agent) (original_message : A2AMessage)
    (result : PyDict) (ts : Q) : A2AMessage :=
  mk_message ("resp_" +:+ message_id original_message)
    (conversation_id original_message) (task_id original_message)
    (agent_id a) (from_agent original_message)
    (message_type original_message)
    (action original_message +:+ "_response")
    result (context original_message) ts (priority original_message).

(** [_send_response]: a failure to send is logged, not raised. *)
Definition _send_response (original_message : A2AMessage) (result : PyDict) : M unit :=
  try_except
    (ts <- now ;;
     fun w =>
       let m := response_message (self w) original_message result ts in
       send_message m (emit (Constructed m) w))
    (fun _ => ret tt).

(** The message built in [_send_error_response]. *)
Definition error_message_for (a : Agent) (original_message : A2AMessage)
    (error_payload : PyDict) (ts : Q) : A2AMessage :=
  mk_message ("error_" +:+ message_id original_message)
    (conversation_id original_message) (task_id original_message)
    (agent_id a) (from_agent original_message)
    (message_type original_message)
    "error"
    error_payload (context original_message) ts (priority original_message).

(** [_send_error_response] *)
Definition _send_error_response (original_message : A2AMessage)
    (error_payload : PyDict) : M unit :=
  try_except
    (ts <- now ;;
     fun w =>
       let m := error_message_for (self w) original_message error_payload ts in
       send_message m (emit (Constructed m) w))
    (fun _ => ret tt).

Definition record_error (error : AgentError) (stamp action : string)
    (s : ErrorStats) : ErrorStats :=
  {| total_errors := total_errors s + 1;
     recoverable_errors :=
       if recoverable error then recoverable_errors s + 1 else recoverable_errors s;
     critical_errors :=
       if recoverable error then critical_errors s else critical_errors s + 1;
     last_error := Some {| le_error := err_str error;
                           le_error_code := error_code error;
                           le_timestamp := stamp;
                           le_message_action := action |};
     error_types :=
       <[error_code error := default 0 (error_types s !! error_code error) + 1]>
         (error_types s) |}.

Definition bump_failed (p : PerformanceStats) : PerformanceStats :=
  {| messages_processed := messages_processed p;
     messages_failed := messages_failed p + 1;
     average_response_time := average_response_time p;
     last_activity := last_activity p |}.
Definition bump_processed (p : PerformanceStats) : PerformanceStats :=
  {| messages_processed := messages_processed p + 1;
     messages_failed := messages_failed p;
     average_response_time := average_response_time p;
     last_activity := last_activity p |}.
Definition set_average (v : Q) (p : PerformanceStats) : PerformanceStats :=
  {| messages_processed := messages_processed p;
     messages_failed := messages_failed p;
     average_response_time := v;
     last_activity := last_activity p |}.
Definition set_last_activity (v : Q) (p : PerformanceStats) : PerformanceStats :=
  {| messages_processed := messages_processed p;
     messages_failed := messages_failed p;
     average_response_time := average_response_time p;
     last_activity := Some v |}.

(** [_handle_agent_error] *)
Definition _handle_agent_error (message : A2AMessage) (error : AgentError)
    (start_time : Q) : M unit :=
  t1 <- now ;;
  modify (with_self (fun a =>
    set_error_stats
      (record_error error (isoformat t1) (action message) (error_stats a)) a)) ;;;
  modify (with_self (fun a =>
    set_performance_stats (bump_failed (performance_stats a)) a)) ;;;
  t2 <- now ;;
  fun w =>
    let error_payload :=
      [("error", VStr (err_str error));
       ("error_code", VStr (error_code error));
       ("recoverable", VBool (recoverable error));
       ("agent_id", VStr (agent_id (self w)));
       ("timestamp", VStr (isoformat t2))] in
    _send_error_response message error_payload w.

(** The moving average of [_update_average_response_time], before
    [round]:
    [((current_avg * (total_processed - 1)) + response_time) / total_processed]
    on floats, the integers being converted first. *)
Definition moving_average (current_avg : Q) (total_processed : Z)
    (response_time : Q) : Q :=
  float_div
    (float_add (float_mul current_avg (float_of_int (total_processed - 1)))
               response_time)
    (float_of_int total_processed).

(** [_update_average_response_time]; dividing by a zero count raises
    [ZeroDivisionError]. *)
Definition _update_average_response_time (response_time : Q) : M unit :=
  fun w =>
    let current_avg := average_response_time (performance_stats (self w)) in
    let total_processed := messages_processed (performance_stats (self w)) in
    if (total_processed =? 1)%Z then
      (Ret tt, with_self (fun a =>
                 set_performance_stats
                   (set_average response_time (performance_stats a)) a) w)
    else if (total_processed =? 0)%Z then
      (Exc (ExOther "float division by zero"), w)
    else
      let new_avg := moving_average current_avg total_processed response_time in
      (Ret tt, with_self (fun a =>
                 set_performance_stats
                   (set_average (py_round3 new_avg) (performance_stats a)) a) w).

(** [if result:] on an [Optional[Dict]] *)
Definition truthy (result : option PyDict) : option PyDict :=
  match result with
  | Some (kv :: d) => Some (kv :: d)
  | _ => None
  end.

(** [f"{message.message_id}_{start_time.timestamp()}"] *)
Definition request_id_of (message : A2AMessage) (start_time : Q) : string :=
  message_id message +:+ "_" +:+ float_str start_time.

(** [_handle_message] *)
Definition _handle_message (message : A2AMessage) : M unit :=
  start_time <- now ;;
  let request_id := request_id_of message start_time in
  try_finally
    (try_except
       (fun w =>
          if bool_decide (request_id ∈ _processing_requests (self w)) then
            (Ret tt, w)                         (* duplicate delivery: return *)
          else
            (modify (with_self (fun a =>
               set_processing_requests ({[request_id]} ∪ _processing_requests a) a)) ;;;
             modify (with_self (fun a =>
               set_performance_stats
                 (set_last_activity start_time (performance_stats a)) a)) ;;;
             result <- _execute_with_retry _process_message message 0 ;;
             match truthy result with
             | Some d => _send_response message d
             | None => ret tt
             end ;;;
             modify (with_self (fun a =>
               set_performance_stats (bump_processed (performance_stats a)) a)) ;;;
             end_time <- now ;;
             (* [(datetime.now() - start_time).total_seconds()]: the
                microseconds of the difference divided by 10**6 *)
             let response_time := round_double (end_time - start_time) in
             _update_average_response_time response_time) w)
       (fun e =>
          match e with
          | ExAgent e => _handle_agent_error message e start_time
          | ExOther descr =>
              let agent_error :=
                AgentProcessingError ("Unexpected error: " +:+ descr) false in
              _handle_agent_error message agent_error start_time
          end))
    (with_self (fun a =>
       set_processing_requests (_processing_requests a ∖ {[request_id]}) a)).

(** A fresh pipeline state for an agent. *)
Definition world_of (a : Agent) (e : Env) : World :=
  {| self := a; env := e; ticks := 0; log := [] |}.

(** How often the retry loop called its handler, per the log. *)
Definition is_invoked (e : Effect) : bool :=
  match e with Invoked _ => true | _ => false end.
Definition invocations (l : list Effect) : nat := length (filter is_invoked l).

Definition published (l : list Effect) : list A2AMessage :=
  omap (fun e => match e with Published m => Some m | _ => None end) l.
Definition constructed (l : list Effect) : list A2AMessage :=
  omap (fun e => match e with Constructed m => Some m | _ => None end) l.
Definition slept (l : list Effect) : list Q :=
  omap (fun e => match e with Slept d => Some d | _ => None end) l.

End Runtime.
End BaseAgent.

(* ===================================================================== *)
(** ** Properties of the message bus *)
(* ===================================================================== *)

Module MessageBusSpec.
Import MessageBus.

Arguments _generate_message_key : simpl never.

Section Dedup.
Context {Handler : Type} `{EqDecision Handler}.
Implicit Types (b : @Bus Handler) (m : A2AMessage) (k : string).

(** When [stop] returns, no task was inside its handler. *)
Lemma stop_Some b b' :
  stop b = Some b' -> b' = stopped b ∧ existsb in_flight (tasks b) = false.
Proof.
  unfold stop. destruct (existsb in_flight (tasks b)); [done |].
  by intros [= <-].
Qed.

(** The key is a function of the identity triple. *)
Lemma key_of_triple m m' :
  conversation_id m' = conversation_id m ->
  action m' = action m ->
  message_id m' = message_id m ->
  _generate_message_key m' = _generate_message_key m.
Proof. unfold _generate_message_key. by intros -> -> ->. Qed.

(** A recorded key makes [publish] answer "duplicate": the message is
    counted and dropped, nothing else changes. *)
Lemma publish_recorded m now put_raises b :
  _generate_message_key m ∈ _processed_messages b ∪ _processing_messages b ->
  publish m now put_raises b
  = (PubReturn false,
     set_stats (bump_duplicate (bump_total (_stats b))) b).
Proof.
  intros Hin. unfold publish, _is_duplicate_message. cbn.
  apply elem_of_union in Hin as [Hp | Hp].
  - by rewrite (bool_decide_eq_true_2 _ Hp).
  - rewrite (bool_decide_eq_true_2 _ Hp). by rewrite orb_true_r.
Qed.

(** An accepted [publish] records the key with the time of the call. *)
Lemma publish_accepted m now put_raises b b' :
  publish m now put_raises b = (PubReturn true, b') ->
  _generate_message_key m ∈ _processing_messages b'
  ∧ _message_timestamps b' !! _generate_message_key m = Some now
  ∧ _message_ttl b' = _message_ttl b.
Proof.
  unfold publish. cbn.
  destruct (_is_duplicate_message _ _); [discriminate |].
  unfold _get_queue. cbn.
  destruct (_queue b), put_raises; cbn; intros [= <-]; cbn;
    (split; [set_solver | split; [by rewrite lookup_insert_eq | done]]).
Qed.

(** The dedup entry of [k] is live: recorded, and stamped no earlier
    than [t0]. *)
Definition live (k : string) (t0 ttl : Q) b : Prop :=
  k ∈ _processed_messages b ∪ _processing_messages b
  ∧ (∀ t, _message_timestamps b !! k = Some t -> (t0 <= t)%Q)
  ∧ _message_ttl b = ttl.

(** An event of the window: not [stop()], and its clock reading (if it
    takes one) lies within the TTL of [t0]. *)
Definition in_window (t0 ttl : Q) (ev : @Event Handler) : Prop :=
  ev ≠ Stop ∧ ∀ t, event_time ev = Some t -> (t0 <= t ∧ t <= t0 + ttl)%Q.

Lemma not_expired_in_window (t0 ttl now t : Q) :
  (t0 <= t)%Q -> (now <= t0 + ttl)%Q -> is_expired ttl now t = false.
Proof.
  intros H1 H2. unfold is_expired.
  apply negb_false_iff, Qle_bool_iff. lra.
Qed.

Lemma cleanup_keeps_live k t0 ttl now b :
  live k t0 ttl b -> (now <= t0 + ttl)%Q ->
  live k t0 ttl (_cleanup_old_messages now b).
Proof.
  intros (Hrec & Hts & Httl) Hnow. unfold live, _cleanup_old_messages. cbn.
  assert (Hk : k ∉ dom (filter
              (fun kv : string * Q => is_expired (_message_ttl b) now kv.2 = true)
              (_message_timestamps b))).
  { rewrite elem_of_dom. intros [t Ht].
    apply map_lookup_filter_Some in Ht as [Ht Hexp]. cbn in Hexp.
    rewrite Httl in Hexp.
    rewrite (not_expired_in_window t0 ttl now t) in Hexp; [done | by apply Hts | done]. }
  split; [set_solver |]. split; [| done].
  intros t Ht. apply map_lookup_filter_Some in Ht as [Ht _]. by apply Hts.
Qed.

Lemma mark_processed_keeps_live k t0 ttl m now b :
  live k t0 ttl b -> (t0 <= now)%Q ->
  live k t0 ttl (_mark_message_processed m now b).
Proof.
  intros (Hin & Hts & Httl) Hnow. unfold live, _mark_message_processed. cbn.
  split; [| split; [| done]].
  - destruct (decide (k = _generate_message_key m)) as [-> | Hne]; set_solver.
  - intros t. destruct (decide (_generate_message_key m = k)) as [-> | Hne].
    + rewrite lookup_insert_eq. by intros [= <-].
    + rewrite lookup_insert_ne; [apply Hts | done].
Qed.

(** One event of the window keeps the entry live. *)
Lemma step_keeps_live k t0 ttl b ev b' :
  live k t0 ttl b -> in_window t0 ttl ev -> step b ev = Some b' ->
  live k t0 ttl b'.
Proof.
  intros Hlive [Hstop Htime] Hstep.
  destruct ev as [a h | a h | m now pr | now | | | now | | | tid | tid e now];
    cbn in Hstep.
  - injection Hstep as <-. exact Hlive.
  - injection Hstep as <-. unfold unsubscribe. by case_bool_decide.
  - injection Hstep as <-.
    destruct Hlive as (Hrec & Hts & Httl).
    unfold publish. cbn. unfold _is_duplicate_message. cbn.
    destruct (bool_decide (_ ∈ _processed_messages b)) eqn:E1;
      [cbn; done |].
    destruct (bool_decide (_ ∈ _processing_messages b)) eqn:E2;
      [cbn; done |].
    apply bool_decide_eq_false in E1, E2. cbn.
    assert (Hne : _generate_message_key m ≠ k) by (intros <-; set_solver).
    unfold _get_queue. cbn.
    destruct (_queue b), pr; cbn; unfold live; cbn;
      (split; [set_solver | split; [| done]]);
      intros t; rewrite lookup_insert_ne by done; apply Hts.
  - injection Hstep as <-. unfold start.
    destruct (_dispatch_task b); [| done | done].
    unfold _get_queue. by destruct (_queue b).
  - done.
  - injection Hstep as <-. exact Hlive.
  - unfold loop_top in Hstep.
    destruct (_dispatch_task b); [done | | done].
    destruct (negb _); injection Hstep as <-; [| done].
    destruct (Htime now eq_refl) as [_ Hnow].
    by apply (cleanup_keeps_live k t0 ttl now b Hlive) in Hnow.
  - unfold loop_get in Hstep.
    destruct (_dispatch_task b); [done | | done].
    destruct (_queue b) as [[| m rest] |]; [done | | done].
    cbn in Hstep.
    destruct (_subscribers b !! to_agent m) as [[| h hs] |];
      [| | by injection Hstep as <-];
      destruct (bool_decide _); by injection Hstep as <-.
  - unfold loop_gathered in Hstep.
    destruct (_dispatch_task b); [done | done |].
    destruct (forallb _ _); [| done]. by injection Hstep as <-.
  - unfold task_enter in Hstep.
    destruct (tasks b !! tid) as [t |]; [| done].
    destruct (t_status t); try done.
    destruct (lock_held _ _); [done |].
    destruct (bool_decide _); by injection Hstep as <-.
  - unfold task_exit in Hstep.
    destruct (tasks b !! tid) as [t |]; [| done].
    destruct (t_status t); try done.
    injection Hstep as <-.
    destruct (Htime now eq_refl) as [Hnow _].
    pose proof (mark_processed_keeps_live k t0 ttl (t_message t) now b
                  Hlive Hnow) as Hmark.
    destruct e; [exact Hmark | exact Hmark | exact Hlive].
Qed.

Lemma run_keeps_live k t0 ttl evs : ∀ b b',
  live k t0 ttl b -> Forall (in_window t0 ttl) evs -> run b evs = Some b' ->
  live k t0 ttl b'.
Proof.
  induction evs as [| ev evs IH]; intros b b' Hlive Hall Hrun; cbn in Hrun.
  - by injection Hrun as <-.
  - apply Forall_cons in Hall as [Hev Hall].
    destruct (step b ev) as [b1 |] eqn:Hstep; [| done].
    eapply IH; [| done | done]. by eapply step_keeps_live.
Qed.

(** The entry of [k] outlives the run [evs] from [b]: the run has no
    [stop()], and whenever the loop is at its periodic cleanup the entry
    is not older than the TTL. *)
Fixpoint before_expiry k b (evs : list (@Event Handler)) : bool :=
  match evs with
  | [] => true
  | ev :: evs' =>
      match ev with
      | Stop => false
      | LoopTop now =>
          match _message_timestamps b !! k with
          | Some stamp => negb (is_expired (_message_ttl b) now stamp)
          | None => true
          end
      | _ => true
      end
      && match step b ev with
         | Some b' => before_expiry k b' evs'
         | None => true
         end
  end.

Definition recorded k b : Prop :=
  k ∈ _processed_messages b ∪ _processing_messages b.

Lemma step_keeps_recorded k b ev b' :
  recorded k b -> before_expiry k b [ev] = true -> step b ev = Some b' ->
  recorded k b'.
Proof.
  unfold recorded. intros Hrec Hev Hstep. cbn in Hev.
  apply andb_true_iff in Hev as [Hev _].
  destruct ev as [a h | a h | m now pr | now | | | now | | | tid | tid e now];
    cbn in Hstep.
  - by injection Hstep as <-.
  - injection Hstep as <-. unfold unsubscribe. by case_bool_decide.
  - injection Hstep as <-. unfold publish, _is_duplicate_message.
    destruct (bool_decide (_ ∈ _processed_messages _)) eqn:E1; [done |].
    destruct (bool_decide (_ ∈ _processing_messages _)) eqn:E2; [done |].
    apply bool_decide_eq_false in E1, E2. cbn in E1, E2. cbn.
    unfold _get_queue. cbn. destruct (_queue b), pr; cbn; set_solver.
  - injection Hstep as <-. unfold start, _get_queue.
    destruct (_dispatch_task b); try done. by destruct (_queue b).
  - done.
  - by injection Hstep as <-.
  - unfold loop_top in Hstep. destruct (_dispatch_task b); try done.
    destruct (negb _); injection Hstep as <-; [| done].
    unfold _cleanup_old_messages. cbn.
    assert (Hk : k ∉ dom (filter
                (fun kv : string * Q => is_expired (_message_ttl b) now kv.2 = true)
                (_message_timestamps b))).
    { rewrite elem_of_dom. intros [t Ht].
      apply map_lookup_filter_Some in Ht as [Ht Hexp]. cbn in Hexp.
      rewrite Ht, Hexp in Hev. done. }
    set_solver.
  - unfold loop_get in Hstep. destruct (_dispatch_task b); try done.
    destruct (_queue b) as [[| m rest] |]; try done. cbn in Hstep.
    destruct (_subscribers b !! to_agent m) as [[| h hs] |];
      try case_bool_decide; by injection Hstep as <-.
  - unfold loop_gathered in Hstep. destruct (_dispatch_task b); try done.
    destruct (forallb _ _); [| done]. by injection Hstep as <-.
  - unfold task_enter in Hstep. destruct (tasks b !! tid) as [t |]; try done.
    destruct (t_status t); try done. destruct (lock_held _ _); try done.
    case_bool_decide; by injection Hstep as <-.
  - unfold task_exit in Hstep. destruct (tasks b !! tid) as [t |]; try done.
    destruct (t_status t); try done. injection Hstep as <-.
    destruct e; cbn; try done;
      (destruct (decide (k = _generate_message_key (t_message t)));
       set_solver).
Qed.

Lemma run_keeps_recorded k evs : ∀ b b',
  recorded k b -> before_expiry k b evs = true -> run b evs = Some b' ->
  recorded k b'.
Proof.
  induction evs as [| ev evs IH]; intros b b' Hrec Hok Hrun; cbn in Hrun.
  - by injection Hrun as <-.
  - destruct (step b ev) as [b1 |] eqn:Hstep; [| done].
    cbn [before_expiry] in Hok. rewrite Hstep in Hok.
    apply andb_true_iff in Hok as [Hev Hok].
    eapply IH; [| exact Hok | exact Hrun].
    eapply step_keeps_recorded; [exact Hrec | | exact Hstep].
    cbn [before_expiry]. rewrite Hev. cbn. by destruct (step b ev).
Qed.

(** Events that all read the clock within the TTL of [t0] do not let an
    entry stamped at [t0] or later expire. *)
Lemma window_before_expiry k t0 ttl evs : ∀ b,
  live k t0 ttl b -> Forall (in_window t0 ttl) evs ->
  before_expiry k b evs = true.
Proof.
  induction evs as [| ev evs IH]; intros b Hlive Hall; [done |].
  apply Forall_cons in Hall as [Hev Hall]. cbn [before_expiry].
  apply andb_true_iff. split.
  - destruct Hev as [Hstop Htime], Hlive as (_ & Hts & Httl).
    destruct ev; try done.
    destruct (_message_timestamps b !! k) as [stamp |] eqn:Hk; [| done].
    destruct (Htime now eq_refl) as [_ Hnow]. rewrite Httl.
    by rewrite (not_expired_in_window t0 ttl now stamp); [| apply Hts |].
  - destruct (step b ev) as [b1 |] eqn:Hstep; [| done].
    apply IH; [| done]. by eapply step_keeps_live.
Qed.

(** C1.  Once [publish m] has returned [True], every later [publish] of a
    message with the same [(conversation_id, action, message_id)] returns
    [False], adds one to the duplicate counter and leaves the queue, the
    dedup sets and the tasks as they were, so that no second instance of
    the key is ever enqueued.  "Later" is after any events of the bus
    during which the dedup entry does not expire and [stop()] is not
    called. *)
Theorem publish_duplicate_rejected b0 m t0 put0 b1 evs b2 m' now put_raises :
  publish m t0 put0 b0 = (PubReturn true, b1) ->
  before_expiry (_generate_message_key m) b1 evs = true ->
  run b1 evs = Some b2 ->
  conversation_id m' = conversation_id m ->
  action m' = action m ->
  message_id m' = message_id m ->
  ∃ b3, publish m' now put_raises b2 = (PubReturn false, b3)
        ∧ duplicate_messages (_stats b3) = duplicate_messages (_stats b2) + 1
        ∧ _queue b3 = _queue b2
        ∧ _processed_messages b3 = _processed_messages b2
        ∧ _processing_messages b3 = _processing_messages b2
        ∧ tasks b3 = tasks b2.
Proof.
  intros Hpub Hok Hrun Hc Ha Hi.
  apply publish_accepted in Hpub as (Hin & _ & _).
  assert (Hrec : recorded (_generate_message_key m) b1)
    by (unfold recorded; set_solver).
  pose proof (run_keeps_recorded _ evs b1 b2 Hrec Hok Hrun) as Hrec2.
  rewrite <- (key_of_triple m m' Hc Ha Hi) in Hrec2.
  eexists. split; [by apply publish_recorded |]. by cbn.
Qed.

(** In particular the entry survives every run whose clock readings all
    lie within the TTL of the first [publish]. *)
Corollary duplicate_rejected_within_ttl b0 m t0 put0 b1 evs b2 m' now put_raises :
  publish m t0 put0 b0 = (PubReturn true, b1) ->
  Forall (in_window t0 (_message_ttl b0)) evs ->
  run b1 evs = Some b2 ->
  _generate_message_key m' = _generate_message_key m ->
  (publish m' now put_raises b2).1 = PubReturn false.
Proof.
  intros Hpub Hall Hrun Hkey.
  apply publish_accepted in Hpub as (Hin & Hts & Httl).
  assert (Hlive : live (_generate_message_key m) t0 (_message_ttl b0) b1).
  { split; [set_solver | split; [| done]].
    intros t. rewrite Hts. intros [= <-]. apply Qle_refl. }
  pose proof (run_keeps_live _ _ _ evs b1 b2 Hlive Hall Hrun) as (Hrec & _ & _).
  rewrite <- Hkey in Hrec. by rewrite publish_recorded.
Qed.

End Dedup.


(** A run on the initial bus: one subscriber, a request published at
    second 1 that is dispatched and handled by second 2, and two periodic
    cleanups, the second one 299.5 seconds after the entry was stamped. *)
Definition ping : A2AMessage :=
  mk_message "m-1" "conv-1" "task-1" "user" "A" REQUEST "ping" [] [] 0 NORMAL.
Definition ping_again : A2AMessage :=
  mk_message "m-1" "conv-1" "task-2" "other" "B" EVENT "ping"
    [("n", VInt 2)] [] 5 HIGH.
Definition ping_events : list (@Event nat) :=
  [LoopGet; TaskEnter 0%nat; TaskExit 0%nat Returned 2; LoopGathered;
   LoopTop 62; LoopTop (603 # 2)].
Definition bus_before_ping : @Bus nat := start 0 (subscribe "A" 7%nat init).
Definition bus_after_ping : @Bus nat :=
  default init (run (publish ping 1 false bus_before_ping).2 ping_events).

Lemma publish_duplicate_rejected_witness :
  ∃ b3, publish ping_again 302 false bus_after_ping = (PubReturn false, b3)
        ∧ duplicate_messages (_stats b3)
          = duplicate_messages (_stats bus_after_ping) + 1
        ∧ _queue b3 = _queue bus_after_ping
        ∧ _processed_messages b3 = _processed_messages bus_after_ping
        ∧ _processing_messages b3 = _processing_messages bus_after_ping
        ∧ tasks b3 = tasks bus_after_ping.
Proof.
  apply (publish_duplicate_rejected bus_before_ping ping 1 false
           (publish ping 1 false bus_before_ping).2 ping_events);
    vm_compute; reflexivity.
Defined.

Section Serialization.
Context {Handler : Type} `{EqDecision Handler}.
Implicit Types (b : @Bus Handler) (a : string) (t : @Task Handler).

(** Task [tid] is inside a handler invocation for agent [a]. *)
Definition in_handler_for b a (tid : nat) : Prop :=
  ∃ t, tasks b !! tid = Some t ∧ t_status t = InHandler
       ∧ to_agent (t_message t) = a.

(** Whoever is inside a handler holds the agent's lock, and no two tasks
    are inside a handler for the same agent. *)
Definition serialized b : Prop :=
  (∀ a tid, in_handler_for b a tid -> lock_held a b = true)
  ∧ (∀ a i j, in_handler_for b a i -> in_handler_for b a j -> i = j).

Lemma serialized_init : serialized (@init Handler).
Proof.
  split.
  - intros a i (t & Ht & _). cbn in Ht. by rewrite lookup_nil in Ht.
  - intros a i j (t & Ht & _). cbn in Ht. by rewrite lookup_nil in Ht.
Qed.

(** Segments that touch neither the tasks nor the locks. *)
Lemma serialized_same b b' :
  tasks b' = tasks b -> _processing_locks b' = _processing_locks b ->
  serialized b -> serialized b'.
Proof.
  intros Ht Hl [H1 H2]. unfold serialized, in_handler_for, lock_held.
  rewrite Ht, Hl. by split.
Qed.

Lemma lookup_set_status (l : list (@Task Handler)) tid t st i t' :
  <[tid := set_status st t]> l !! i = Some t' ->
  (i = tid ∧ t' = set_status st t) ∨ (i ≠ tid ∧ l !! i = Some t').
Proof.
  rewrite list_lookup_insert_Some. intros [(-> & <- & _) | [Hne Hl]]; [by left |].
  right. by split.
Qed.

Lemma lock_held_set a a' v (l : gmap string bool) b :
  lock_held a (set_locks (<[a' := v]> l) b)
  = if decide (a' = a) then v else default false (l !! a).
Proof.
  unfold lock_held. cbn. rewrite lookup_insert. by case_decide.
Qed.

Lemma enter_serialized tid b b' :
  serialized b -> task_enter tid b = Some b' -> serialized b'.
Proof.
  intros [H1 H2]. unfold task_enter.
  destruct (tasks b !! tid) as [t |] eqn:Ht; [| done].
  destruct (t_status t) eqn:Hst; try done.
  destruct (lock_held (to_agent (t_message t)) b) eqn:Hfree; [done |].
  assert (Hold : ∀ a i, i ≠ tid ->
            in_handler_for b a i -> a ≠ to_agent (t_message t)).
  { intros a i _ Hi ->. apply H1 in Hi. congruence. }
  case_bool_decide; intros [= <-]; split.
  - intros a i (t' & Hi & Hs & Ha). cbn in Hi.
    apply lookup_set_status in Hi as [[-> ->] | [Hne Hi]]; [done |].
    assert (Hin : in_handler_for b a i) by (by exists t').
    rewrite lock_held_set. cbn. case_decide as Heq; [| exact (H1 a i Hin)].
    subst a. by destruct (Hold _ i Hne Hin).
  - intros a i j (ti & Hi & Hsi & Hai) (tj & Hj & Hsj & Haj). cbn in Hi, Hj.
    apply lookup_set_status in Hi as [[-> ->] | [Hni Hi]]; [done |].
    apply lookup_set_status in Hj as [[-> ->] | [Hnj Hj]]; [done |].
    apply (H2 a); [by exists ti | by exists tj].
  - intros a i (t' & Hi & Hs & Ha). cbn in Hi.
    rewrite lock_held_set. cbn.
    apply lookup_set_status in Hi as [[-> ->] | [Hne Hi]].
    + cbn in Ha. by rewrite decide_True.
    + case_decide; [done |]. apply (H1 a i). by exists t'.
  - intros a i j (ti & Hi & Hsi & Hai) (tj & Hj & Hsj & Haj). cbn in Hi, Hj.
    apply lookup_set_status in Hi as [[-> ->] | [Hni Hi]];
      apply lookup_set_status in Hj as [[-> ->] | [Hnj Hj]]; cbn in *.
    + done.
    + subst a. destruct (Hold (to_agent (t_message t)) j Hnj); [by exists tj | done].
    + subst a. destruct (Hold (to_agent (t_message t)) i Hni); [by exists ti | done].
    + apply (H2 a); [by exists ti | by exists tj].
Qed.

Lemma exit_serialized tid e now b b' :
  serialized b -> task_exit tid e now b = Some b' -> serialized b'.
Proof.
  intros [H1 H2]. unfold task_exit.
  destruct (tasks b !! tid) as [t |] eqn:Ht; [| done].
  destruct (t_status t) eqn:Hst; try done.
  intros [= <-].
  assert (Hme : in_handler_for b (to_agent (t_message t)) tid) by (by exists t).
  assert (Htasks : ∀ a i,
            in_handler_for
              (set_tasks (<[tid := set_status (Done e) t]> (tasks b)) b) a i ->
            in_handler_for b a i ∧ i ≠ tid).
  { intros a i (t' & Hi & Hs & Ha). cbn in Hi.
    apply lookup_set_status in Hi as [[-> ->] | [Hne Hi]]; [done |].
    split; [by exists t' | done]. }
  split.
  - intros a i Hi.
    assert (Hi' : in_handler_for
              (set_tasks (<[tid := set_status (Done e) t]> (tasks b)) b) a i)
      by (destruct e; exact Hi).
    apply Htasks in Hi' as [Hi' Hne].
    assert (Hlock : lock_held a
              (set_locks (<[to_agent (t_message t) := false]> (_processing_locks b)) b)
              = true).
    { rewrite lock_held_set. case_decide as Heq; [| exact (H1 a i Hi')].
      subst a. by destruct Hne; apply (H2 (to_agent (t_message t))). }
    destruct e; exact Hlock.
  - intros a i j Hi Hj.
    assert (Hi' : in_handler_for
              (set_tasks (<[tid := set_status (Done e) t]> (tasks b)) b) a i)
      by (destruct e; exact Hi).
    assert (Hj' : in_handler_for
              (set_tasks (<[tid := set_status (Done e) t]> (tasks b)) b) a j)
      by (destruct e; exact Hj).
    apply Htasks in Hi' as [Hi' _]. apply Htasks in Hj' as [Hj' _].
    by apply (H2 a).
Qed.

Lemma new_tasks_pending m (hs : list Handler) : ∀ i t,
  new_tasks m hs !! i = Some t -> t_status t = Pending.
Proof.
  induction hs as [| h hs IH]; intros [| i] t; cbn; try done.
  - by intros [= <-].
  - apply IH.
Qed.

Lemma lookup_cancel_pending (l : list (@Task Handler)) : ∀ i t,
  map cancel_pending l !! i = Some t ->
  ∃ t0, l !! i = Some t0 ∧ t = cancel_pending t0.
Proof.
  induction l as [| x l IH]; intros [| i] t; cbn; try done.
  - intros [= <-]. by exists x.
  - apply IH.
Qed.

Lemma get_serialized b b' :
  serialized b -> loop_get b = Some b' -> serialized b'.
Proof.
  intros Hser. unfold loop_get.
  destruct (_dispatch_task b); [done | | done].
  destruct (_queue b) as [[| m rest] |]; [done | | done]. cbn.
  destruct (_subscribers b !! to_agent m) as [[| h hs] |];
    try (case_bool_decide); intros [= <-];
    try (by apply (serialized_same b)).
  destruct Hser as [H1 H2].
  assert (Hold : ∀ a i,
            in_handler_for
              (set_tasks (tasks b ++ new_tasks m (h :: hs)) b) a i ->
            in_handler_for b a i).
  { intros a i (t & Hi & Hs & Ha). cbn in Hi.
    apply lookup_app_Some in Hi as [Hi | [_ Hi]]; [by exists t |].
    apply (new_tasks_pending m (h :: hs)) in Hi. congruence. }
  split.
  - intros a i Hi. apply Hold in Hi. exact (H1 a i Hi).
  - intros a i j Hi Hj. apply Hold in Hi, Hj. by apply (H2 a).
Qed.

Lemma stop_serialized b b' :
  serialized b -> stop b = Some b' -> serialized b'.
Proof.
  intros [H1 H2]. unfold stop.
  destruct (existsb in_flight (tasks b)); [done |]. intros [= <-].
  assert (Hold : ∀ a i, in_handler_for (stopped b) a i -> in_handler_for b a i).
  { intros a i (t & Hi & Hs & Ha). cbn in Hi.
    apply lookup_cancel_pending in Hi as (t0 & Ht0 & ->).
    exists t0. unfold cancel_pending in *.
    destruct (t_status t0) eqn:Hs0; cbn in *; (repeat split); congruence. }
  split.
  - intros a i Hi. apply Hold in Hi. exact (H1 a i Hi).
  - intros a i j Hi Hj. apply Hold in Hi, Hj. by apply (H2 a).
Qed.

Lemma step_serialized b ev b' :
  serialized b -> step b ev = Some b' -> serialized b'.
Proof.
  intros Hser.
  destruct ev as [a h | a h | m now pr | now | | | now | | | tid | tid e now];
    cbn; try (intros [= <-]).
  - by apply (serialized_same b).
  - unfold unsubscribe. case_bool_decide; [by apply (serialized_same b) | done].
  - apply (serialized_same b); [| | done];
      unfold publish, _get_queue; cbn;
      destruct (_is_duplicate_message _ _); cbn; try done;
      destruct (_queue b), pr; done.
  - unfold start. destruct (_dispatch_task b); [| done | done].
    apply (serialized_same b); [| | done]; unfold _get_queue;
      by destruct (_queue b).
  - by apply stop_serialized.
  - by apply (serialized_same b).
  - unfold loop_top. destruct (_dispatch_task b); [done | | done].
    destruct (negb _); intros [= <-]; [by apply (serialized_same b) | done].
  - by apply get_serialized.
  - unfold loop_gathered. destruct (_dispatch_task b); [done | done |].
    destruct (forallb _ _); [| done]. intros [= <-].
    by apply (serialized_same b).
  - by apply enter_serialized.
  - by apply exit_serialized.
Qed.

Lemma run_serialized evs : ∀ b b',
  serialized b -> run b evs = Some b' -> serialized b'.
Proof.
  induction evs as [| ev evs IH]; intros b b' Hser Hrun; cbn in Hrun.
  - by injection Hrun as <-.
  - destruct (step b ev) as [b1 |] eqn:Hstep; [| done].
    eapply IH; [| done]. by eapply step_serialized.
Qed.

(** C6.  In every state the bus can reach, two tasks that are inside a
    handler invocation for the same destination agent are the same task,
    and that agent's lock is held for as long as the invocation lasts. *)
Theorem one_handler_at_a_time_per_agent evs b i j ti tj :
  run init evs = Some b ->
  tasks b !! i = Some ti -> tasks b !! j = Some tj ->
  t_status ti = InHandler -> t_status tj = InHandler ->
  to_agent (t_message ti) = to_agent (t_message tj) ->
  i = j ∧ lock_held (to_agent (t_message ti)) b = true.
Proof.
  intros Hrun Hi Hj Hsi Hsj Ha.
  destruct (run_serialized evs init b serialized_init Hrun) as [H1 H2].
  assert (Hini : in_handler_for b (to_agent (t_message ti)) i) by (by exists ti).
  assert (Hinj : in_handler_for b (to_agent (t_message ti)) j) by (by exists tj).
  split; [exact (H2 _ i j Hini Hinj) | exact (H1 _ i Hini)].
Qed.

(** *** What the queue can gain *)

Definition queued b : list A2AMessage := default [] (_queue b).

Definition is_publish (ev : @Event Handler) : bool :=
  match ev with Publish _ _ _ => true | _ => false end.

(** Only [publish] puts a message on the queue. *)
Lemma step_queue_shrinks b ev b' :
  is_publish ev = false -> step b ev = Some b' ->
  queued b' `suffix_of` queued b.
Proof.
  unfold queued.
  destruct ev as [a h | a h | m now pr | now | | | now | | | tid | tid e now];
    cbn; intros Hev Hstep.
  - injection Hstep as <-. reflexivity.
  - injection Hstep as <-. unfold unsubscribe.
    case_bool_decide; reflexivity.
  - done.
  - injection Hstep as <-. unfold start, _get_queue.
    destruct (_dispatch_task b); try reflexivity.
    destruct (_queue b) eqn:Hq; cbn; rewrite ?Hq; reflexivity.
  - apply stop_Some in Hstep as [-> _]. cbn. apply suffix_nil.
  - injection Hstep as <-. reflexivity.
  - unfold loop_top in Hstep. destruct (_dispatch_task b); try done.
    destruct (negb _); injection Hstep as <-; reflexivity.
  - unfold loop_get in Hstep. destruct (_dispatch_task b); try done.
    destruct (_queue b) as [[| m rest] |]; try done. cbn in *.
    assert (rest `suffix_of` m :: rest) by (by apply suffix_cons_r).
    destruct (_subscribers b !! to_agent m) as [[| h hs] |];
      try case_bool_decide; by injection Hstep as <-.
  - unfold loop_gathered in Hstep. destruct (_dispatch_task b); try done.
    destruct (forallb _ _); [| done]. injection Hstep as <-. reflexivity.
  - unfold task_enter in Hstep. destruct (tasks b !! tid) as [t |]; try done.
    destruct (t_status t); try done. destruct (lock_held _ _); try done.
    case_bool_decide; injection Hstep as <-; reflexivity.
  - unfold task_exit in Hstep. destruct (tasks b !! tid) as [t |]; try done.
    destruct (t_status t); try done. injection Hstep as <-.
    destruct e; reflexivity.
Qed.

Lemma run_queue_shrinks evs : ∀ b b',
  Forall (fun ev => is_publish ev = false) evs ->
  run b evs = Some b' -> queued b' `suffix_of` queued b.
Proof.
  induction evs as [| ev evs IH]; intros b b' Hall Hrun; cbn in Hrun.
  - by injection Hrun as <-.
  - apply Forall_cons in Hall as [Hev Hall].
    destruct (step b ev) as [b1 |] eqn:Hstep; [| done].
    transitivity (queued b1); [by apply IH |].
    by eapply step_queue_shrinks.
Qed.

(** C5.  When the handler awaited by task [tid] raises an exception, the
    bus moves the message key from "processing" to "processed" and adds
    one to the failed counter (and to no other counter).  The message is
    not put back on the queue, and nothing the bus does afterwards on its
    own (any events other than a [publish] call) adds to the queue. *)
Theorem failed_handler_marked_processed b tid t now b' :
  tasks b !! tid = Some t ->
  task_exit tid Raised now b = Some b' ->
  let k := _generate_message_key (t_message t) in
  k ∈ _processed_messages b'
  ∧ (k ∉ _processing_messages b')
  ∧ failed_messages (_stats b') = failed_messages (_stats b) + 1
  ∧ processed_messages (_stats b') = processed_messages (_stats b)
  ∧ _queue b' = _queue b
  ∧ invoked b' = invoked b
  ∧ ∀ evs b'', Forall (fun ev => is_publish ev = false) evs ->
               run b' evs = Some b'' ->
               (queued b'' `suffix_of` queued b).
Proof.
  intros Ht Hexit k. unfold task_exit in Hexit. rewrite Ht in Hexit.
  destruct (t_status t); try done. injection Hexit as <-. cbn.
  repeat split; try done; try set_solver.
  intros evs b'' Hall Hrun.
  by apply (run_queue_shrinks evs _ b'' Hall) in Hrun.
Qed.

(** Once the key of a message is in the processed set, a task created for
    that message returns under the lock without calling its handler. *)
Lemma processed_key_skips_handler b tid t :
  tasks b !! tid = Some t ->
  t_status t = Pending ->
  lock_held (to_agent (t_message t)) b = false ->
  _generate_message_key (t_message t) ∈ _processed_messages b ->
  ∃ b', task_enter tid b = Some b'
        ∧ invoked b' = invoked b
        ∧ tasks b' !! tid = Some (set_status Skipped t).
Proof.
  intros Ht Hs Hfree Hdone. unfold task_enter.
  rewrite Ht, Hs, Hfree, bool_decide_eq_true_2 by done.
  eexists. split; [done |]. split; [done |]. cbn.
  apply list_lookup_insert_eq. by eapply lookup_lt_Some.
Qed.

(** The statistics with the queue one shorter. *)
Definition one_dequeued (v : StatsView) : StatsView :=
  {| sv_total_messages := sv_total_messages v;
     sv_processed_messages := sv_processed_messages v;
     sv_duplicate_messages := sv_duplicate_messages v;
     sv_failed_messages := sv_failed_messages v;
     sv_active_subscribers := sv_active_subscribers v;
     sv_processing_messages := sv_processing_messages v;
     sv_processed_messages_cache := sv_processed_messages_cache v;
     sv_queue_size := sv_queue_size v - 1 |}.

(** Whatever the loop does with the message it takes, [get_stats()]
    changes in the same way. *)
Lemma dequeue_stats b b' :
  loop_get b = Some b' -> get_stats b' = one_dequeued (get_stats b).
Proof.
  unfold loop_get. destruct (_dispatch_task b); try done.
  destruct (_queue b) as [[| m rest] |] eqn:Hq; try done. cbn.
  destruct (_subscribers b !! to_agent m) as [[| h hs] |];
    try case_bool_decide; intros [= <-];
    unfold get_stats, one_dequeued; cbn; rewrite Hq; f_equal; cbn; lia.
Qed.

(** C7, as the code has it.  When the dispatch loop takes from the queue
    a message whose destination has no subscriber (no entry, or an empty
    list), it drops it: no task is created and no handler is called,
    nothing is put back on the queue, the loop goes back to waiting, and
    the dedup record of the message stays, so the bus does not take the
    message again.  The drop is not recorded in the statistics: no counter
    moves, and [get_stats()] differs from before only by a queue that is
    one shorter, which is what it shows after every message the loop
    takes, delivered ones included. *)
Theorem unroutable_message_dropped b last_cleanup m rest :
  _dispatch_task b = Waiting last_cleanup ->
  _queue b = Some (m :: rest) ->
  default [] (_subscribers b !! to_agent m) = [] ->
  ∃ b', loop_get b = Some b'
        ∧ _queue b' = Some rest
        ∧ tasks b' = tasks b
        ∧ invoked b' = invoked b
        ∧ _dispatch_task b' = Waiting last_cleanup
        ∧ _processed_messages b' = _processed_messages b
        ∧ _processing_messages b' = _processing_messages b
        ∧ _stats b' = _stats b
        ∧ get_stats b' = one_dequeued (get_stats b)
        ∧ ∀ c c' : @Bus Handler,
            get_stats c = get_stats b -> loop_get c = Some c' ->
            get_stats c' = get_stats b'.
Proof.
  intros Hloop Hq Hsubs. exists (set_queue (Some rest) b).
  assert (Hget : loop_get b = Some (set_queue (Some rest) b)).
  { unfold loop_get. rewrite Hloop, Hq. cbn.
    destruct (_subscribers b !! to_agent m) as [hs |]; [| done].
    cbn in Hsubs. subst hs. by case_bool_decide. }
  split; [exact Hget |].
  do 7 (split; [done |]).
  split; [by apply dequeue_stats |].
  intros c c' Hc Hc'.
  by rewrite (dequeue_stats c c' Hc'), (dequeue_stats _ _ Hget), Hc.
Qed.

End Serialization.

(** *** Runs with two subscribers of one agent *)

Definition two_subscribers : @Bus nat :=
  start 0 (subscribe "A" 2%nat (subscribe "A" 1%nat init)).

(** The request is published and taken by the loop, which creates one
    task per subscriber; no task has run yet. *)
Definition fanned_out : list (@Event nat) := [Publish ping 1 false; LoopGet].

(** Task 0 gets the lock first ... *)
Definition first_then_second : list (@Event nat) :=
  fanned_out ++ [TaskEnter 0%nat; TaskExit 0%nat Returned 2;
                 TaskEnter 1%nat; LoopGathered].
(** ... or task 1 does, and its handler fails. *)
Definition second_then_first : list (@Event nat) :=
  fanned_out ++ [TaskEnter 1%nat; TaskExit 1%nat Raised 2;
                 TaskEnter 0%nat; LoopGathered].

Definition bus_in_first_handler : @Bus nat :=
  default init (run init [Subscribe "A" 1%nat; Subscribe "A" 2%nat; Start 0;
                          Publish ping 1 false; LoopGet; TaskEnter 0%nat]).

Lemma one_handler_at_a_time_per_agent_witness :
  0%nat = 0%nat ∧ lock_held "A" bus_in_first_handler = true.
Proof.
  apply (one_handler_at_a_time_per_agent
           [Subscribe "A" 1%nat; Subscribe "A" 2%nat; Start 0;
            Publish ping 1 false; LoopGet; TaskEnter 0%nat]
           bus_in_first_handler 0%nat 0%nat
           {| t_message := ping; t_handler := 1%nat; t_status := InHandler |}
           {| t_message := ping; t_handler := 1%nat; t_status := InHandler |});
    vm_compute; reflexivity.
Defined.

(** While task 0 is inside its handler, task 1 cannot enter. *)
Example second_task_waits_for_lock :
  step bus_in_first_handler (TaskEnter 1%nat) = None.
Proof. vm_compute. reflexivity. Qed.

Definition bus_with_failed_ping : @Bus nat :=
  default init (run two_subscribers (fanned_out ++ [TaskEnter 1%nat])).

Lemma failed_handler_marked_processed_witness :
  let b := bus_with_failed_ping in
  let b' := default init (task_exit 1%nat Raised 2 b) in
  "conv-1:ping:m-1" ∈ _processed_messages b'
  ∧ ("conv-1:ping:m-1" ∉ _processing_messages b')
  ∧ failed_messages (_stats b') = failed_messages (_stats b) + 1
  ∧ processed_messages (_stats b') = processed_messages (_stats b)
  ∧ _queue b' = _queue b
  ∧ invoked b' = invoked b
  ∧ ∀ evs b'', Forall (fun ev => is_publish ev = false) evs ->
               run b' evs = Some b'' ->
               (queued b'' `suffix_of` queued b).
Proof.
  apply (failed_handler_marked_processed bus_with_failed_ping 1%nat
           {| t_message := ping; t_handler := 2%nat; t_status := InHandler |}
           2 (default init (task_exit 1%nat Raised 2 bus_with_failed_ping)));
    vm_compute; reflexivity.
Defined.

(** A request for agent "B", which nobody has subscribed to. *)
Definition lost : A2AMessage :=
  mk_message "m-2" "conv-1" "task-1" "user" "B" REQUEST "ping" [] [] 0 NORMAL.
Definition bus_with_lost : @Bus nat := (publish lost 1 false two_subscribers).2.

Lemma unroutable_message_dropped_witness :
  ∃ b', loop_get bus_with_lost = Some b'
        ∧ _queue b' = Some []
        ∧ tasks b' = tasks bus_with_lost
        ∧ invoked b' = invoked bus_with_lost
        ∧ _dispatch_task b' = Waiting 0
        ∧ _processed_messages b' = _processed_messages bus_with_lost
        ∧ _processing_messages b' = _processing_messages bus_with_lost
        ∧ _stats b' = _stats bus_with_lost
        ∧ get_stats b' = one_dequeued (get_stats bus_with_lost)
        ∧ ∀ c c' : @Bus nat,
            get_stats c = get_stats bus_with_lost ->
            loop_get c = Some c' -> get_stats c' = get_stats b'.
Proof.
  apply (unroutable_message_dropped bus_with_lost 0 lost []);
    vm_compute; reflexivity.
Defined.

(** The same bus with the request for "A" queued instead. *)
Definition bus_with_ping : @Bus nat := (publish ping 1 false two_subscribers).2.

(** C7 as stated fails.  The message for "B", which has no subscriber, is
    dropped, and every entry of [get_stats()] other than the queue size
    is what it was; the statistics are the very ones the bus shows after
    it has taken the request for "A" and created the tasks that deliver
    it. *)
Lemma drop_not_reflected_in_stats :
  ∃ b_drop b_take,
    loop_get bus_with_lost = Some b_drop
    ∧ loop_get bus_with_ping = Some b_take
    ∧ tasks b_drop = []
    ∧ length (tasks b_take) = 2%nat
    ∧ _stats b_drop = _stats bus_with_lost
    ∧ sv_total_messages (get_stats b_drop) = 1
    ∧ sv_processed_messages (get_stats b_drop) = 0
    ∧ sv_duplicate_messages (get_stats b_drop) = 0
    ∧ sv_failed_messages (get_stats b_drop) = 0
    ∧ sv_active_subscribers (get_stats b_drop)
      = sv_active_subscribers (get_stats bus_with_lost)
    ∧ sv_processing_messages (get_stats b_drop)
      = sv_processing_messages (get_stats bus_with_lost)
    ∧ sv_processed_messages_cache (get_stats b_drop)
      = sv_processed_messages_cache (get_stats bus_with_lost)
    ∧ get_stats bus_with_lost = get_stats bus_with_ping
    ∧ get_stats b_drop = get_stats b_take.
Proof.
  eexists _, _. split; [vm_compute; reflexivity |].
  split; [vm_compute; reflexivity |].
  vm_compute. repeat split; reflexivity.
Qed.

(** C2 (the code departs from it).  One request for agent "A", which has
    two subscribers.  Whichever task gets the agent lock first runs its
    handler and marks the key processed, also when the handler fails; the
    other task then finds the key processed and returns without calling
    its handler.  Of the two handlers exactly one is invoked. *)
Theorem second_subscriber_not_invoked :
  (invoked <$> run two_subscribers first_then_second) = Some [(1%nat, ping)]
  ∧ (map t_status <$> (tasks <$> run two_subscribers first_then_second))
    = Some [Done Returned; Skipped]
  ∧ (invoked <$> run two_subscribers second_then_first) = Some [(2%nat, ping)]
  ∧ (map t_status <$> (tasks <$> run two_subscribers second_then_first))
    = Some [Skipped; Done Raised].
Proof. vm_compute. repeat split; reflexivity. Qed.

(** After the TTL the dedup record is evicted by the periodic cleanup, and
    the bus takes the same message again. *)
Example republish_after_ttl_accepted :
  (publish ping 401 false
     (default init (run bus_after_ping [LoopTop 400]))).1 = PubReturn true
  ∧ (publish ping 302 false bus_after_ping).1 = PubReturn false.
Proof. vm_compute. split; reflexivity. Qed.

End MessageBusSpec.

(* ===================================================================== *)
(** ** Properties of the agent runtime *)
(* ===================================================================== *)

Module BaseAgentSpec.
Import BaseAgent.

Arguments _handle_agent_error : simpl never.
Arguments _send_response : simpl never.
Arguments _update_average_response_time : simpl never.

Section Retry.
Context {Env : Type}.
Implicit Types (handler : @Callable Env) (w : @World Env) (m : A2AMessage).

(** The retry loop, as the source reads. *)
Lemma _execute_with_retry_eq handler m retry_count w :
  _execute_with_retry handler m retry_count w =
  match handler (self w) m (env w) with
  | (Ret r, env') => (Ret r, after_call m env' w)
  | (Exc (ExOther d), env') => (Exc (ExOther d), after_call m env' w)
  | (Exc (ExAgent e), env') =>
      if recoverable e && bool_decide (retry_count < max_retries (self w)) then
        _execute_with_retry handler m (retry_count + 1)
          (emit (Slept (retry_delay (self w) * inject_Z (retry_count + 1)))
             (after_call m env' w))
      else (Exc (ExAgent e), after_call m env' w)
  end.
Proof.
  simp _execute_with_retry.
  destruct (handler (self w) m (env w)) as [[r | [e | d]] env']; cbn;
    try reflexivity.
  unfold _execute_with_retry_unfold_clause_1_clause_3,
    _execute_with_retry_unfold_clause_1_clause_3_clause_1.
  destruct (recoverable e); cbn; [| by destruct (decide _)].
  case_bool_decide; destruct (decide _); try lia; reflexivity.
Qed.

(** What a retry loop with [n] retries leaves in the log: [n + 1] calls
    with a linearly growing pause between them. *)
Fixpoint retry_trace m (delay : Q) (retry_count : Z) (n : nat) : list Effect :=
  match n with
  | O => [Invoked m]
  | S n' =>
      Invoked m :: Slept (delay * inject_Z (retry_count + 1))
      :: retry_trace m delay (retry_count + 1) n'
  end.

Lemma invocations_app (l1 l2 : list Effect) :
  invocations (l1 ++ l2) = (invocations l1 + invocations l2)%nat.
Proof. unfold invocations. by rewrite filter_app, length_app. Qed.

Lemma invocations_retry_trace m delay : ∀ n rc,
  invocations (retry_trace m delay rc n) = S n.
Proof.
  induction n as [| n IH]; intros rc; [done |].
  cbn [retry_trace].
  change (invocations (Invoked m :: Slept (delay * inject_Z (rc + 1))
                       :: retry_trace m delay (rc + 1) n))
    with (S (invocations (retry_trace m delay (rc + 1) n))).
  by rewrite IH.
Qed.

Lemma slept_retry_trace m delay : ∀ n rc,
  length (slept (retry_trace m delay rc n)) = n.
Proof.
  induction n as [| n IH]; intros rc; [done |].
  cbn. by rewrite IH.
Qed.

Lemma constructed_retry_trace m delay : ∀ n rc,
  constructed (retry_trace m delay rc n) = []
  ∧ published (retry_trace m delay rc n) = [].
Proof. induction n as [| n IH]; intros rc; [done |]. cbn. apply IH. Qed.

(** The handler fails with a recoverable [AgentError] whenever it is
    called with [m]. *)
Definition always_recoverable handler (a : Agent) m : Prop :=
  ∀ e, ∃ err e', handler a m e = (Exc (ExAgent err), e')
                 ∧ recoverable err = true.

(** Against such a handler the loop uses up all its retries. *)
Lemma retry_exhausted handler m : ∀ n retry_count w,
  always_recoverable handler (self w) m ->
  retry_count <= max_retries (self w) ->
  Z.to_nat (max_retries (self w) - retry_count) = n ->
  ∃ err e',
    _execute_with_retry handler m retry_count w
    = (Exc (ExAgent err),
       {| self := self w; env := e'; ticks := ticks w;
          log := log w ++ retry_trace m (retry_delay (self w)) retry_count n |})
    ∧ recoverable err = true.
Proof.
  induction n as [| n IH]; intros rc w Hfail Hle Hn;
    rewrite _execute_with_retry_eq;
    destruct (Hfail (env w)) as (err & e' & -> & Hrec); rewrite Hrec; cbn.
  - rewrite bool_decide_eq_false_2 by lia. by exists err, e'.
  - rewrite bool_decide_eq_true_2 by lia.
    destruct (IH (rc + 1)
                (emit (Slept (retry_delay (self w) * inject_Z (rc + 1)))
                   (after_call m e' w))) as (err' & e'' & -> & Hrec');
      [exact Hfail | cbn; lia | cbn; lia |].
    exists err', e''. split; [| done]. cbn.
    by rewrite <- !app_assoc.
Qed.

(** An error that is not recoverable (or not an [AgentError] at all) ends
    the loop at once. *)
Lemma retry_not_recoverable handler m retry_count w x e' :
  handler (self w) m (env w) = (Exc x, e') ->
  match x with ExAgent err => recoverable err = false | ExOther _ => True end ->
  _execute_with_retry handler m retry_count w = (Exc x, after_call m e' w).
Proof.
  intros Hcall Hx. rewrite _execute_with_retry_eq, Hcall.
  destruct x as [err | d]; [| done]. by rewrite Hx.
Qed.

Lemma retry_returned handler m retry_count w r e' :
  handler (self w) m (env w) = (Ret r, e') ->
  _execute_with_retry handler m retry_count w = (Ret r, after_call m e' w).
Proof. intros Hcall. by rewrite _execute_with_retry_eq, Hcall. Qed.

End Retry.

Section Pipeline.
Context {Env : Type}.
Variable wall_clock : nat -> Q.
Variable float_str : Q -> string.
Variable isoformat : Q -> string.
Implicit Types (w : @World Env) (m : A2AMessage) (h : @Handler Env).

Abbreviation handle := (_handle_message wall_clock float_str isoformat).

(** The delivery is not a duplicate of one in flight. *)
Definition fresh_delivery m w : Prop :=
  request_id_of float_str m (wall_clock (ticks w)) ∉ _processing_requests (self w).

Lemma constructed_app (l1 l2 : list Effect) :
  constructed (l1 ++ l2) = constructed l1 ++ constructed l2.
Proof. apply omap_app. Qed.
Lemma published_app (l1 l2 : list Effect) :
  published (l1 ++ l2) = published l1 ++ published l2.
Proof. apply omap_app. Qed.
Lemma slept_app (l1 l2 : list Effect) :
  slept (l1 ++ l2) = slept l1 ++ slept l2.
Proof. apply omap_app. Qed.

(** The log of a message that is built and, if possible, sent. *)
Definition sending (x : A2AMessage) (can_send : bool) : list Effect :=
  Constructed x :: (if can_send then [Published x] else []).

Lemma sending_log x can_send :
  invocations (sending x can_send) = 0%nat
  ∧ slept (sending x can_send) = []
  ∧ constructed (sending x can_send) = [x]
  ∧ published (sending x can_send) = if can_send then [x] else [].
Proof. by destruct can_send. Qed.

Lemma invocations_single m : invocations [Invoked m] = 1%nat.
Proof. reflexivity. Qed.

(** The state [_handle_agent_error] leaves: three clock readings, the
    error and failure counters, and one error message, sent if the agent
    can send. *)
Definition error_payload_of (err : AgentError) w : PyDict :=
  [("error", VStr (err_str err));
   ("error_code", VStr (error_code err));
   ("recoverable", VBool (recoverable err));
   ("agent_id", VStr (agent_id (self w)));
   ("timestamp", VStr (isoformat (wall_clock (S (ticks w)))))].

Definition error_reply m (err : AgentError) w : A2AMessage :=
  error_message_for (self w) m (error_payload_of err w)
    (wall_clock (S (S (ticks w)))).

Definition after_error m (err : AgentError) w : @World Env :=
  {| self := set_performance_stats (bump_failed (performance_stats (self w)))
               (set_error_stats
                  (record_error err (isoformat (wall_clock (ticks w))) (action m)
                     (error_stats (self w))) (self w));
     env := env w; ticks := S (S (S (ticks w)));
     log := log w ++ sending (error_reply m err w)
                       (message_bus (self w) && running (self w)) |}.

Lemma handle_agent_error_eq m (err : AgentError) (start_time : Q) w :
  _handle_agent_error wall_clock isoformat m err start_time w
  = (Ret tt, after_error m err w).
Proof.
  unfold _handle_agent_error, _send_error_response, send_message, bind,
    try_except, now, modify, with_self, emit, ret, raise, after_error, sending.
  cbn.
  destruct (message_bus (self w)), (running (self w)); cbn;
    by rewrite <- ?app_assoc.
Qed.

(** The state [_send_response] leaves: one clock reading and one response
    message, sent if the agent can send. *)
Definition reply m (d : PyDict) w : A2AMessage :=
  response_message (self w) m d (wall_clock (ticks w)).

Definition after_response m (d : PyDict) w : @World Env :=
  {| self := self w; env := env w; ticks := S (ticks w);
     log := log w ++ sending (reply m d w)
                       (message_bus (self w) && running (self w)) |}.

Lemma send_response_eq m (d : PyDict) w :
  _send_response wall_clock m d w = (Ret tt, after_response m d w).
Proof.
  unfold _send_response, send_message, bind, try_except, now, emit, ret, raise,
    after_response, sending.
  cbn. destruct (message_bus (self w)), (running (self w)); cbn;
    by rewrite <- ?app_assoc.
Qed.

(** The state in which the retry loop starts: the clock has been read,
    the request is registered as in flight. *)
Definition entered m w : @World Env :=
  let start_time := wall_clock (ticks w) in
  with_self
    (fun a => set_performance_stats
                (set_last_activity start_time (performance_stats a)) a)
    (with_self
       (fun a => set_processing_requests
                   ({[request_id_of float_str m start_time]}
                    ∪ _processing_requests a) a)
       {| self := self w; env := env w; ticks := S (ticks w); log := log w |}).

(** The [finally] clause. *)
Definition leave m w (w' : @World Env) : @World Env :=
  with_self
    (fun a => set_processing_requests
                (_processing_requests a
                 ∖ {[request_id_of float_str m (wall_clock (ticks w))]}) a) w'.

(** The error [_handle_agent_error] is called with. *)
Definition as_agent_error (x : Exn) : AgentError :=
  match x with
  | ExAgent e => e
  | ExOther descr => AgentProcessingError ("Unexpected error: " +:+ descr) false
  end.

(** A duplicate delivery returns at once. *)
Lemma handle_duplicate m w :
  ¬ fresh_delivery m w ->
  handle m w
  = (Ret tt, leave m w {| self := self w; env := env w;
                          ticks := S (ticks w); log := log w |}).
Proof.
  intros Hdup. unfold fresh_delivery in Hdup. apply dec_stable in Hdup.
  unfold _handle_message, bind, try_finally, try_except, now. cbn.
  by rewrite bool_decide_eq_true_2.
Qed.

(** The retry loop ended with an exception. *)
Lemma handle_failed m w x w2 :
  fresh_delivery m w ->
  _execute_with_retry _process_message m 0 (entered m w) = (Exc x, w2) ->
  handle m w = (Ret tt, leave m w (after_error m (as_agent_error x) w2)).
Proof.
  intros Hfresh Hrun.
  unfold _handle_message, bind, try_finally, try_except, now. cbn.
  rewrite bool_decide_eq_false_2 by exact Hfresh.
  match goal with
  | |- context [_execute_with_retry _ _ _ ?W] => change W with (entered m w)
  end.
  rewrite Hrun.
  destruct x as [e | d]; cbn; by rewrite handle_agent_error_eq.
Qed.

(** The state after a result has been answered and counted, just before
    the average is updated. *)
Definition answered m (result : option PyDict) (w2 : @World Env) : @World Env :=
  let w3 := match truthy result with
            | Some d => after_response m d w2
            | None => w2
            end in
  {| self := set_performance_stats
               (bump_processed (performance_stats (self w3))) (self w3);
     env := env w3; ticks := S (ticks w3); log := log w3 |}.

(** The elapsed time [_handle_message] measures, as a float. *)
Definition elapsed m (result : option PyDict) w w2 : Q :=
  round_double
    (wall_clock (ticks (answered m result w2) - 1) - wall_clock (ticks w)).

(** The retry loop returned a result. *)
Lemma handle_returned m w result w2 :
  fresh_delivery m w ->
  _execute_with_retry _process_message m 0 (entered m w) = (Ret result, w2) ->
  handle m w
  = match _update_average_response_time (elapsed m result w w2)
            (answered m result w2) with
    | (Ret _, w4) => (Ret tt, leave m w w4)
    | (Exc x, w4) =>
        (Ret tt, leave m w (after_error m (as_agent_error x) w4))
    end.
Proof.
  intros Hfresh Hrun.
  unfold _handle_message, bind, try_finally, try_except, now. cbn.
  rewrite bool_decide_eq_false_2 by exact Hfresh.
  match goal with
  | |- context [_execute_with_retry _ _ _ ?W] => change W with (entered m w)
  end.
  rewrite Hrun. unfold answered, elapsed, answered.
  destruct (truthy result) as [d |]; cbn.
  - rewrite send_response_eq. cbn. rewrite ?Nat.sub_0_r.
    unfold modify. cbn.
    destruct (_update_average_response_time _ _) as [[[] | x] w4]; [done |].
    destruct x; cbn; by rewrite handle_agent_error_eq.
  - rewrite ?Nat.sub_0_r. unfold modify. cbn.
    destruct (_update_average_response_time _ _) as [[[] | x] w4]; [done |].
    destruct x; cbn; by rewrite handle_agent_error_eq.
Qed.

(** The handler registered for the action of [m]. *)
Definition registered m w h : Prop :=
  dict_get (action m) (message_handlers (self w)) = Some h.

Lemma process_message_registered m w h (a : Agent) e :
  registered m w h -> message_handlers a = message_handlers (self w) ->
  _process_message a m e = h m e.
Proof. intros Hh Ha. unfold _process_message. by rewrite Ha, Hh. Qed.

(** C3.  A handler that raises a recoverable [AgentError] on every call
    is called [max_retries + 1] times, with [max_retries] pauses in
    between.  Then the error leaves the retry loop: the message counts as
    failed, not as processed, the error counters move, and one message
    with action "error" is built for the original sender, and published
    when the agent has a bus and is running. *)
Theorem retry_bound m w h :
  fresh_delivery m w ->
  registered m w h ->
  (∀ e, ∃ err e', h m e = (Exc (ExAgent err), e') ∧ recoverable err = true) ->
  0 <= max_retries (self w) ->
  ∃ w' w2 err em,
    handle m w = (Ret tt, w')
    ∧ _execute_with_retry _process_message m 0 (entered m w)
      = (Exc (ExAgent err), w2)
    ∧ recoverable err = true
    ∧ invocations (log w')
      = (invocations (log w) + Z.to_nat (max_retries (self w) + 1))%nat
    ∧ length (slept (log w'))
      = (length (slept (log w)) + Z.to_nat (max_retries (self w)))%nat
    ∧ messages_failed (performance_stats (self w'))
      = messages_failed (performance_stats (self w)) + 1
    ∧ messages_processed (performance_stats (self w'))
      = messages_processed (performance_stats (self w))
    ∧ total_errors (error_stats (self w'))
      = total_errors (error_stats (self w)) + 1
    ∧ recoverable_errors (error_stats (self w'))
      = recoverable_errors (error_stats (self w)) + 1
    ∧ constructed (log w') = constructed (log w) ++ [em]
    ∧ published (log w')
      = published (log w)
        ++ (if message_bus (self w) && running (self w) then [em] else [])
    ∧ action em = "error"
    ∧ to_agent em = from_agent m
    ∧ dict_get "error" (payload em) = Some (VStr (err_str err))
    ∧ dict_get "recoverable" (payload em) = Some (VBool true).
Proof.
  intros Hfresh Hh Hfail Hmax.
  destruct (retry_exhausted _process_message m
              (Z.to_nat (max_retries (self w))) 0 (entered m w))
    as (err & e' & Hrun & Hrec).
  { intros e. rewrite (process_message_registered m w h); [apply Hfail | done..]. }
  { cbn. lia. }
  { cbn. f_equal. lia. }
  cbn [entered with_self self env ticks log] in Hrun.
  eexists _, _, err, _. split; [by eapply handle_failed |].
  split; [exact Hrun |]. split; [exact Hrec |].
  cbn -[invocations slept constructed published sending]. rewrite Hrec.
  rewrite !invocations_app, !slept_app, !constructed_app, !published_app,
    !length_app, invocations_retry_trace, slept_retry_trace.
  destruct (constructed_retry_trace m (retry_delay (self w))
              (Z.to_nat (max_retries (self w))) 0) as [-> ->].
  match goal with
  | |- context [invocations (sending ?x ?b)] =>
      destruct (sending_log x b) as (-> & -> & -> & ->)
  end.
  unfold error_reply, error_payload_of. cbn. rewrite Hrec, !app_nil_r.
  repeat split; try done; lia.
Qed.

(** C4.  A handler whose call raises an [AgentError] that is not
    recoverable, or an exception that is no [AgentError], is called that
    once: no pause, no second call, whatever [max_retries] is.  The error
    is counted as critical and reported as not recoverable. *)
Theorem non_recoverable_not_retried m w h x e' :
  fresh_delivery m w ->
  registered m w h ->
  h m (env w) = (Exc x, e') ->
  match x with ExAgent err => recoverable err = false | ExOther _ => True end ->
  ∃ w' em,
    handle m w = (Ret tt, w')
    ∧ _execute_with_retry _process_message m 0 (entered m w)
      = (Exc x, after_call m e' (entered m w))
    ∧ invocations (log w') = S (invocations (log w))
    ∧ slept (log w') = slept (log w)
    ∧ env w' = e'
    ∧ messages_failed (performance_stats (self w'))
      = messages_failed (performance_stats (self w)) + 1
    ∧ messages_processed (performance_stats (self w'))
      = messages_processed (performance_stats (self w))
    ∧ critical_errors (error_stats (self w'))
      = critical_errors (error_stats (self w)) + 1
    ∧ recoverable_errors (error_stats (self w'))
      = recoverable_errors (error_stats (self w))
    ∧ constructed (log w') = constructed (log w) ++ [em]
    ∧ published (log w')
      = published (log w)
        ++ (if message_bus (self w) && running (self w) then [em] else [])
    ∧ action em = "error"
    ∧ to_agent em = from_agent m
    ∧ dict_get "recoverable" (payload em) = Some (VBool false).
Proof.
  intros Hfresh Hh Hcall Hx.
  assert (Hrun : _execute_with_retry _process_message m 0 (entered m w)
                 = (Exc x, after_call m e' (entered m w))).
  { apply retry_not_recoverable; [| exact Hx].
    by rewrite (process_message_registered m w h). }
  assert (Hnon : recoverable (as_agent_error x) = false)
    by (by destruct x).
  eexists _, _. split; [by eapply handle_failed |].
  split; [exact Hrun |].
  cbn -[invocations slept constructed published sending]. rewrite Hnon.
  rewrite !invocations_app, !slept_app, !constructed_app, !published_app,
    invocations_single.
  match goal with
  | |- context [invocations (sending ?x ?b)] =>
      destruct (sending_log x b) as (-> & -> & -> & ->)
  end.
  unfold error_reply, error_payload_of. cbn. rewrite Hnon.
  rewrite !app_nil_r. repeat split; try done; lia.
Qed.

(** With a positive count, [_update_average_response_time] stores the
    elapsed time (first message) or the rounded moving average. *)
Definition new_average (old : Q) (n : Z) (dt : Q) : Q :=
  if (n =? 1)%Z then dt else py_round3 (moving_average old n dt).

Lemma update_average_eq (dt : Q) w :
  1 <= messages_processed (performance_stats (self w)) ->
  _update_average_response_time dt w
  = (Ret tt,
     with_self
       (fun a => set_performance_stats
                   (set_average
                      (new_average
                         (average_response_time (performance_stats (self w)))
                         (messages_processed (performance_stats (self w))) dt)
                      (performance_stats a)) a) w).
Proof.
  intros Hn. unfold _update_average_response_time, new_average.
  destruct (_ =? 1)%Z eqn:E1; [done |].
  by rewrite (proj2 (Z.eqb_neq _ 0)) by lia.
Qed.

(** C10.  The runtime answers a handled message only when the handler's
    result is truthy.  For [None] and for an empty mapping it builds and
    publishes no message at all; for a non-empty mapping it builds one
    message for the original sender, with the result as payload, and
    publishes it when the agent has a bus and is running. *)
Theorem response_only_for_truthy_result m w h r e' :
  fresh_delivery m w ->
  registered m w h ->
  h m (env w) = (Ret r, e') ->
  0 <= messages_processed (performance_stats (self w)) ->
  ∃ w',
    handle m w = (Ret tt, w')
    ∧ invocations (log w') = S (invocations (log w))
    ∧ messages_processed (performance_stats (self w'))
      = messages_processed (performance_stats (self w)) + 1
    ∧ (r = None ∨ r = Some [] ->
       constructed (log w') = constructed (log w)
       ∧ published (log w') = published (log w))
    ∧ (∀ kv d, r = Some (kv :: d) ->
       ∃ rm, constructed (log w') = constructed (log w) ++ [rm]
             ∧ published (log w')
               = published (log w)
                 ++ (if message_bus (self w) && running (self w)
                     then [rm] else [])
             ∧ to_agent rm = from_agent m
             ∧ from_agent rm = agent_id (self w)
             ∧ action rm = action m +:+ "_response"
             ∧ payload rm = kv :: d).
Proof.
  intros Hfresh Hh Hcall Hcount.
  assert (Hrun : _execute_with_retry _process_message m 0 (entered m w)
                 = (Ret r, after_call m e' (entered m w))).
  { apply retry_returned. by rewrite (process_message_registered m w h). }
  rewrite (handle_returned m w r _ Hfresh Hrun).
  assert (Hn : messages_processed
                 (performance_stats
                    (self (answered m r (after_call m e' (entered m w)))))
               = messages_processed (performance_stats (self w)) + 1).
  { unfold answered. by destruct (truthy r). }
  rewrite update_average_eq by lia.
  eexists. split; [reflexivity |].
  cbn -[invocations slept constructed published sending answered].
  unfold answered.
  split; [| split; [by destruct (truthy r) | split]].
  - destruct (truthy r);
      cbn -[invocations slept constructed published sending];
      rewrite !invocations_app, invocations_single; [| lia].
    match goal with
    | |- context [invocations (sending ?x ?b)] =>
        destruct (sending_log x b) as (-> & _)
    end. lia.
  - intros [-> | ->]; cbn -[constructed published];
      by rewrite constructed_app, published_app, !app_nil_r.
  - intros kv d ->. eexists.
    cbn -[constructed published sending].
    rewrite !constructed_app, !published_app.
    match goal with
    | |- context [constructed (sending ?x ?b)] =>
        destruct (sending_log x b) as (_ & _ & -> & ->)
    end.
    cbn. rewrite !app_nil_r. repeat split; done.
Qed.



(** *** Message ids the runtime chooses *)

(** The ids [_send_response] and [_send_error_response] give. *)
Definition derived_ids m : list string :=
  ["resp_" +:+ message_id m; "error_" +:+ message_id m].

(** Whatever the handler does, the retry loop itself builds and publishes
    no message. *)
Lemma retry_builds_nothing (handler : @Callable Env) m : ∀ n retry_count w,
  Z.to_nat (max_retries (self w) - retry_count) = n ->
  ∃ l, log (_execute_with_retry handler m retry_count w).2 = log w ++ l
       ∧ constructed l = [] ∧ published l = [].
Proof.
  induction n as [| n IH]; intros rc w Hn; rewrite _execute_with_retry_eq;
    destruct (handler (self w) m (env w)) as [[r | [e | d]] e'];
    try (by exists [Invoked m]).
  - rewrite bool_decide_eq_false_2 by lia. rewrite andb_false_r.
    by exists [Invoked m].
  - destruct (recoverable e && bool_decide (rc < max_retries (self w)));
      [| by exists [Invoked m]].
    destruct (IH (rc + 1)
                (emit (Slept (retry_delay (self w) * inject_Z (rc + 1)))
                   (after_call m e' w))) as (l & -> & Hc & Hp);
      [cbn; lia |].
    exists (Invoked m :: Slept (retry_delay (self w) * inject_Z (rc + 1)) :: l).
    split; [| split; [exact Hc | exact Hp]].
    cbn. by rewrite <- !app_assoc.
Qed.

(** One delivery makes the runtime build at most a response and an error
    message, with the ids derived from the original's. *)
Lemma handle_builds m w :
  ∃ l, log (handle m w).2 = log w ++ l
       ∧ message_id <$> constructed l `sublist_of` derived_ids m.
Proof.
  destruct (decide (fresh_delivery m w)) as [Hfresh | Hdup].
  2: { rewrite handle_duplicate by done. exists []. cbn.
       split; [by rewrite app_nil_r | apply sublist_nil_l]. }
  destruct (retry_builds_nothing _process_message m _ 0 (entered m w) eq_refl)
    as (l1 & Hl1 & Hc1 & _).
  cbn [entered with_self log] in Hl1.
  destruct (_execute_with_retry _process_message m 0 (entered m w))
    as [[result | x] w2] eqn:Hrun; cbn [snd] in Hl1.
  - rewrite (handle_returned m w result w2 Hfresh Hrun).
    assert (Hans : ∃ l2, log (answered m result w2) = log w ++ l1 ++ l2
              ∧ (constructed l2 = []
                 ∨ message_id <$> constructed l2 = ["resp_" +:+ message_id m])).
    { unfold answered. destruct (truthy result) as [d |]; cbn [log].
      - exists (sending (reply m d w2)
                  (message_bus (self w2) && running (self w2))).
        cbn [after_response log]. rewrite Hl1, <- app_assoc.
        split; [done |]. right.
        by destruct (sending_log (reply m d w2)
                       (message_bus (self w2) && running (self w2)))
          as (_ & _ & -> & _).
      - exists []. rewrite app_nil_r. by split; [| left]. }
    destruct Hans as (l2 & Hl2 & Hc2).
    unfold _update_average_response_time.
    destruct (_ =? 1)%Z; [| destruct (_ =? 0)%Z]; cbn [snd leave with_self log].
    + exists (l1 ++ l2). split; [done |].
      rewrite constructed_app, Hc1. cbn.
      destruct Hc2 as [-> | ->]; [apply sublist_nil_l |].
      by apply sublist_skip, sublist_nil_l.
    + exists (l1 ++ l2 ++ sending
                (error_reply m
                   (as_agent_error (ExOther "float division by zero"))
                   (answered m result w2))
                (message_bus (self (answered m result w2))
                 && running (self (answered m result w2)))).
      cbn [after_error log]. rewrite Hl2, <- !app_assoc. split; [done |].
      rewrite !constructed_app, Hc1. cbn [app].
      destruct (sending_log
                  (error_reply m
                     (as_agent_error (ExOther "float division by zero"))
                     (answered m result w2))
                  (message_bus (self (answered m result w2))
                   && running (self (answered m result w2))))
        as (_ & _ & -> & _).
      rewrite fmap_app.
      destruct Hc2 as [-> | ->]; cbn.
      * by apply sublist_cons, sublist_skip.
      * by apply sublist_skip, sublist_skip.
    + exists (l1 ++ l2). split; [done |].
      rewrite constructed_app, Hc1. cbn.
      destruct Hc2 as [-> | ->]; [apply sublist_nil_l |].
      by apply sublist_skip, sublist_nil_l.
  - rewrite (handle_failed m w x w2 Hfresh Hrun).
    cbn [snd leave with_self log after_error].
    eexists. rewrite Hl1, <- app_assoc. split; [done |].
    rewrite constructed_app, Hc1. cbn [app].
    destruct (sending_log (error_reply m (as_agent_error x) w2)
                (message_bus (self w2) && running (self w2)))
      as (_ & _ & -> & _).
    cbn. by apply sublist_cons, sublist_skip.
Qed.

(** The agent handles the messages of [ms] one after the other. *)
Definition handle_all (ms : list A2AMessage) w : @World Env :=
  foldl (fun w m => (handle m w).2) w ms.

Lemma handle_all_builds ms : ∀ w,
  ∃ l, log (handle_all ms w) = log w ++ l
       ∧ message_id <$> constructed l `sublist_of` mjoin (derived_ids <$> ms).
Proof.
  induction ms as [| m ms IH]; intros w.
  - exists []. cbn. by rewrite app_nil_r.
  - destruct (handle_builds m w) as (l1 & Hl1 & Hs1).
    destruct (IH (handle m w).2) as (l2 & Hl2 & Hs2).
    exists (l1 ++ l2). cbn [handle_all foldl]. fold (handle_all ms (handle m w).2).
    rewrite Hl2, Hl1, <- app_assoc. split; [done |].
    rewrite constructed_app, fmap_app. cbn [fmap list_fmap mjoin list_join].
    by apply sublist_app.
Qed.

Lemma resp_inj (s1 s2 : string) : "resp_" +:+ s1 = "resp_" +:+ s2 -> s1 = s2.
Proof. cbv [String.append]. by intros [= ->]. Qed.
Lemma error_inj (s1 s2 : string) : "error_" +:+ s1 = "error_" +:+ s2 -> s1 = s2.
Proof. cbv [String.append]. by intros [= ->]. Qed.
Lemma resp_not_error (s1 s2 : string) : "resp_" +:+ s1 ≠ "error_" +:+ s2.
Proof. cbv [String.append]. discriminate. Qed.

Lemma derived_ne_original m i : i ∈ derived_ids m -> i ≠ message_id m.
Proof.
  intros Hi Heq. apply (f_equal String.length) in Heq.
  unfold derived_ids in Hi. rewrite !elem_of_cons, elem_of_nil in Hi.
  destruct Hi as [-> | [-> | []]];
    cbv [String.append] in Heq; cbn [String.length] in Heq; lia.
Qed.

Lemma derived_ids_NoDup ms :
  NoDup (message_id <$> ms) -> NoDup (mjoin (derived_ids <$> ms)).
Proof.
  induction ms as [| m ms IH]; [constructor |].
  rewrite fmap_cons, NoDup_cons. intros [Hm Hms]. cbn [fmap list_fmap mjoin list_join].
  apply NoDup_app. split; [| split; [| by apply IH]].
  - unfold derived_ids. apply NoDup_cons. split; [| apply NoDup_singleton].
    rewrite elem_of_cons, elem_of_nil. intros [H | []].
    by apply resp_not_error in H.
  - intros i Hi Hin.
    apply list_elem_of_join in Hin as (ids & Hin & Hids).
    apply list_elem_of_fmap in Hids as (m' & -> & Hm').
    assert (Hne : message_id m ≠ message_id m').
    { intros Heq. apply Hm. rewrite Heq. apply list_elem_of_fmap. by exists m'. }
    unfold derived_ids in Hi, Hin.
    rewrite !elem_of_cons, elem_of_nil in Hi, Hin.
    destruct Hi as [-> | [-> | []]], Hin as [H | [H | []]].
    + by apply resp_inj in H.
    + by apply resp_not_error in H.
    + symmetry in H. by apply resp_not_error in H.
    + by apply error_inj in H.
Qed.

(** C8, as the code has it.  The runtime gives its response to a message
    the id ["resp_" + message_id] and its error message the id
    ["error_" + message_id].  So, over any deliveries of originals with
    pairwise distinct ids, the messages the runtime builds have pairwise
    distinct ids, each derived from and different from the id of one of
    the originals. *)
Theorem runtime_ids_distinct_for_distinct_originals ms w :
  NoDup (message_id <$> ms) ->
  ∃ l, log (handle_all ms w) = log w ++ l
       ∧ NoDup (message_id <$> constructed l)
       ∧ Forall (fun i => ∃ m, m ∈ ms ∧ i ∈ derived_ids m ∧ i ≠ message_id m)
                (message_id <$> constructed l).
Proof.
  intros Hnd. destruct (handle_all_builds ms w) as (l & Hl & Hsub).
  exists l. split; [done |]. split.
  - by eapply sublist_NoDup; [apply derived_ids_NoDup |].
  - apply Forall_forall. intros i Hi.
    assert (Hin : i ∈ mjoin (derived_ids <$> ms)).
    { by apply (sublist_subseteq _ _ Hsub). }
    apply list_elem_of_join in Hin as (ids & Hin & Hids).
    apply list_elem_of_fmap in Hids as (m & -> & Hm).
    exists m. split; [done |]. split; [done |]. by apply derived_ne_original.
Qed.

End Pipeline.

(** *** A concrete agent *)

(** Clock readings, in seconds. *)
Definition clock (n : nat) : Q :=
  match n with
  | 0%nat => 0
  | 1%nat => 1
  | 2%nat => 2
  | 3%nat => 4001 # 2000
  | S (S (S (S k))) => 10 + inject_Z (Z.of_nat k)
  end.

(** A rendering of rationals, for request ids and time stamps. *)
Definition show_q (q : Q) : string :=
  pretty (Qnum q) +:+ "/" +:+ pretty (Zpos (Qden q)).

(** Handlers over a counter of their own calls. *)
Definition unavailable : @Handler nat :=
  fun _ n => (Exc (ExAgent (AgentProcessingError "service unavailable" true)), S n).
Definition malformed : @Handler nat :=
  fun _ n => (Exc (ExAgent (AgentProcessingError "malformed input" false)), S n).
Definition crashing : @Handler nat :=
  fun _ n => (Exc (ExOther "KeyError: company"), S n).
Definition echo : @Handler nat :=
  fun m n => (Ret (Some (("echo", VStr (action m)) :: payload m)), S n).
Definition silent : @Handler nat := fun _ n => (Ret None, S n).
Definition blank : @Handler nat := fun _ n => (Ret (Some []), S n).

Definition agent_a : @Agent nat :=
  set_running true (set_message_bus true
    (register_handler "fetch" unavailable
      (register_handler "parse" malformed
        (register_handler "load" crashing
          (register_handler "ping" echo
            (register_handler "note" silent
              (register_handler "noop" blank (init "A")))))))).

Definition request (mid act : string) : A2AMessage :=
  mk_message mid "conv-1" "task-1" "user" "A" REQUEST act [] [] 0 NORMAL.

Definition w0 : @World nat := world_of agent_a 0%nat.

Abbreviation handle0 := (_handle_message clock show_q show_q).

Ltac fresh_now := unfold fresh_delivery; apply not_elem_of_empty.

Lemma retry_bound_witness :
  invocations (log (handle0 (request "m-1" "fetch") w0).2) = 4%nat
  ∧ env (handle0 (request "m-1" "fetch") w0).2 = 4%nat
  ∧ action <$> published (log (handle0 (request "m-1" "fetch") w0).2) = ["error"].
Proof.
  destruct (retry_bound clock show_q show_q (request "m-1" "fetch") w0 unavailable)
    as (w' & w2 & err & em & Hh & _ & _ & Hinv & _ & _ & _ & _ & _ & _ & Hpub & Hact & _).
  - fresh_now.
  - reflexivity.
  - intros e. eexists _, _. split; reflexivity.
  - cbn. lia.
  - rewrite Hh. cbn [snd]. split; [exact Hinv |].
    split.
    + replace w' with (handle0 (request "m-1" "fetch") w0).2 by (by rewrite Hh).
      vm_compute. reflexivity.
    + rewrite Hpub. cbn. by rewrite Hact.
Defined.

Lemma non_recoverable_not_retried_witness :
  invocations (log (handle0 (request "m-2" "parse") w0).2) = 1%nat
  ∧ invocations (log (handle0 (request "m-3" "load") w0).2) = 1%nat.
Proof.
  split.
  - destruct (non_recoverable_not_retried clock show_q show_q
                (request "m-2" "parse") w0 malformed
                (ExAgent (AgentProcessingError "malformed input" false)) 1%nat)
      as (w' & em & Hh & _ & Hinv & _);
      [fresh_now | reflexivity | reflexivity | reflexivity |].
    rewrite Hh. exact Hinv.
  - destruct (non_recoverable_not_retried clock show_q show_q
                (request "m-3" "load") w0 crashing
                (ExOther "KeyError: company") 1%nat)
      as (w' & em & Hh & _ & Hinv & _);
      [fresh_now | reflexivity | reflexivity | exact I |].
    rewrite Hh. exact Hinv.
Defined.

Lemma response_only_for_truthy_result_witness :
  published (log (handle0 (request "m-4" "note") w0).2) = []
  ∧ published (log (handle0 (request "m-5" "noop") w0).2) = []
  ∧ action <$> published (log (handle0 (request "m-6" "ping") w0).2)
    = ["ping_response"].
Proof.
  split; [| split].
  - destruct (response_only_for_truthy_result clock show_q show_q
                (request "m-4" "note") w0 silent None 1%nat)
      as (w' & Hh & _ & _ & Hnone & _);
      [fresh_now | reflexivity | reflexivity | cbn; lia |].
    rewrite Hh. cbn [snd]. by destruct Hnone as [_ ->]; [left |].
  - destruct (response_only_for_truthy_result clock show_q show_q
                (request "m-5" "noop") w0 blank (Some []) 1%nat)
      as (w' & Hh & _ & _ & Hnone & _);
      [fresh_now | reflexivity | reflexivity | cbn; lia |].
    rewrite Hh. cbn [snd]. by destruct Hnone as [_ ->]; [right |].
  - destruct (response_only_for_truthy_result clock show_q show_q
                (request "m-6" "ping") w0 echo
                (Some [("echo", VStr "ping")]) 1%nat)
      as (w' & Hh & _ & _ & _ & Hsome);
      [fresh_now | reflexivity | reflexivity | cbn; lia |].
    destruct (Hsome _ _ eq_refl) as (rm & _ & Hpub & _ & _ & Hact & _).
    rewrite Hh. cbn [snd]. rewrite Hpub. cbn. by rewrite Hact.
Defined.

(** The agent after a first message that took one second. *)
Definition w1 : @World nat := (handle0 (request "m-4" "note") w0).2.




(** Clock readings for two messages that take 2 ms and 3 ms. *)
Definition clock_ms (n : nat) : Q :=
  match n with
  | 0%nat => 0
  | 1%nat => 2 # 1000
  | 2%nat => 1
  | 3%nat => 1003 # 1000
  | S (S (S (S k))) => 10 + inject_Z (Z.of_nat k)
  end.

(** The average is rounded as a double: 0.0025 computed from the doubles
    0.002 and 0.003 lies above the tie and goes to 0.003, where the exact
    0.0025 would go to the even 0.002. *)
Example stored_average_rounds_the_double :
  let handle_ms := _handle_message clock_ms show_q show_q in
  let w1 := (handle_ms (request "m-4" "note") w0).2 in
  let w2 := (handle_ms (request "m-7" "note") w1).2 in
  average_response_time (performance_stats (self w1)) = round_double (2 # 1000)
  ∧ average_response_time (performance_stats (self w2))
    = round_double (3 # 1000)
  ∧ round_half_even ((5 # 2000) * 1000) = 2.
Proof. vm_compute. repeat split; reflexivity. Qed.

Lemma runtime_ids_distinct_for_distinct_originals_witness :
  NoDup (message_id <$>
           constructed
             (log (handle_all clock show_q show_q
                     [request "m-1" "fetch"; request "m-6" "ping"] w0))).
Proof.
  destruct (runtime_ids_distinct_for_distinct_originals clock show_q show_q
              [request "m-1" "fetch"; request "m-6" "ping"] w0)
    as (l & Hl & Hnd & _).
  - cbn. apply NoDup_cons. split; [| apply NoDup_singleton].
    rewrite elem_of_cons, elem_of_nil. intros [H | []]. discriminate H.
  - rewrite Hl. cbn [w0 world_of log app]. exact Hnd.
Defined.

(** C8 as stated fails.  The same request is delivered to the agent
    twice; each time the runtime builds a response, and both responses
    carry the id "resp_m-6". *)
Lemma response_ids_repeat :
  message_id <$>
    constructed
      (log (handle_all clock show_q show_q
              [request "m-6" "ping"; request "m-6" "ping"] w0))
  = ["resp_m-6"; "resp_m-6"]
  ∧ ¬ NoDup (message_id <$>
               constructed
                 (log (handle_all clock show_q show_q
                         [request "m-6" "ping"; request "m-6" "ping"] w0))).
Proof.
  assert (Hids : message_id <$>
             constructed
               (log (handle_all clock show_q show_q
                       [request "m-6" "ping"; request "m-6" "ping"] w0))
           = ["resp_m-6"; "resp_m-6"]) by (vm_compute; reflexivity).
  split; [exact Hids |]. rewrite Hids. rewrite NoDup_cons.
  intros [Hnot _]. apply Hnot. apply elem_of_cons. by left.
Qed.

End BaseAgentSpec.

(* ===================================================================== *)
(** ** Further properties of the message bus *)
(* ===================================================================== *)

Module MessageBusMore.
Import MessageBus MessageBusSpec.

Section Records.
Context {Handler : Type} `{EqDecision Handler}.
Implicit Types (b : @Bus Handler) (m : A2AMessage) (k : string).

(** A property kept by every segment holds after every run. *)
Lemma run_invariant (P : @Bus Handler -> Prop) :
  (∀ b ev b', P b -> step b ev = Some b' -> P b') ->
  ∀ evs b b', P b -> run b evs = Some b' -> P b'.
Proof.
  intros Hstep. induction evs as [| ev evs IH]; intros b b' HP Hrun; cbn in Hrun.
  - by injection Hrun as <-.
  - destruct (step b ev) as [b1 |] eqn:Hev; [| done].
    eapply IH; [| exact Hrun]. by eapply Hstep.
Qed.

(** The dedup state: processed set, processing set, stamps. *)
Definition dedup b : gset string * gset string * gmap string Q :=
  (_processed_messages b, _processing_messages b, _message_timestamps b).

Definition expired_keys (now : Q) b : gset string :=
  dom (filter (fun kv : string * Q => is_expired (_message_ttl b) now kv.2 = true)
              (_message_timestamps b)).

(** What one segment can do to the dedup state. *)
Inductive dedup_change b b' : Prop :=
| dc_same : dedup b' = dedup b -> dedup_change b b'
| dc_accept m now :
    _generate_message_key m ∉ _processed_messages b ->
    _generate_message_key m ∉ _processing_messages b ->
    dedup b' = dedup (_mark_message_processing m now b) ->
    dedup_change b b'
| dc_rollback m now :
    _generate_message_key m ∉ _processed_messages b ->
    _generate_message_key m ∉ _processing_messages b ->
    dedup b' = (_processed_messages b, _processing_messages b,
                <[_generate_message_key m := now]> (_message_timestamps b)) ->
    dedup_change b b'
| dc_processed m now :
    dedup b' = dedup (_mark_message_processed m now b) -> dedup_change b b'
| dc_cleanup now :
    dedup b' = dedup (_cleanup_old_messages now b) -> dedup_change b b'
| dc_cleared : dedup b' = (∅, ∅, ∅) -> dedup_change b b'.

Lemma step_dedup_change b ev b' :
  step b ev = Some b' -> dedup_change b b' ∧ _message_ttl b' = _message_ttl b.
Proof.
  intros Hstep.
  destruct ev as [a h | a h | m now pr | now | | | now | | | tid | tid e now];
    cbn in Hstep.
  - injection Hstep as <-. split; [by apply dc_same | done].
  - injection Hstep as <-. unfold unsubscribe.
    case_bool_decide; (split; [by apply dc_same | done]).
  - injection Hstep as <-. unfold publish, _is_duplicate_message.
    destruct (bool_decide (_ ∈ _processed_messages _)) eqn:E1;
      [split; [by apply dc_same | done] |].
    destruct (bool_decide (_ ∈ _processing_messages _)) eqn:E2;
      [split; [by apply dc_same | done] |].
    apply bool_decide_eq_false in E1, E2. cbn in E1, E2. cbn.
    unfold _get_queue. cbn. destruct (_queue b), pr; cbn.
    all: split; [| done].
    1,3: apply (dc_rollback _ _ m now); [done | done |];
         unfold dedup; cbn; f_equal; f_equal; set_solver.
    all: by apply (dc_accept _ _ m now).
  - injection Hstep as <-. unfold start, _get_queue.
    destruct (_dispatch_task b); try (split; [by apply dc_same | done]).
    destruct (_queue b); (split; [by apply dc_same | done]).
  - apply stop_Some in Hstep as [-> _]. split; [by apply dc_cleared | done].
  - injection Hstep as <-. split; [by apply dc_same | done].
  - unfold loop_top in Hstep. destruct (_dispatch_task b); try done.
    destruct (negb _); injection Hstep as <-;
      (split; [| done]); [by apply (dc_cleanup _ _ now) | by apply dc_same].
  - unfold loop_get in Hstep. destruct (_dispatch_task b); try done.
    destruct (_queue b) as [[| m rest] |]; try done. cbn in Hstep.
    destruct (_subscribers b !! to_agent m) as [[| h hs] |];
      try case_bool_decide; injection Hstep as <-;
      (split; [by apply dc_same | done]).
  - unfold loop_gathered in Hstep. destruct (_dispatch_task b); try done.
    destruct (forallb _ _); [| done]. injection Hstep as <-.
    split; [by apply dc_same | done].
  - unfold task_enter in Hstep. destruct (tasks b !! tid) as [t |]; try done.
    destruct (t_status t); try done. destruct (lock_held _ _); try done.
    case_bool_decide; injection Hstep as <-;
      (split; [by apply dc_same | done]).
  - unfold task_exit in Hstep. destruct (tasks b !! tid) as [t |]; try done.
    destruct (t_status t); try done. injection Hstep as <-.
    destruct e; (split; [| done]);
      [by apply (dc_processed _ _ (t_message t) now)
      | by apply (dc_processed _ _ (t_message t) now)
      | by apply dc_same].
Qed.

(** Every record has a stamp, and no key is in both sets. *)
Definition records_ok b : Prop :=
  _processed_messages b ∪ _processing_messages b ⊆ dom (_message_timestamps b)
  ∧ _processed_messages b ## _processing_messages b.

Lemma kept_stamp_or_expired (now : Q) b k :
  k ∈ dom (_message_timestamps b) ->
  k ∈ expired_keys now b
  ∨ k ∈ dom (filter (fun kv : string * Q =>
                       is_expired (_message_ttl b) now kv.2 ≠ true)
                    (_message_timestamps b)).
Proof.
  rewrite elem_of_dom. intros [t Ht]. unfold expired_keys.
  destruct (is_expired (_message_ttl b) now t) eqn:E.
  - left. apply elem_of_dom. exists t. by apply map_lookup_filter_Some.
  - right. apply elem_of_dom. exists t. apply map_lookup_filter_Some.
    split; [done |]. cbn. by rewrite E.
Qed.

Lemma step_records_ok b ev b' :
  records_ok b -> step b ev = Some b' -> records_ok b'.
Proof.
  intros [Hsub Hdis] Hstep.
  destruct (step_dedup_change b ev b' Hstep) as [Hch _].
  unfold records_ok.
  destruct Hch as [Heq | m now H1 H2 Heq | m now H1 H2 Heq | m now Heq
                  | now Heq | Heq];
    unfold dedup in Heq; cbn in Heq; injection Heq as -> -> ->.
  - done.
  - rewrite dom_insert_L. set_solver.
  - rewrite dom_insert_L. set_solver.
  - rewrite dom_insert_L. set_solver.
  - fold (expired_keys now b). split; [| set_solver].
    intros k Hk.
    assert (Hin : k ∈ dom (_message_timestamps b)) by set_solver.
    destruct (kept_stamp_or_expired now b k Hin) as [Hexp | Hkeep];
      [set_solver | done].
  - set_solver.
Qed.

(** X1.  In every state the bus can reach, each key recorded as processed
    or processing has a time stamp, so the periodic cleanup can find and
    evict it. *)
Theorem every_record_is_stamped evs b k :
  run init evs = Some b ->
  k ∈ _processed_messages b ∪ _processing_messages b ->
  is_Some (_message_timestamps b !! k).
Proof.
  intros Hrun Hk.
  assert (Hok : records_ok (@init Handler)) by (split; set_solver).
  destruct (run_invariant records_ok step_records_ok evs init b Hok Hrun)
    as [Hsub _].
  apply elem_of_dom. by apply Hsub.
Qed.

(** X2.  In every state the bus can reach, no key is recorded as
    processed and as processing at once. *)
Theorem processed_and_processing_disjoint evs b k :
  run init evs = Some b ->
  k ∈ _processed_messages b -> k ∉ _processing_messages b.
Proof.
  intros Hrun Hk.
  assert (Hok : records_ok (@init Handler)) by (split; set_solver).
  destruct (run_invariant records_ok step_records_ok evs init b Hok Hrun)
    as [_ Hdis].
  set_solver.
Qed.

End Records.

Section Publishing.
Context {Handler : Type} `{EqDecision Handler}.
Implicit Types (b : @Bus Handler) (m : A2AMessage) (k : string).

Lemma is_expired_lt (ttl now stamp : Q) :
  (ttl < now - stamp)%Q -> is_expired ttl now stamp = true.
Proof.
  intros Hlt. unfold is_expired. apply negb_true_iff.
  destruct (Qle_bool (now - stamp) ttl) eqn:E; [| done].
  apply Qle_bool_iff in E. lra.
Qed.

(** A key recorded in neither set is accepted, if [queue.put] succeeds. *)
Lemma publish_unrecorded m now b :
  _generate_message_key m ∉ _processed_messages b ->
  _generate_message_key m ∉ _processing_messages b ->
  ∃ b', publish m now false b = (PubReturn true, b')
        ∧ queued b' = queued b ++ [m]
        ∧ _generate_message_key m ∈ _processing_messages b'
        ∧ _message_timestamps b' !! _generate_message_key m = Some now
        ∧ total_messages (_stats b') = total_messages (_stats b) + 1
        ∧ duplicate_messages (_stats b') = duplicate_messages (_stats b).
Proof.
  intros H1 H2. unfold publish, _is_duplicate_message. cbn.
  rewrite !bool_decide_eq_false_2 by done. cbn.
  unfold _get_queue, queued. cbn.
  destruct (_queue b); cbn; eexists; (split; [done |]); cbn;
    rewrite lookup_insert_eq; (repeat split; try done); set_solver.
Qed.

(** X3.  When the loop reaches a due cleanup and finds the stamp of a key
    older than the TTL, the record is evicted, whether the key was
    processed or still processing, and the next [publish] with that key is
    accepted and queued. *)
Theorem expired_record_is_evicted_and_reusable b last_cleanup now stamp m later :
  _dispatch_task b = Waiting last_cleanup ->
  (_cleanup_interval b < now - last_cleanup)%Q ->
  _message_timestamps b !! _generate_message_key m = Some stamp ->
  (_message_ttl b < now - stamp)%Q ->
  ∃ b1 b2,
    loop_top now b = Some b1
    ∧ (_generate_message_key m ∉ _processed_messages b1)
    ∧ (_generate_message_key m ∉ _processing_messages b1)
    ∧ _message_timestamps b1 !! _generate_message_key m = None
    ∧ publish m later false b1 = (PubReturn true, b2)
    ∧ queued b2 = queued b ++ [m].
Proof.
  intros Hloop Hdue Hstamp Hold.
  set (k := _generate_message_key m) in *.
  assert (Hexp : k ∈ expired_keys now b).
  { apply elem_of_dom. exists stamp. apply map_lookup_filter_Some.
    split; [done |]. cbn. by apply is_expired_lt. }
  assert (Htop : loop_top now b
                 = Some (set_loop (Waiting now) (_cleanup_old_messages now b))).
  { unfold loop_top. rewrite Hloop.
    assert (Hd : negb (Qle_bool (now - last_cleanup) (_cleanup_interval b)) = true).
    { apply negb_true_iff.
      destruct (Qle_bool (now - last_cleanup) (_cleanup_interval b)) eqn:E;
        [| done].
      apply Qle_bool_iff in E. lra. }
    by rewrite Hd. }
  assert (H1 : k ∉ _processed_messages
                  (set_loop (Waiting now) (_cleanup_old_messages now b))).
  { cbn. fold (expired_keys now b). set_solver. }
  assert (H2 : k ∉ _processing_messages
                  (set_loop (Waiting now) (_cleanup_old_messages now b))).
  { cbn. fold (expired_keys now b). set_solver. }
  destruct (publish_unrecorded m later _ H1 H2) as (b2 & Hpub & Hq & _).
  exists (set_loop (Waiting now) (_cleanup_old_messages now b)), b2.
  split; [exact Htop |]. split; [exact H1 |]. split; [exact H2 |].
  split; [| split; [exact Hpub | exact Hq]].
  cbn. apply map_lookup_filter_None. right. intros t Ht.
  rewrite Hstamp in Ht. injection Ht as <-. cbn.
  intros Hne. apply Hne. by apply is_expired_lt.
Qed.

(** X5.  When [queue.put] raises, [publish] raises and takes back the
    "processing" mark: the queue is as before, and the same message
    published again is accepted.  Both attempts count in
    [total_messages], none as a duplicate. *)
Theorem failed_publish_can_be_retried b m now b1 later :
  publish m now true b = (PubRaise, b1) ->
  ∃ b2, publish m later false b1 = (PubReturn true, b2)
        ∧ queued b1 = queued b
        ∧ queued b2 = queued b ++ [m]
        ∧ total_messages (_stats b2) = total_messages (_stats b) + 2
        ∧ duplicate_messages (_stats b2) = duplicate_messages (_stats b).
Proof.
  unfold publish at 1, _is_duplicate_message. cbn.
  destruct (bool_decide (_ ∈ _processed_messages b)) eqn:E1; [done |].
  destruct (bool_decide (_ ∈ _processing_messages b)) eqn:E2; [done |].
  apply bool_decide_eq_false in E1, E2. cbn.
  unfold _get_queue. cbn.
  destruct (_queue b) as [q |] eqn:Hq; cbn; intros [= <-].
  all: match goal with
       | |- ∃ b2, publish _ _ false ?B = _ ∧ _ =>
           destruct (publish_unrecorded m later B)
             as (b2 & Hpub & Hq2 & _ & _ & Ht & Hd);
             [cbn; set_solver | cbn; set_solver |];
             exists b2; split; [exact Hpub |]
       end.
  all: rewrite Hq2, Ht, Hd; unfold queued; cbn; rewrite Hq; cbn.
  all: repeat split; try done; lia.
Qed.

(** X6.  The queue is first in, first out, whatever the priorities: a
    message accepted while another one is at the head goes to the tail,
    and the loop takes the old head next. *)
Theorem queue_is_fifo b last_cleanup head rest m now b1 :
  _dispatch_task b = Waiting last_cleanup ->
  _queue b = Some (head :: rest) ->
  publish m now false b = (PubReturn true, b1) ->
  queued b1 = head :: rest ++ [m]
  ∧ ∃ b2, loop_get b1 = Some b2 ∧ queued b2 = rest ++ [m].
Proof.
  intros Hloop Hq. unfold publish, _is_duplicate_message. cbn.
  destruct (bool_decide _ || bool_decide _); [done |]. cbn.
  unfold _get_queue. cbn. rewrite Hq. cbn. intros [= <-].
  split; [done |]. unfold loop_get. cbn. rewrite Hloop.
  destruct (_subscribers b !! to_agent head) as [[| h hs] |];
    try case_bool_decide; by eexists.
Qed.

End Publishing.

Section Subscribers.
Context {Handler : Type} `{EqDecision Handler}.
Implicit Types (b : @Bus Handler) (a : string) (h : Handler).

(** [self._subscribers.get(agent_id, [])] *)
Definition handlers_of a b : list Handler := default [] (_subscribers b !! a).

Lemma remove_first_absent h (l : list Handler) :
  h ∉ l -> remove_first h (l ++ [h]) = l.
Proof.
  induction l as [| x l IH]; cbn; intros Hn.
  - by rewrite decide_True.
  - apply not_elem_of_cons in Hn as [Hne Hn].
    rewrite decide_False by done. by rewrite IH.
Qed.

Lemma remove_first_perm h (l : list Handler) :
  h ∈ l -> h :: remove_first h l ≡ₚ l.
Proof.
  induction l as [| x l IH]; [by rewrite elem_of_nil |].
  rewrite elem_of_cons. intros Hin. cbn.
  destruct (decide (x = h)) as [-> | Hne]; [done |].
  destruct Hin as [-> | Hin]; [done |].
  rewrite Permutation_swap. by rewrite IH.
Qed.

(** X7.  [unsubscribe] of a handler that is not registered changes
    nothing.  [subscribe] followed by [unsubscribe] of the same handler
    gives every agent the handlers it had, in the same order when the
    handler was new; when it was registered before, its first
    registration is the one removed, so the order can change. *)
Theorem subscribe_unsubscribe_round_trip b a h a' :
  (h ∉ handlers_of a b -> unsubscribe a h b = b)
  ∧ handlers_of a' (unsubscribe a h (subscribe a h b)) ≡ₚ handlers_of a' b
  ∧ (h ∉ handlers_of a b ->
     handlers_of a' (unsubscribe a h (subscribe a h b)) = handlers_of a' b)
  ∧ length (handlers_of a (subscribe a h b)) = S (length (handlers_of a b)).
Proof.
  unfold handlers_of, unsubscribe, subscribe. cbn. split; [| split; [| split]].
  - intros Hn. by rewrite bool_decide_eq_false_2.
  - rewrite lookup_insert_eq. cbn.
    rewrite bool_decide_eq_true_2 by (apply elem_of_app; right; apply elem_of_cons; by left).
    cbn. destruct (decide (a = a')) as [<- | Hne].
    + rewrite lookup_insert_eq. cbn.
      apply (Permutation_cons_inv (a:=h)).
      rewrite remove_first_perm
        by (apply elem_of_app; right; apply elem_of_cons; by left).
      by rewrite Permutation_app_comm.
    + by rewrite !lookup_insert_ne.
  - intros Hn. rewrite lookup_insert_eq. cbn.
    rewrite bool_decide_eq_true_2 by (apply elem_of_app; right; apply elem_of_cons; by left).
    cbn. destruct (decide (a = a')) as [<- | Hne].
    + rewrite lookup_insert_eq. cbn. by apply remove_first_absent.
    + by rewrite !lookup_insert_ne.
  - rewrite lookup_insert_eq. cbn. rewrite length_app. cbn. lia.
Qed.

(** The agent ids with an entry in [_subscribers] only grow. *)
Lemma step_subscribers_grow b ev b' :
  step b ev = Some b' -> dom (_subscribers b) ⊆ dom (_subscribers b').
Proof.
  intros Hstep.
  destruct ev as [a h | a h | m now pr | now | | | now | | | tid | tid e now];
    cbn in Hstep.
  - injection Hstep as <-. cbn. apply dom_insert_subseteq.
  - injection Hstep as <-. unfold unsubscribe.
    case_bool_decide; cbn; [apply dom_insert_subseteq | done].
  - injection Hstep as <-. unfold publish, _get_queue. cbn.
    destruct (_is_duplicate_message _ _); cbn; [done |].
    by destruct (_queue b), pr.
  - injection Hstep as <-. unfold start, _get_queue.
    destruct (_dispatch_task b); try done. by destruct (_queue b).
  - by apply stop_Some in Hstep as [-> _].
  - by injection Hstep as <-.
  - unfold loop_top in Hstep. destruct (_dispatch_task b); try done.
    destruct (negb _); by injection Hstep as <-.
  - unfold loop_get in Hstep. destruct (_dispatch_task b); try done.
    destruct (_queue b) as [[| m rest] |]; try done. cbn in Hstep.
    destruct (_subscribers b !! to_agent m) as [[| h hs] |];
      try case_bool_decide; by injection Hstep as <-.
  - unfold loop_gathered in Hstep. destruct (_dispatch_task b); try done.
    destruct (forallb _ _); [| done]. by injection Hstep as <-.
  - unfold task_enter in Hstep. destruct (tasks b !! tid) as [t |]; try done.
    destruct (t_status t); try done. destruct (lock_held _ _); try done.
    case_bool_decide; by injection Hstep as <-.
  - unfold task_exit in Hstep. destruct (tasks b !! tid) as [t |]; try done.
    destruct (t_status t); try done. injection Hstep as <-. by destruct e.
Qed.

(** X8.  [active_subscribers] of [get_stats()] never goes down: it counts
    the agent ids that have ever subscribed.  An agent whose last handler
    was unsubscribed keeps its (empty) entry and stays counted. *)
Theorem active_subscribers_never_decreases evs b b' :
  run b evs = Some b' ->
  sv_active_subscribers (get_stats b) <= sv_active_subscribers (get_stats b')
  ∧ ∀ a, is_Some (_subscribers b !! a) -> is_Some (_subscribers b' !! a).
Proof.
  intros Hrun.
  assert (Hsub : dom (_subscribers b) ⊆ dom (_subscribers b')).
  { revert Hrun.
    apply (run_invariant (fun x => dom (_subscribers b) ⊆ dom (_subscribers x)));
      [| done].
    intros b1 ev b2 H1 Hstep. etrans; [exact H1 |].
    by eapply step_subscribers_grow. }
  split.
  - cbn. apply inj_le. rewrite <- !size_dom. by apply subseteq_size.
  - intros a Ha. apply elem_of_dom. apply Hsub. by apply elem_of_dom.
Qed.

End Subscribers.

Section Accounting.
Context {Handler : Type} `{EqDecision Handler}.
Implicit Types (b : @Bus Handler) (t : @Task Handler).

Definition is_in_handler t : bool :=
  match t_status t with InHandler => true | _ => false end.

(** The tasks that are inside a handler call. *)
Fixpoint running_tasks (l : list (@Task Handler)) : nat :=
  match l with
  | [] => 0
  | t :: l' => ((if is_in_handler t then 1 else 0) + running_tasks l')%nat
  end.

Lemma running_tasks_app (l1 l2 : list (@Task Handler)) :
  running_tasks (l1 ++ l2) = (running_tasks l1 + running_tasks l2)%nat.
Proof. induction l1 as [| t l1 IH]; cbn; [done |]. rewrite IH. lia. Qed.

Lemma running_tasks_new m (hs : list Handler) :
  running_tasks (new_tasks m hs) = 0%nat.
Proof. induction hs as [| h hs IH]; cbn; [done |]. exact IH. Qed.

Lemma running_tasks_cancel (l : list (@Task Handler)) :
  running_tasks (map cancel_pending l) = running_tasks l.
Proof.
  induction l as [| t l IH]; cbn; [done |]. rewrite IH. f_equal.
  unfold cancel_pending, is_in_handler.
  by destruct (t_status t) eqn:E; cbn; rewrite ?E.
Qed.

Lemma running_tasks_insert (l : list (@Task Handler)) : ∀ i t st,
  l !! i = Some t ->
  (running_tasks (<[i := set_status st t]> l)
   + (if is_in_handler t then 1 else 0)
   = running_tasks l
     + (if is_in_handler (set_status st t) then 1 else 0))%nat.
Proof.
  induction l as [| x l IH]; intros [| i] t st Hl; try done.
  - injection Hl as ->. cbn [insert list_insert running_tasks]. lia.
  - specialize (IH i t st Hl).
    change (<[S i := set_status st t]> (x :: l))
      with (x :: <[i := set_status st t]> l).
    cbn [running_tasks]. lia.
Qed.

(** Counters are not negative, duplicates are among the published, and
    each handler call is counted at most once. *)
Definition stats_ok b : Prop :=
  0 <= duplicate_messages (_stats b) <= total_messages (_stats b)
  ∧ 0 <= processed_messages (_stats b)
  ∧ 0 <= failed_messages (_stats b)
  ∧ processed_messages (_stats b) + failed_messages (_stats b)
    + Z.of_nat (running_tasks (tasks b))
    <= Z.of_nat (length (invoked b)).

Lemma step_stats_ok b ev b' : stats_ok b -> step b ev = Some b' -> stats_ok b'.
Proof.
  unfold stats_ok. intros (Hd & Hp & Hf & Hinv) Hstep.
  destruct ev as [a h | a h | m now pr | now | | | now | | | tid | tid e now];
    cbn in Hstep.
  - by injection Hstep as <-.
  - injection Hstep as <-. unfold unsubscribe. by case_bool_decide.
  - injection Hstep as <-. unfold publish, _get_queue. cbn.
    destruct (_is_duplicate_message _ _); cbn; [lia |].
    destruct (_queue b), pr; cbn; lia.
  - injection Hstep as <-. unfold start, _get_queue.
    destruct (_dispatch_task b); try done. by destruct (_queue b).
  - apply stop_Some in Hstep as [-> _]. cbn. rewrite running_tasks_cancel. lia.
  - injection Hstep as <-. cbn. lia.
  - unfold loop_top in Hstep. destruct (_dispatch_task b); try done.
    destruct (negb _); by injection Hstep as <-.
  - unfold loop_get in Hstep. destruct (_dispatch_task b); try done.
    destruct (_queue b) as [[| m rest] |]; try done. cbn in Hstep.
    destruct (_subscribers b !! to_agent m) as [[| h hs] |];
      try case_bool_decide; injection Hstep as <-; cbn; try done.
    pose proof (running_tasks_app (tasks b) (new_tasks m (h :: hs))) as Ha.
    pose proof (running_tasks_new m (h :: hs)) as Hn.
    unfold new_tasks in *. cbn in Ha, Hn |- *. lia.
  - unfold loop_gathered in Hstep. destruct (_dispatch_task b); try done.
    destruct (forallb _ _); [| done]. by injection Hstep as <-.
  - unfold task_enter in Hstep.
    destruct (tasks b !! tid) as [t |] eqn:Ht; try done.
    destruct (t_status t) eqn:Hs; try done.
    destruct (lock_held _ _); try done.
    case_bool_decide; injection Hstep as <-; cbn;
      [pose proof (running_tasks_insert (tasks b) tid t Skipped Ht) as Hr
      | pose proof (running_tasks_insert (tasks b) tid t InHandler Ht) as Hr];
      unfold is_in_handler in Hr; cbn in Hr; rewrite Hs in Hr;
      rewrite ?length_app; cbn; lia.
  - unfold task_exit in Hstep.
    destruct (tasks b !! tid) as [t |] eqn:Ht; try done.
    destruct (t_status t) eqn:Hs; try done. injection Hstep as <-.
    pose proof (running_tasks_insert (tasks b) tid t (Done e) Ht) as Hr.
    unfold is_in_handler in Hr; cbn in Hr; rewrite Hs in Hr.
    destruct e; cbn; lia.
Qed.

(** X9.  In every state the bus can reach, the counters are not negative,
    [duplicate_messages] is at most [total_messages], and
    [processed_messages + failed_messages] is at most the number of
    handler calls the bus has started: no call is counted twice. *)
Theorem counters_bounded_by_handler_calls evs b :
  run init evs = Some b ->
  0 <= duplicate_messages (_stats b) <= total_messages (_stats b)
  ∧ 0 <= processed_messages (_stats b)
  ∧ 0 <= failed_messages (_stats b)
  ∧ processed_messages (_stats b) + failed_messages (_stats b)
    <= Z.of_nat (length (invoked b)).
Proof.
  intros Hrun.
  assert (Hok : stats_ok (@init Handler)) by (unfold stats_ok; cbn; lia).
  destruct (run_invariant stats_ok step_stats_ok evs init b Hok Hrun)
    as (Hd & Hp & Hf & Hinv).
  repeat split; lia.
Qed.

(** The tasks that wait for the agent lock all belong to the message the
    loop is fanning out. *)
Definition pending_ok b : Prop :=
  match _dispatch_task b with
  | Gathering _ tids =>
      ∃ m, ∀ i t, tasks b !! i = Some t -> t_status t = Pending ->
                  i ∈ tids ∧ t_message t = m
  | _ => ∀ i t, tasks b !! i = Some t -> t_status t ≠ Pending
  end.

Lemma pending_ok_same b b' :
  tasks b' = tasks b -> _dispatch_task b' = _dispatch_task b ->
  pending_ok b -> pending_ok b'.
Proof. unfold pending_ok. by intros -> ->. Qed.

(** A status change of one task leaves no new pending task. *)
Lemma pending_ok_status b b' tid t st :
  tasks b !! tid = Some t -> st ≠ Pending ->
  tasks b' = <[tid := set_status st t]> (tasks b) ->
  _dispatch_task b' = _dispatch_task b ->
  pending_ok b -> pending_ok b'.
Proof.
  unfold pending_ok. intros Ht Hst -> ->.
  assert (Hold : ∀ i t', <[tid := set_status st t]> (tasks b) !! i = Some t' ->
                         t_status t' = Pending -> tasks b !! i = Some t').
  { intros i t' Hi Hs. apply list_lookup_insert_Some in Hi
      as [(-> & <- & _) | [_ Hi]]; [done | done]. }
  destruct (_dispatch_task b).
  - intros Hno i t' Hi Hs. by eapply Hno; [eapply Hold |].
  - intros Hno i t' Hi Hs. by eapply Hno; [eapply Hold |].
  - intros [m Hm]. exists m. intros i t' Hi Hs. by eapply Hm; [eapply Hold |].
Qed.

Lemma new_tasks_lookup m (hs : list Handler) : ∀ j t,
  new_tasks m hs !! j = Some t -> t_message t = m ∧ (j < length hs)%nat.
Proof.
  induction hs as [| h hs IH]; intros [| j] t; cbn; try done.
  - intros [= <-]. cbn. split; [done | lia].
  - intros Hj. destruct (IH j t Hj). split; [done | lia].
Qed.

Lemma step_pending_ok b ev b' :
  pending_ok b -> step b ev = Some b' -> pending_ok b'.
Proof.
  intros Hok Hstep.
  destruct ev as [a h | a h | m now pr | now | | | now | | | tid | tid e now];
    cbn in Hstep.
  - injection Hstep as <-. by apply (pending_ok_same b).
  - injection Hstep as <-. unfold unsubscribe.
    case_bool_decide; [by apply (pending_ok_same b) | done].
  - injection Hstep as <-. apply (pending_ok_same b); [| | done];
      unfold publish, _get_queue; cbn;
      destruct (_is_duplicate_message _ _); cbn; try done;
      by destruct (_queue b), pr.
  - injection Hstep as <-. unfold start, _get_queue, pending_ok in *.
    destruct (_dispatch_task b) eqn:Hl; rewrite ?Hl; try done.
    destruct (_queue b); cbn; exact Hok.
  - apply stop_Some in Hstep as [-> _]. unfold pending_ok. cbn. intros i t Hi.
    apply lookup_cancel_pending in Hi as (t0 & _ & ->).
    unfold cancel_pending. by destruct (t_status t0) eqn:E; cbn; rewrite ?E.
  - injection Hstep as <-. by apply (pending_ok_same b).
  - unfold loop_top in Hstep. unfold pending_ok in *.
    destruct (_dispatch_task b) eqn:Hl; try done.
    destruct (negb _); injection Hstep as <-; cbn; rewrite ?Hl; exact Hok.
  - unfold loop_get in Hstep. unfold pending_ok in *.
    destruct (_dispatch_task b) eqn:Hl; try done.
    destruct (_queue b) as [[| m rest] |]; try done. cbn in Hstep.
    destruct (_subscribers b !! to_agent m) as [[| h hs] |];
      try case_bool_decide; injection Hstep as <-; cbn; rewrite ?Hl;
      try exact Hok.
    exists m. intros i t Hi Hs.
    apply lookup_app_Some in Hi as [Hi | [Hge Hi]]; [by destruct (Hok i t) |].
    apply (new_tasks_lookup m (h :: hs)) in Hi as [Hm Hlt]. split; [| done].
    change (i ∈ seq (length (tasks b)) (length (h :: hs))).
    apply elem_of_seq. lia.
  - unfold loop_gathered in Hstep. unfold pending_ok in *.
    destruct (_dispatch_task b) as [| | lc tids] eqn:Hl; try done.
    destruct (forallb _ _) eqn:Hall; [| done]. injection Hstep as <-. cbn.
    destruct Hok as [m Hm]. intros i t Hi Hs.
    destruct (Hm i t Hi Hs) as [Hin _].
    rewrite forallb_forall in Hall. apply list_elem_of_In in Hin.
    specialize (Hall i Hin). unfold task_finished in Hall.
    by rewrite Hi, Hs in Hall.
  - unfold task_enter in Hstep.
    destruct (tasks b !! tid) as [t |] eqn:Ht; try done.
    destruct (t_status t) eqn:Hs; try done.
    destruct (lock_held _ _); try done.
    case_bool_decide; injection Hstep as <-.
    + by apply (pending_ok_status b _ tid t Skipped).
    + by apply (pending_ok_status b _ tid t InHandler).
  - unfold task_exit in Hstep.
    destruct (tasks b !! tid) as [t |] eqn:Ht; try done.
    destruct (t_status t) eqn:Hs; try done. injection Hstep as <-.
    apply (pending_ok_status b _ tid t (Done e)); try done; by destruct e.
Qed.

(** X10.  The bus fans out one message at a time: in every state it can
    reach, a task that has not yet entered its handler belongs to the
    gather the loop is waiting on, and all such tasks carry the same
    message.  While one exists the loop takes no further message. *)
Theorem one_fan_out_at_a_time evs b i t :
  run init evs = Some b ->
  tasks b !! i = Some t -> t_status t = Pending ->
  (∃ last_cleanup tids, _dispatch_task b = Gathering last_cleanup tids ∧ i ∈ tids)
  ∧ (∀ j t', tasks b !! j = Some t' -> t_status t' = Pending ->
             t_message t' = t_message t)
  ∧ loop_get b = None.
Proof.
  intros Hrun Hi Hs.
  assert (Hok : pending_ok (@init Handler)).
  { unfold pending_ok. cbn. intros j t' Hj. by rewrite lookup_nil in Hj. }
  pose proof (run_invariant pending_ok step_pending_ok evs init b Hok Hrun) as Hb.
  unfold pending_ok in Hb. unfold loop_get.
  destruct (_dispatch_task b) as [| lc | lc tids];
    [by destruct (Hb i t Hi) | by destruct (Hb i t Hi) |].
  destruct Hb as [m Hm]. destruct (Hm i t Hi Hs) as [Hin Hmsg].
  split; [by exists lc, tids |]. split; [| done].
  intros j t' Hj Hs'. destruct (Hm j t' Hj Hs') as [_ ->]. done.
Qed.

End Accounting.

Section Stopping.
Context {Handler : Type} `{EqDecision Handler}.
Implicit Types (b : @Bus Handler) (t : @Task Handler) (a : string).

(** A lock is held only by a task inside its handler. *)
Definition locks_ok b : Prop :=
  ∀ a, lock_held a b = true -> ∃ tid, in_handler_for b a tid.

Lemma locks_ok_same b b' :
  tasks b' = tasks b -> _processing_locks b' = _processing_locks b ->
  locks_ok b -> locks_ok b'.
Proof.
  unfold locks_ok, in_handler_for, lock_held. by intros -> ->.
Qed.

Lemma none_in_flight (l : list (@Task Handler)) i t :
  existsb in_flight l = false -> l !! i = Some t -> t_status t ≠ InHandler.
Proof.
  revert i. induction l as [| x l IH]; intros [| i]; cbn; try done.
  - intros Hx [= <-] Hs. unfold in_flight in Hx. by rewrite Hs in Hx.
  - intros Hx. apply orb_false_iff in Hx as [_ Hx]. by apply IH.
Qed.

(** A task that changes its status, while the lock of its agent is set:
    the other agents' locks keep their holders. *)
Lemma locks_ok_status b b' tid t st v :
  tasks b !! tid = Some t ->
  tasks b' = <[tid := set_status st t]> (tasks b) ->
  _processing_locks b'
  = <[to_agent (t_message t) := v]> (_processing_locks b) ->
  (v = true -> st = InHandler) ->
  locks_ok b -> locks_ok b'.
Proof.
  intros Ht Htasks Hlocks Hv Hok a Ha.
  unfold lock_held in Ha. rewrite Hlocks in Ha.
  destruct (decide (to_agent (t_message t) = a)) as [<- | Hne].
  - rewrite lookup_insert_eq in Ha. cbn in Ha.
    exists tid, (set_status st t). rewrite Htasks.
    split; [| by rewrite (Hv Ha)].
    apply list_lookup_insert_eq. by eapply lookup_lt_Some.
  - rewrite lookup_insert_ne in Ha by done.
    destruct (Hok a Ha) as (i & t' & Hi & Hs & Hto).
    exists i, t'. split; [| done]. rewrite Htasks.
    rewrite list_lookup_insert_ne; [done |].
    intros <-. rewrite Ht in Hi. injection Hi as <-. done.
Qed.

Lemma step_locks_ok b ev b' :
  locks_ok b -> step b ev = Some b' -> locks_ok b'.
Proof.
  intros Hok Hstep.
  destruct ev as [a h | a h | m now pr | now | | | now | | | tid | tid e now];
    cbn in Hstep.
  - injection Hstep as <-. by apply (locks_ok_same b).
  - injection Hstep as <-. unfold unsubscribe.
    case_bool_decide; [by apply (locks_ok_same b) | done].
  - injection Hstep as <-. apply (locks_ok_same b); [| | done];
      unfold publish, _get_queue; cbn;
      destruct (_is_duplicate_message _ _); cbn; try done;
      by destruct (_queue b), pr.
  - injection Hstep as <-. unfold start, _get_queue.
    destruct (_dispatch_task b); try done.
    by destruct (_queue b); apply (locks_ok_same b).
  - apply stop_Some in Hstep as [-> Hnone]. intros a Ha.
    destruct (Hok a Ha) as (i & t & Hi & Hs & _).
    by destruct (none_in_flight _ i t Hnone Hi).
  - injection Hstep as <-. by apply (locks_ok_same b).
  - unfold loop_top in Hstep. destruct (_dispatch_task b); try done.
    destruct (negb _); injection Hstep as <-;
      [by apply (locks_ok_same b) | done].
  - unfold loop_get in Hstep. destruct (_dispatch_task b); try done.
    destruct (_queue b) as [[| m rest] |]; try done. cbn in Hstep.
    destruct (_subscribers b !! to_agent m) as [[| h hs] |];
      try case_bool_decide; injection Hstep as <-;
      try (by apply (locks_ok_same b)).
    intros a Ha. destruct (Hok a Ha) as (i & t & Hi & Hs).
    exists i, t. split; [| done]. cbn. by apply lookup_app_l_Some.
  - unfold loop_gathered in Hstep. destruct (_dispatch_task b); try done.
    destruct (forallb _ _); [| done]. injection Hstep as <-.
    by apply (locks_ok_same b).
  - unfold task_enter in Hstep.
    destruct (tasks b !! tid) as [t |] eqn:Ht; try done.
    destruct (t_status t) eqn:Hs; try done.
    destruct (lock_held _ _); try done.
    case_bool_decide; injection Hstep as <-.
    + by apply (locks_ok_status b _ tid t Skipped false).
    + by apply (locks_ok_status b _ tid t InHandler true).
  - unfold task_exit in Hstep.
    destruct (tasks b !! tid) as [t |] eqn:Ht; try done.
    destruct (t_status t) eqn:Hs; try done. injection Hstep as <-.
    apply (locks_ok_status b _ tid t (Done e) false); try done;
      by destruct e.
Qed.

(** X4.  [stop()] returns only when no handler is running any more.  In
    the state it leaves, no task is waiting for or inside a handler, every
    agent lock is free, and every dedup record and queued message is
    forgotten, while the counters and the subscribers are as [stop] found
    them: whatever was recorded before, the next [publish] is accepted and
    is alone on the new queue. *)
Theorem stop_resets_dedup_and_queue evs b b1 m now :
  run init evs = Some b ->
  stop b = Some b1 ->
  (∀ i t, tasks b1 !! i = Some t ->
          t_status t ≠ Pending ∧ t_status t ≠ InHandler)
  ∧ (∀ a, lock_held a b1 = false)
  ∧ _dispatch_task b1 = NotRunning
  ∧ queued b1 = []
  ∧ _processed_messages b1 = ∅
  ∧ _processing_messages b1 = ∅
  ∧ _message_timestamps b1 = ∅
  ∧ _stats b1 = _stats b
  ∧ _subscribers b1 = _subscribers b
  ∧ ∃ b', publish m now false b1 = (PubReturn true, b')
          ∧ queued b' = [m]
          ∧ _processing_messages b' = {[_generate_message_key m]}
          ∧ _processed_messages b' = ∅.
Proof.
  intros Hrun Hstop.
  assert (Hinit : locks_ok (@init Handler)).
  { intros a Ha. unfold lock_held in Ha. cbn in Ha.
    by rewrite lookup_empty in Ha. }
  pose proof (run_invariant locks_ok step_locks_ok evs init b Hinit Hrun) as Hb.
  pose proof (step_locks_ok b Stop b1 Hb Hstop) as Hb1.
  apply stop_Some in Hstop as [-> Hnone].
  assert (Htasks : ∀ i t, tasks (stopped b) !! i = Some t ->
                          t_status t ≠ Pending ∧ t_status t ≠ InHandler).
  { intros i t Hi. cbn in Hi.
    apply lookup_cancel_pending in Hi as (t0 & Hi & ->).
    pose proof (none_in_flight _ i t0 Hnone Hi) as Hs.
    unfold cancel_pending.
    destruct (t_status t0) eqn:E; cbn; rewrite ?E; split; congruence. }
  split; [exact Htasks |]. split.
  { intros a. destruct (lock_held a (stopped b)) eqn:Ha; [| done].
    destruct (Hb1 a Ha) as (i & t & Hi & Hs & _).
    by destruct (Htasks i t Hi). }
  do 7 (split; [done |]).
  unfold publish, _is_duplicate_message. cbn.
  rewrite !bool_decide_eq_false_2 by set_solver. cbn.
  eexists. split; [done |]. cbn. repeat split; try done. set_solver.
Qed.

End Stopping.

(** ** Concrete runs *)

(** Two subscribers of "A"; the request is fanned out and the first task
    is inside its handler. *)
Definition in_first_handler_events : list (@Event nat) :=
  [Subscribe "A" 1%nat; Subscribe "A" 2%nat; Start 0;
   Publish ping 1 false; LoopGet; TaskEnter 0%nat].

Lemma every_record_is_stamped_witness :
  is_Some (_message_timestamps bus_in_first_handler !! "conv-1:ping:m-1").
Proof.
  apply (every_record_is_stamped in_first_handler_events
           bus_in_first_handler "conv-1:ping:m-1");
    vm_compute; reflexivity.
Defined.

(** The first handler has returned. *)
Definition first_returned_events : list (@Event nat) :=
  in_first_handler_events ++ [TaskExit 0%nat Returned 2].
Definition bus_first_returned : @Bus nat :=
  default init (run init first_returned_events).

Lemma processed_and_processing_disjoint_witness :
  "conv-1:ping:m-1" ∈ _processed_messages bus_first_returned
  ∧ "conv-1:ping:m-1" ∉ _processing_messages bus_first_returned.
Proof.
  assert (Hin : "conv-1:ping:m-1" ∈ _processed_messages bus_first_returned)
    by (vm_compute; reflexivity).
  split; [exact Hin |].
  apply (processed_and_processing_disjoint first_returned_events
           bus_first_returned "conv-1:ping:m-1");
    [vm_compute; reflexivity | exact Hin].
Defined.

(** The request was handled at time 2; the loop is idle again. *)
Definition bus_ping_handled : @Bus nat :=
  default init (run (publish ping 1 false bus_before_ping).2
                  [LoopGet; TaskEnter 0%nat; TaskExit 0%nat Returned 2;
                   LoopGathered]).

Lemma expired_record_is_evicted_and_reusable_witness :
  ∃ b1 b2,
    loop_top 400 bus_ping_handled = Some b1
    ∧ ("conv-1:ping:m-1" ∉ _processed_messages b1)
    ∧ ("conv-1:ping:m-1" ∉ _processing_messages b1)
    ∧ _message_timestamps b1 !! "conv-1:ping:m-1" = None
    ∧ publish ping_again 401 false b1 = (PubReturn true, b2)
    ∧ queued b2 = queued bus_ping_handled ++ [ping_again].
Proof.
  apply (expired_record_is_evicted_and_reusable bus_ping_handled 0 400 2
           ping_again 401); vm_compute; reflexivity.
Defined.

Lemma failed_publish_can_be_retried_witness :
  ∃ b2,
    publish ping 2 false (publish ping 1 true bus_before_ping).2
    = (PubReturn true, b2)
    ∧ queued (publish ping 1 true bus_before_ping).2 = queued bus_before_ping
    ∧ queued b2 = queued bus_before_ping ++ [ping]
    ∧ total_messages (_stats b2) = total_messages (_stats bus_before_ping) + 2
    ∧ duplicate_messages (_stats b2) = duplicate_messages (_stats bus_before_ping).
Proof.
  apply (failed_publish_can_be_retried bus_before_ping ping 1
           (publish ping 1 true bus_before_ping).2 2);
    vm_compute; reflexivity.
Defined.

Lemma queue_is_fifo_witness :
  queued (publish ping 2 false bus_with_lost).2 = lost :: [] ++ [ping]
  ∧ ∃ b2, loop_get (publish ping 2 false bus_with_lost).2 = Some b2
          ∧ queued b2 = [] ++ [ping].
Proof.
  apply (queue_is_fifo bus_with_lost 0 lost [] ping 2
           (publish ping 2 false bus_with_lost).2);
    vm_compute; reflexivity.
Defined.

(** Both subscribers of "A" leave, one of "B" arrives, the bus stops. *)
Definition leaving_events : list (@Event nat) :=
  [Subscribe "B" 3%nat; Unsubscribe "A" 1%nat; Unsubscribe "A" 2%nat; Stop].
Definition bus_all_left : @Bus nat :=
  default init (run two_subscribers leaving_events).

Lemma active_subscribers_never_decreases_witness :
  sv_active_subscribers (get_stats two_subscribers)
  <= sv_active_subscribers (get_stats bus_all_left)
  ∧ ∀ a, is_Some (_subscribers two_subscribers !! a) ->
         is_Some (_subscribers bus_all_left !! a).
Proof.
  apply (active_subscribers_never_decreases leaving_events
           two_subscribers bus_all_left); vm_compute; reflexivity.
Defined.

(** The request is fanned out to two tasks; none has run. *)
Definition bus_fanned_out : @Bus nat :=
  default init (run two_subscribers fanned_out).

Lemma one_fan_out_at_a_time_witness :
  (∃ last_cleanup tids,
      _dispatch_task bus_fanned_out = Gathering last_cleanup tids ∧ 1%nat ∈ tids)
  ∧ (∀ j t', tasks bus_fanned_out !! j = Some t' -> t_status t' = Pending ->
             t_message t' = ping)
  ∧ loop_get bus_fanned_out = None.
Proof.
  apply (one_fan_out_at_a_time
           ([Subscribe "A" 1%nat; Subscribe "A" 2%nat; Start 0] ++ fanned_out)
           bus_fanned_out 1%nat
           {| t_message := ping; t_handler := 2%nat; t_status := Pending |});
    vm_compute; reflexivity.
Defined.

(** While the first handler is running, [stop] does not return; it does
    once the handler has ended with the cancellation. *)
Example stop_waits_for_handler : stop bus_in_first_handler = None.
Proof. vm_compute. reflexivity. Qed.

Definition handler_cancelled_events : list (@Event nat) :=
  in_first_handler_events ++ [TaskExit 0%nat WasCancelled 2].
Definition bus_handler_cancelled : @Bus nat :=
  default init (run init handler_cancelled_events).
Definition bus_stopped : @Bus nat := stopped bus_handler_cancelled.

Lemma stop_resets_dedup_and_queue_witness :
  (∀ a, lock_held a bus_stopped = false)
  ∧ queued bus_stopped = []
  ∧ _processed_messages bus_stopped = ∅
  ∧ _stats bus_stopped = _stats bus_handler_cancelled
  ∧ ∃ b', publish ping 3 false bus_stopped = (PubReturn true, b')
          ∧ queued b' = [ping].
Proof.
  destruct (stop_resets_dedup_and_queue handler_cancelled_events
              bus_handler_cancelled bus_stopped ping 3)
    as (_ & Hlocks & _ & Hq & Hp & _ & _ & Hstats & _ & b' & Hpub & Hq' & _);
    [vm_compute; reflexivity | vm_compute; reflexivity |].
  split; [exact Hlocks |]. split; [exact Hq |]. split; [exact Hp |].
  split; [exact Hstats |]. by exists b'.
Defined.

Lemma counters_bounded_by_handler_calls_witness :
  0 <= duplicate_messages (_stats bus_first_returned)
    <= total_messages (_stats bus_first_returned)
  ∧ 0 <= processed_messages (_stats bus_first_returned)
  ∧ 0 <= failed_messages (_stats bus_first_returned)
  ∧ processed_messages (_stats bus_first_returned)
    + failed_messages (_stats bus_first_returned)
    <= Z.of_nat (length (invoked bus_first_returned)).
Proof.
  apply (counters_bounded_by_handler_calls first_returned_events
           bus_first_returned); vm_compute; reflexivity.
Defined.

End MessageBusMore.

(* ===================================================================== *)
(** ** Further properties of the agent runtime *)

Module BaseAgentMore.
Import BaseAgent BaseAgentSpec.

Section RetryLoop.
Context {Env : Type}.
Implicit Types (handler : @Callable Env) (w : @World Env) (m : A2AMessage).

(** The pauses before retries [retry_count + 1 .. retry_count + k]. *)
Definition pauses (delay : Q) (retry_count : Z) (k : nat) : list Q :=
  map (fun i => (delay * inject_Z (retry_count + Z.of_nat i))%Q) (seq 1 k).

Lemma pauses_S (delay : Q) (retry_count : Z) (k : nat) :
  pauses delay retry_count (S k)
  = (delay * inject_Z (retry_count + 1))%Q :: pauses delay (retry_count + 1) k.
Proof.
  unfold pauses. cbn [seq map]. f_equal.
  rewrite <- seq_shift, map_map. apply map_ext. intros i.
  do 2 f_equal. lia.
Qed.

Lemma slept_retry_trace_pauses m (delay : Q) : ∀ k retry_count,
  slept (retry_trace m delay retry_count k) = pauses delay retry_count k.
Proof.
  induction k as [| k IH]; intros rc; [done |].
  rewrite pauses_S, <- IH. reflexivity.
Qed.

(** What one run of the retry loop does, whatever the handler: [k + 1]
    calls with [k] pauses, for a [k] within the retries that are left; the
    agent itself and the clock are not touched. *)
Lemma retry_shape handler m : ∀ n retry_count w,
  Z.to_nat (max_retries (self w) - retry_count) = n ->
  ∃ (k : nat) e',
    (k <= n)%nat
    ∧ (_execute_with_retry handler m retry_count w).2
      = {| self := self w; env := e'; ticks := ticks w;
           log := log w ++ retry_trace m (retry_delay (self w)) retry_count k |}
    ∧ (∀ err, (_execute_with_retry handler m retry_count w).1
              = Exc (ExAgent err) ->
              recoverable err = true -> retry_count <= max_retries (self w) ->
              k = n).
Proof.
  induction n as [| n IH]; intros rc w Hn; rewrite _execute_with_retry_eq;
    destruct (handler (self w) m (env w)) as [[r | [e | d]] e'];
    try (exists 0%nat, e'; split; [lia |]; split; [done |]; by intros err [=]).
  - rewrite bool_decide_eq_false_2 by lia. rewrite andb_false_r.
    exists 0%nat, e'. by split; [lia |].
  - destruct (recoverable e) eqn:Hrec; cbn [andb].
    + case_bool_decide as Hlt.
      * destruct (IH (rc + 1)
                    (emit (Slept (retry_delay (self w) * inject_Z (rc + 1)))
                       (after_call m e' w))) as (k & e'' & Hk & Hw & Hall);
          [cbn; lia |].
        exists (S k), e''. split; [lia |]. split.
        -- rewrite Hw. cbn. by rewrite <- !app_assoc.
        -- intros err Herr Hr _. f_equal. apply (Hall err Herr Hr). cbn. lia.
      * exists 0%nat, e'. split; [lia |]. split; [done |].
        intros err _ _ Hle. lia.
    + exists 0%nat, e'. split; [lia |]. split; [done |].
      intros err [= <-] Hr. congruence.
Qed.

(** X11.  Whatever the handler does, one run of the retry loop calls it
    at least once and at most once more than the retries that are left,
    and sleeps exactly once between two calls.  The pause before retry
    [i] is [retry_delay * i]: the delay grows linearly.  When the loop
    ends with a recoverable error, every retry has been used. *)
Theorem retry_calls_and_pauses handler m retry_count w :
  ∃ k : nat,
    (k <= Z.to_nat (max_retries (self w) - retry_count))%nat
    ∧ invocations (log (_execute_with_retry handler m retry_count w).2)
      = (invocations (log w) + S k)%nat
    ∧ slept (log (_execute_with_retry handler m retry_count w).2)
      = slept (log w) ++ pauses (retry_delay (self w)) retry_count k
    ∧ (∀ err, (_execute_with_retry handler m retry_count w).1
              = Exc (ExAgent err) ->
              recoverable err = true -> retry_count <= max_retries (self w) ->
              k = Z.to_nat (max_retries (self w) - retry_count)).
Proof.
  destruct (retry_shape handler m _ retry_count w eq_refl)
    as (k & e' & Hk & Hw & Hall).
  exists k. rewrite Hw. cbn [log].
  rewrite invocations_app, slept_app, invocations_retry_trace,
    slept_retry_trace_pauses.
  done.
Qed.

(** The handler fails [j] times with a recoverable error, each call
    starting from the state the previous one left, and then returns. *)
Fixpoint fails_then_returns (h : @Handler Env) m (e : Env) (j : nat)
    (r : option PyDict) (e' : Env) : Prop :=
  match j with
  | O => h m e = (Ret r, e')
  | S j' => ∃ err e1, h m e = (Exc (ExAgent err), e1)
                      ∧ recoverable err = true
                      ∧ fails_then_returns h m e1 j' r e'
  end.

Lemma fails_then_returns_ext (h1 h2 : @Handler Env) m :
  (∀ e, h1 m e = h2 m e) ->
  ∀ j e r e', fails_then_returns h1 m e j r e' -> fails_then_returns h2 m e j r e'.
Proof.
  intros Hext. induction j as [| j IH]; intros e r e'; cbn.
  - by rewrite Hext.
  - intros (err & e1 & Hcall & Hrec & Hrest). exists err, e1.
    rewrite <- Hext. by split; [| split; [| apply IH]].
Qed.

Lemma retry_recovers handler m : ∀ j retry_count w r e',
  retry_count + Z.of_nat j <= max_retries (self w) ->
  fails_then_returns (handler (self w)) m (env w) j r e' ->
  _execute_with_retry handler m retry_count w
  = (Ret r, {| self := self w; env := e'; ticks := ticks w;
               log := log w ++ retry_trace m (retry_delay (self w)) retry_count j |}).
Proof.
  induction j as [| j IH]; intros rc w r e' Hle Hh; cbn in Hh;
    rewrite _execute_with_retry_eq.
  - by rewrite Hh.
  - destruct Hh as (err & e1 & -> & -> & Hrest). cbn [andb].
    rewrite bool_decide_eq_true_2 by lia.
    rewrite (IH (rc + 1) _ r e'); [| cbn; lia | exact Hrest].
    cbn. by rewrite <- !app_assoc.
Qed.

End RetryLoop.

Section Deliveries.
Context {Env : Type}.
Variable wall_clock : nat -> Q.
Variable float_str : Q -> string.
Variable isoformat : Q -> string.
Implicit Types (w : @World Env) (m : A2AMessage) (h : @Handler Env).

Abbreviation handle := (_handle_message wall_clock float_str isoformat).
Abbreviation fresh := (fresh_delivery wall_clock float_str).
Abbreviation request_id m w := (request_id_of float_str m (wall_clock (ticks w))).

(** The state in which the retry loop of a fresh delivery ends after [k]
    retries. *)
Definition retried m w (k : nat) (e' : Env) : @World Env :=
  {| self := self (entered wall_clock float_str m w); env := e';
     ticks := S (ticks w);
     log := log w ++ retry_trace m (retry_delay (self w)) 0 k |}.

(** The three ways a fresh delivery ends: the result is counted and the
    average updated; the average cannot be computed; the retry loop
    failed. *)
Lemma handle_paths m w :
  fresh m w ->
  ∃ (k : nat) e',
    (k <= Z.to_nat (max_retries (self w)))%nat
    ∧ ((∃ result V,
           messages_processed (performance_stats (self w)) + 1 ≠ 0
           ∧ handle m w
             = (Ret tt,
                leave wall_clock float_str m w
                  (with_self
                     (fun a => set_performance_stats
                                 (set_average V (performance_stats a)) a)
                     (answered wall_clock m result (retried m w k e')))))
       ∨ (∃ result,
             messages_processed (performance_stats (self w)) + 1 = 0
             ∧ handle m w
               = (Ret tt,
                  leave wall_clock float_str m w
                    (after_error wall_clock isoformat m
                       (as_agent_error (ExOther "float division by zero"))
                       (answered wall_clock m result (retried m w k e')))))
       ∨ (∃ x,
             handle m w
             = (Ret tt,
                leave wall_clock float_str m w
                  (after_error wall_clock isoformat m (as_agent_error x)
                     (retried m w k e'))))).
Proof.
  intros Hfresh.
  destruct (retry_shape _process_message m _ 0
              (entered wall_clock float_str m w) eq_refl)
    as (k & e' & Hk & Hw & _).
  exists k, e'. split.
  { cbn [entered with_self self max_retries set_performance_stats
         set_processing_requests] in Hk. by rewrite Z.sub_0_r in Hk. }
  change (_ = _) with
    ((_execute_with_retry _process_message m 0
        (entered wall_clock float_str m w)).2 = retried m w k e') in Hw.
  destruct (_execute_with_retry _process_message m 0
              (entered wall_clock float_str m w)) as [[result | x] w2] eqn:Hrun;
    cbn [snd] in Hw; subst w2.
  - rewrite (handle_returned wall_clock float_str isoformat m w result _ Hfresh Hrun).
    assert (Hn : messages_processed
                   (performance_stats
                      (self (answered wall_clock m result (retried m w k e'))))
                 = messages_processed (performance_stats (self w)) + 1).
    { unfold answered. by destruct (truthy result). }
    unfold _update_average_response_time. rewrite Hn.
    destruct (_ =? 1)%Z eqn:E1.
    { left. eexists result, _. split; [lia | reflexivity]. }
    destruct (_ =? 0)%Z eqn:E0.
    { right. left. exists result. split; [lia | reflexivity]. }
    left. eexists result, _. split; [lia | reflexivity].
  - right. right. exists x.
    by rewrite (handle_failed wall_clock float_str isoformat m w x _ Hfresh Hrun).
Qed.


(** X12.  Transient failures that a retry overcomes leave no trace in the
    agent's statistics.  When the registered handler fails [j] times with
    a recoverable error and then returns, with [j] at most [max_retries],
    the delivery counts as processed and not as failed, [error_stats] is
    what it was, the handler has run [j + 1] times with the pauses
    [retry_delay * 1 .. retry_delay * j] in between, and the only message
    the runtime builds is the response to a truthy result. *)
Theorem transient_failures_leave_no_trace m w h (j : nat) r e' :
  fresh m w ->
  registered m w h ->
  fails_then_returns h m (env w) j r e' ->
  Z.of_nat j <= max_retries (self w) ->
  0 <= messages_processed (performance_stats (self w)) ->
  ∃ w',
    handle m w = (Ret tt, w')
    ∧ env w' = e'
    ∧ invocations (log w') = (invocations (log w) + S j)%nat
    ∧ slept (log w') = slept (log w) ++ pauses (retry_delay (self w)) 0 j
    ∧ messages_processed (performance_stats (self w'))
      = messages_processed (performance_stats (self w)) + 1
    ∧ messages_failed (performance_stats (self w'))
      = messages_failed (performance_stats (self w))
    ∧ error_stats (self w') = error_stats (self w)
    ∧ action <$> constructed (log w')
      = (action <$> constructed (log w))
        ++ match truthy r with
           | Some _ => [action m +:+ "_response"]
           | None => []
           end.
Proof.
  intros Hfresh Hh Hfail Hj Hcount.
  assert (Hrun : _execute_with_retry _process_message m 0
                   (entered wall_clock float_str m w)
                 = (Ret r, retried m w j e')).
  { apply (retry_recovers _process_message m j 0
             (entered wall_clock float_str m w) r e'); [cbn; lia |].
    apply (fails_then_returns_ext h); [| exact Hfail].
    intros e. symmetry. by apply (process_message_registered m w h). }
  rewrite (handle_returned wall_clock float_str isoformat m w r _ Hfresh Hrun).
  assert (Hn : messages_processed
                 (performance_stats
                    (self (answered wall_clock m r (retried m w j e'))))
               = messages_processed (performance_stats (self w)) + 1).
  { unfold answered. by destruct (truthy r). }
  rewrite update_average_eq by lia.
  eexists. split; [reflexivity |].
  unfold answered.
  destruct (truthy r) as [d |];
    cbn -[invocations slept constructed published sending];
    rewrite ?invocations_app, ?slept_app, ?constructed_app, ?fmap_app,
      invocations_retry_trace, slept_retry_trace_pauses;
    destruct (constructed_retry_trace m (retry_delay (self w)) j 0) as [-> _].
  - match goal with
    | |- context [invocations (sending ?x ?b)] =>
        destruct (sending_log x b) as (-> & -> & -> & _)
    end.
    cbn. rewrite !app_nil_r. repeat split; try done; lia.
  - cbn. rewrite !app_nil_r. repeat split; try done; lia.
Qed.


(** X13.  A message whose action has no registered handler is not an
    error for the runtime: no registered handler runs, the delivery counts
    as processed and not as failed, [error_stats] is what it was, and the
    sender is answered with a message of action [<action>_response] (not
    "error") and of the original's message type, whose payload has type
    "error", names the unknown action and lists the registered actions. *)
Theorem unknown_action_is_answered_as_processed m w :
  fresh m w ->
  dict_get (action m) (message_handlers (self w)) = None ->
  0 <= messages_processed (performance_stats (self w)) ->
  ∃ w' rm,
    handle m w = (Ret tt, w')
    ∧ env w' = env w
    ∧ slept (log w') = slept (log w)
    ∧ messages_processed (performance_stats (self w'))
      = messages_processed (performance_stats (self w)) + 1
    ∧ messages_failed (performance_stats (self w'))
      = messages_failed (performance_stats (self w))
    ∧ error_stats (self w') = error_stats (self w)
    ∧ constructed (log w') = constructed (log w) ++ [rm]
    ∧ published (log w')
      = published (log w)
        ++ (if message_bus (self w) && running (self w) then [rm] else [])
    ∧ to_agent rm = from_agent m
    ∧ message_type rm = message_type m
    ∧ action rm = action m +:+ "_response"
    ∧ dict_get "type" (payload rm) = Some (VStr "error")
    ∧ dict_get "error" (payload rm)
      = Some (VStr ("Unknown action: " +:+ action m))
    ∧ dict_get "supported_actions" (payload rm)
      = Some (VList (map (fun kv => VStr kv.1) (message_handlers (self w)))).
Proof.
  intros Hfresh Hnone Hcount.
  set (result := Some [("type", VStr "error");
                       ("conversation_id", VStr (conversation_id m));
                       ("stage", VStr "error");
                       ("error", VStr ("Unknown action: " +:+ action m));
                       ("supported_actions",
                        VList (map (fun kv => VStr kv.1)
                                 (message_handlers (self w))))]).
  assert (Hrun : _execute_with_retry _process_message m 0
                   (entered wall_clock float_str m w)
                 = (Ret result,
                    after_call m (env w) (entered wall_clock float_str m w))).
  { apply retry_returned. unfold _process_message. cbn.
    by rewrite Hnone. }
  rewrite (handle_returned wall_clock float_str isoformat m w result _ Hfresh Hrun).
  rewrite update_average_eq by (cbn; lia).
  eexists _, _. split; [reflexivity |].
  cbn -[invocations slept constructed published sending].
  rewrite !slept_app, !constructed_app, !published_app.
  match goal with
  | |- context [constructed (sending ?x ?b)] =>
      destruct (sending_log x b) as (_ & -> & -> & ->)
  end.
  cbn. rewrite !app_nil_r. repeat split; done.
Qed.

(** Every path through [_handle_message] ends in the [finally] clause. *)
Lemma handle_clears_in_flight m w :
  _processing_requests (self (handle m w).2)
  = _processing_requests (self w) ∖ {[request_id m w]}.
Proof.
  destruct (decide (fresh m w)) as [Hfresh | Hdup].
  - pose proof Hfresh as Hnot. unfold fresh_delivery in Hnot.
    destruct (handle_paths m w Hfresh)
      as (k & e' & _ & [(result & V & _ & ->) | [(result & _ & ->) | (x & ->)]]);
      cbn; unfold answered; try destruct (truthy result); cbn; set_solver.
  - by rewrite (handle_duplicate wall_clock float_str isoformat m w Hdup).
Qed.

(** X14.  [_handle_message] lets no [Exception] escape to its caller,
    whatever the registered handlers return or raise, and when it returns
    the request id of the delivery is not in [_processing_requests]:
    every path, also the early return of a duplicate delivery, runs the
    [finally] clause.  (A duplicate so removes the mark of the delivery it
    duplicates.)  Registered handlers, [running] and the bus reference
    are not changed. *)
Theorem delivery_never_raises_and_is_unregistered m w :
  (_handle_message wall_clock float_str isoformat m w).1 = Ret tt
  ∧ _processing_requests
      (self (_handle_message wall_clock float_str isoformat m w).2)
    = _processing_requests (self w)
      ∖ {[request_id_of float_str m (wall_clock (ticks w))]}
  ∧ message_handlers
      (self (_handle_message wall_clock float_str isoformat m w).2)
    = message_handlers (self w)
  ∧ running (self (_handle_message wall_clock float_str isoformat m w).2)
    = running (self w)
  ∧ message_bus (self (_handle_message wall_clock float_str isoformat m w).2)
    = message_bus (self w).
Proof.
  split; [| split; [apply handle_clears_in_flight |]].
  - destruct (decide (fresh m w)) as [Hfresh | Hdup].
    + by destruct (handle_paths m w Hfresh)
        as (k & e' & _ & [(result & V & _ & ->) | [(result & _ & ->) | (x & ->)]]).
    + by rewrite (handle_duplicate wall_clock float_str isoformat m w Hdup).
  - destruct (decide (fresh m w)) as [Hfresh | Hdup].
    + destruct (handle_paths m w Hfresh)
        as (k & e' & _ & [(result & V & _ & ->) | [(result & _ & ->) | (x & ->)]]);
        cbn; unfold answered; try destruct (truthy result); done.
    + by rewrite (handle_duplicate wall_clock float_str isoformat m w Hdup).
Qed.

Abbreviation processed w := (messages_processed (performance_stats (self w))).
Abbreviation failed w := (messages_failed (performance_stats (self w))).

Lemma handle_counts m w :
  fresh m w ->
  0 <= processed w ->
  processed (handle m w).2 + failed (handle m w).2 = processed w + failed w + 1
  ∧ processed w <= processed (handle m w).2
  ∧ failed w <= failed (handle m w).2
  ∧ total_errors (error_stats (self (handle m w).2))
    - total_errors (error_stats (self w))
    = failed (handle m w).2 - failed w
  ∧ recoverable_errors (error_stats (self (handle m w).2))
    + critical_errors (error_stats (self (handle m w).2))
    - (recoverable_errors (error_stats (self w))
       + critical_errors (error_stats (self w)))
    = failed (handle m w).2 - failed w.
Proof.
  intros Hfresh Hcount.
  destruct (handle_paths m w Hfresh)
    as (k & e' & _ & [(result & V & _ & ->) | [(result & Hz & _) | (x & ->)]]);
    [| lia |].
  - unfold answered. destruct (truthy result); cbn; lia.
  - cbn. destruct (recoverable (as_agent_error x)); lia.
Qed.

(** X15.  An agent with no request in flight that handles the
    messages of [ms] one after the other counts each of them exactly
    once: [messages_processed + messages_failed] grows by the number of
    messages, neither counter goes down, [total_errors] and
    [recoverable_errors + critical_errors] grow exactly as
    [messages_failed] does, and no request is left in flight. *)
Theorem sequential_deliveries_are_counted_once ms w :
  _processing_requests (self w) = ∅ ->
  0 <= processed w ->
  let w' := handle_all wall_clock float_str isoformat ms w in
  processed w' + failed w' = processed w + failed w + Z.of_nat (length ms)
  ∧ processed w <= processed w'
  ∧ failed w <= failed w'
  ∧ total_errors (error_stats (self w')) - total_errors (error_stats (self w))
    = failed w' - failed w
  ∧ recoverable_errors (error_stats (self w'))
    + critical_errors (error_stats (self w'))
    - (recoverable_errors (error_stats (self w))
       + critical_errors (error_stats (self w)))
    = failed w' - failed w
  ∧ _processing_requests (self w') = ∅.
Proof.
  revert w. induction ms as [| m ms IH]; intros w Hempty Hcount.
  - cbn. repeat split; try done; lia.
  - assert (Hfresh : fresh m w).
    { unfold fresh_delivery. rewrite Hempty. apply not_elem_of_empty. }
    destruct (handle_counts m w Hfresh Hcount) as (H1 & H2 & H3 & H4 & H5).
    pose proof (handle_clears_in_flight m w) as Hin.
    rewrite Hempty in Hin.
    assert (Hempty' : _processing_requests (self (handle m w).2) = ∅)
      by (rewrite Hin; set_solver).
    destruct (IH (handle m w).2 Hempty' ltac:(lia))
      as (I1 & I2 & I3 & I4 & I5 & I6).
    cbn zeta in *. cbn [handle_all foldl length].
    fold (handle_all wall_clock float_str isoformat ms (handle m w).2).
    repeat split; try done; lia.
Qed.

(** X16.  An agent that is not running, or has no bus, publishes nothing
    when it is handed a message: neither a response nor an error message
    reaches the bus.  The work is done all the same: a fresh delivery
    calls the handler. *)
Theorem stopped_agent_publishes_nothing m w :
  message_bus (self w) && running (self w) = false ->
  published (log (handle m w).2) = published (log w)
  ∧ (fresh m w ->
     (invocations (log w) < invocations (log (handle m w).2))%nat).
Proof.
  intros Hoff.
  destruct (decide (fresh m w)) as [Hfresh | Hdup].
  2: { rewrite (handle_duplicate wall_clock float_str isoformat m w Hdup).
       cbn. done. }
  destruct (handle_paths m w Hfresh)
    as (k & e' & _ & [(result & V & _ & ->) | [(result & _ & ->) | (x & ->)]]);
    unfold answered; try destruct (truthy result);
    cbn -[invocations slept constructed published sending];
    rewrite ?Hoff, ?published_app, ?invocations_app, invocations_retry_trace;
    destruct (constructed_retry_trace m (retry_delay (self w)) k 0) as [_ ->];
    cbn; rewrite ?app_nil_r; (split; [done | intros _; lia]).
Qed.

End Deliveries.

(** *** The handler registry *)

(** Result of [get_health_status]. *)
Record HealthStatus := {
  hs_agent_id : string;
  hs_is_running : bool;
  hs_error_stats : ErrorStats;
  hs_performance_stats : PerformanceStats;
  hs_handlers_count : nat;
  hs_max_retries : Z;
  hs_active_requests : nat;
  hs_supported_actions : list string
}.

Section Registry.
Context {Env : Type}.
Implicit Types (a : @Agent Env) (h : @Handler Env) (m : A2AMessage).

(** [get_health_status] *)
Definition get_health_status a : HealthStatus :=
  {| hs_agent_id := agent_id a;
     hs_is_running := running a;
     hs_error_stats := error_stats a;
     hs_performance_stats := performance_stats a;
     hs_handlers_count := length (message_handlers a);
     hs_max_retries := max_retries a;
     hs_active_requests := size (_processing_requests a);
     hs_supported_actions := map fst (message_handlers a) |}.

Lemma dict_get_set_eq {V} (k : string) (v : V) (d : list (string * V)) :
  dict_get k (dict_set k v d) = Some v.
Proof.
  induction d as [| [k' v'] d IH]; cbn.
  - by rewrite decide_True.
  - destruct (decide (k' = k)) as [-> | Hne]; cbn.
    + by rewrite decide_True.
    + by rewrite decide_False.
Qed.

Lemma dict_get_set_ne {V} (k k' : string) (v : V) (d : list (string * V)) :
  k ≠ k' -> dict_get k' (dict_set k v d) = dict_get k' d.
Proof.
  intros Hne. induction d as [| [k0 v0] d IH]; cbn.
  - by rewrite decide_False.
  - destruct (decide (k0 = k)) as [-> | Hne0]; cbn.
    + by rewrite !decide_False.
    + destruct (decide (k0 = k')); [done | exact IH].
Qed.

Lemma dict_set_keys {V} (k : string) (v : V) (d : list (string * V)) :
  map fst (dict_set k v d)
  = match dict_get k d with
    | Some _ => map fst d
    | None => map fst d ++ [k]
    end.
Proof.
  induction d as [| [k' v'] d IH]; cbn; [done |].
  destruct (decide (k' = k)) as [-> | Hne]; cbn; [done |].
  rewrite IH. by destruct (dict_get k d).
Qed.

(** X17.  [register_handler] binds the action to the handler: a message
    with that action is dispatched to it, the handlers of all other
    actions stay.  Registering an action again replaces its handler and
    keeps its place in [supported_actions]; a new action is appended, and
    [handlers_count] grows by one only then. *)
Theorem register_handler_replaces_or_appends (action_name : string) h a :
  (∀ m e, action m = action_name ->
          _process_message (register_handler action_name h a) m e = h m e)
  ∧ (∀ k, k ≠ action_name ->
          dict_get k (message_handlers (register_handler action_name h a))
          = dict_get k (message_handlers a))
  ∧ hs_supported_actions (get_health_status (register_handler action_name h a))
    = match dict_get action_name (message_handlers a) with
      | Some _ => hs_supported_actions (get_health_status a)
      | None => hs_supported_actions (get_health_status a) ++ [action_name]
      end
  ∧ hs_handlers_count (get_health_status (register_handler action_name h a))
    = match dict_get action_name (message_handlers a) with
      | Some _ => hs_handlers_count (get_health_status a)
      | None => S (hs_handlers_count (get_health_status a))
      end.
Proof.
  split; [| split; [| split]].
  - intros m e <-. unfold _process_message, register_handler. cbn.
    by rewrite dict_get_set_eq.
  - intros k Hne. cbn. by apply dict_get_set_ne.
  - cbn. apply dict_set_keys.
  - cbn. rewrite <- !(length_map fst), dict_set_keys.
    destruct (dict_get action_name (message_handlers a)); [done |].
    rewrite length_app. cbn. lia.
Qed.

End Registry.

(** *** Starting and stopping an agent on a bus *)

Section Lifecycle.
Context {Env : Type} {H : Type} `{EqDecision H}.
(** The bound method [self._handle_message] of the agent object. *)
Variable me : H.
Implicit Types (a : @Agent Env) (b : @MessageBus.Bus H).

(** [BaseAgent.start]; [b] is the bus the agent was given, if any. *)
Definition start (now : Q) a b : Outcome unit * (@Agent Env * @MessageBus.Bus H) :=
  if message_bus a then
    (Ret tt,
     (set_performance_stats (set_last_activity now (performance_stats a))
        (set_running true a),
      MessageBus.subscribe (agent_id a) me b))
  else
    (Exc (ExAgent (AgentInitializationError
                     ("Failed to start agent " +:+ agent_id a +:+ ": "
                      +:+ "MessageBus not set"))),
     (set_running false a, b)).

(** [BaseAgent.stop]; [unsubscribe] does not raise, so neither does
    [stop]. *)
Definition stop a b : Outcome unit * (@Agent Env * @MessageBus.Bus H) :=
  let b := if message_bus a && running a
           then MessageBus.unsubscribe (agent_id a) me b
           else b in
  (Ret tt, (set_running false a, b)).

(** [AgentService.reset_agent], given what [self.agents.get(agent_id)]
    returned. *)
Definition reset_agent (now : Q) (agent : option (@Agent Env)) b
    : bool * (option (@Agent Env) * @MessageBus.Bus H) :=
  match agent with
  | None => (false, (None, b))
  | Some a =>
      match stop a b with
      | (Exc _, (a, b)) => (false, (Some a, b))
      | (Ret _, (a, b)) =>
          let a := reset_error_stats a in
          let a := reset_performance_stats a in
          match start now a b with
          | (Exc _, (a, b)) => (false, (Some a, b))
          | (Ret _, (a, b)) => (true, (Some a, b))
          end
      end
  end.

Abbreviation handlers_of := MessageBusMore.handlers_of.

Lemma handlers_of_subscribe (id id' : string) b :
  handlers_of id' (MessageBus.subscribe id me b)
  = if decide (id = id') then handlers_of id b ++ [me] else handlers_of id' b.
Proof.
  unfold MessageBusMore.handlers_of, MessageBus.subscribe. cbn.
  destruct (decide (id = id')) as [<- | Hne].
  - by rewrite lookup_insert_eq.
  - by rewrite lookup_insert_ne.
Qed.

Lemma handlers_of_unsubscribe (id id' : string) b :
  handlers_of id' (MessageBus.unsubscribe id me b)
  = if decide (id = id') then MessageBus.remove_first me (handlers_of id b)
    else handlers_of id' b.
Proof.
  assert (Hnot : ∀ l : list H, me ∉ l -> MessageBus.remove_first me l = l).
  { induction l as [| x l IH]; cbn; [done |].
    intros [Hne Hl]%not_elem_of_cons. rewrite decide_False by done.
    by rewrite IH. }
  unfold MessageBusMore.handlers_of, MessageBus.unsubscribe.
  case_bool_decide as Hin; cbn.
  - destruct (decide (id = id')) as [<- | Hne].
    + by rewrite lookup_insert_eq.
    + by rewrite lookup_insert_ne.
  - destruct (decide (id = id')) as [<- | Hne]; [| done].
    by rewrite Hnot.
Qed.

(** X18.  For an agent with a bus whose handler is not subscribed yet,
    [start] subscribes the handler (last in its agent's list) and sets
    [running]; a following [stop] clears [running] and gives every agent
    on the bus exactly the handlers it had before.  Queue and counters of
    the bus are not touched. *)
Theorem start_then_stop_restores_bus (now : Q) a b :
  message_bus a = true ->
  me ∉ handlers_of (agent_id a) b ->
  ∃ a1 b1 a2 b2,
    start now a b = (Ret tt, (a1, b1))
    ∧ stop a1 b1 = (Ret tt, (a2, b2))
    ∧ running a1 = true
    ∧ handlers_of (agent_id a) b1 = handlers_of (agent_id a) b ++ [me]
    ∧ running a2 = false
    ∧ (∀ id, handlers_of id b2 = handlers_of id b)
    ∧ message_handlers a2 = message_handlers a
    ∧ MessageBus._stats b2 = MessageBus._stats b
    ∧ MessageBus._queue b2 = MessageBus._queue b.
Proof.
  intros Hbus Hnew. eexists _, _, _, _.
  split; [unfold start; rewrite Hbus; reflexivity |].
  split; [unfold stop; cbn; rewrite Hbus; reflexivity |].
  cbn. split; [done |]. split.
  { rewrite handlers_of_subscribe. by rewrite decide_True. }
  split; [done |]. split.
  { intros id. rewrite handlers_of_unsubscribe, !handlers_of_subscribe.
    destruct (decide (agent_id a = id)) as [<- | Hne]; [| done].
    rewrite decide_True by done. by apply MessageBusMore.remove_first_absent. }
  split; [done |].
  unfold MessageBus.unsubscribe. by case_bool_decide.
Qed.

Lemma remove_first_twice (l : list H) :
  me ∈ MessageBus.remove_first me ((l ++ [me]) ++ [me]).
Proof.
  induction l as [| x l IH]; cbn.
  - rewrite decide_True by done. apply elem_of_cons. by left.
  - destruct (decide (x = me)) as [-> | Hne].
    + rewrite elem_of_app. right. apply elem_of_cons. by left.
    + apply elem_of_cons. by right.
Qed.

(** X19.  [start] is not idempotent.  After two [start]s one [stop]
    leaves the agent not running but still subscribed: [start] subscribes
    each time, [stop] removes one subscription.  A further [stop] changes
    nothing, since it unsubscribes only while [running]. *)
Theorem second_start_leaks_a_subscription (now1 now2 : Q) a b :
  message_bus a = true ->
  ∃ a1 b1 a2 b2 a3 b3,
    start now1 a b = (Ret tt, (a1, b1))
    ∧ start now2 a1 b1 = (Ret tt, (a2, b2))
    ∧ stop a2 b2 = (Ret tt, (a3, b3))
    ∧ running a3 = false
    ∧ me ∈ handlers_of (agent_id a) b3
    ∧ stop a3 b3 = (Ret tt, (a3, b3)).
Proof.
  intros Hbus. eexists _, _, _, _, _, _.
  split; [unfold start; rewrite Hbus; reflexivity |].
  split; [unfold start; cbn; rewrite Hbus; reflexivity |].
  split; [unfold stop; cbn; rewrite Hbus; reflexivity |].
  cbn. split; [done |]. split; [| unfold stop; cbn; by rewrite andb_false_r].
  rewrite handlers_of_unsubscribe, decide_True by done.
  rewrite !handlers_of_subscribe, !decide_True by done.
  apply remove_first_twice.
Qed.

(** X20.  [reset_agent] on a known agent.  With a bus it returns [True]
    and leaves the agent running, also when it was stopped before, with
    zeroed error and performance counters except [last_activity], which
    [start] sets; the agent's handler is subscribed last in its list,
    after its earlier subscription was removed if the agent was running.
    Without a bus it returns [False], with the counters wiped and the
    agent stopped.  Registered handlers and requests in flight stay. *)
Theorem reset_agent_restarts_with_clean_counters (now : Q) a b :
  ∃ a' b',
    reset_agent now (Some a) b = (message_bus a, (Some a', b'))
    ∧ running a' = message_bus a
    ∧ error_stats a' = zero_error_stats
    ∧ performance_stats a'
      = (if message_bus a
         then set_last_activity now zero_performance_stats
         else zero_performance_stats)
    ∧ message_handlers a' = message_handlers a
    ∧ _processing_requests a' = _processing_requests a
    ∧ handlers_of (agent_id a) b'
      = (if message_bus a
         then (if running a
               then MessageBus.remove_first me (handlers_of (agent_id a) b)
               else handlers_of (agent_id a) b) ++ [me]
         else handlers_of (agent_id a) b).
Proof.
  unfold reset_agent, start, stop. cbn.
  destruct (message_bus a) eqn:Hbus; cbn; rewrite ?Hbus; cbn.
  - eexists _, _. split; [reflexivity |]. cbn. repeat split; try done.
    rewrite handlers_of_subscribe, decide_True by done.
    destruct (running a); [| done].
    by rewrite handlers_of_unsubscribe, decide_True.
  - eexists _, _. split; [reflexivity |]. cbn. repeat split; done.
Qed.

End Lifecycle.

(** *** Concrete deliveries *)

(** A handler that times out on its first two calls. *)
Definition flaky : @Handler nat :=
  fun _ n =>
    if (n <? 2)%nat
    then (Exc (ExAgent (AgentCommunicationError "timeout")), S n)
    else (Ret (Some [("synced", VBool true)]), S n).

Definition agent_b : @Agent nat :=
  set_running true (set_message_bus true (register_handler "sync" flaky (init "B"))).

Definition wb : @World nat := world_of agent_b 0%nat.

Lemma transient_failures_leave_no_trace_witness :
  invocations (log (handle0 (request "m-8" "sync") wb).2) = 3%nat
  ∧ error_stats (self (handle0 (request "m-8" "sync") wb).2) = zero_error_stats
  ∧ messages_failed (performance_stats (self (handle0 (request "m-8" "sync") wb).2))
    = 0.
Proof.
  destruct (transient_failures_leave_no_trace clock show_q show_q
              (request "m-8" "sync") wb flaky 2
              (Some [("synced", VBool true)]) 3%nat)
    as (w' & Hh & _ & Hinv & _ & _ & Hfailed & Herr & _).
  - fresh_now.
  - reflexivity.
  - cbn. eexists _, _. split; [reflexivity |]. split; [reflexivity |].
    eexists _, _. split; [reflexivity |]. split; reflexivity.
  - cbn. lia.
  - cbn. lia.
  - rewrite Hh. cbn [snd]. split; [exact Hinv |]. split; [exact Herr | exact Hfailed].
Defined.

Lemma unknown_action_is_answered_as_processed_witness :
  action <$> published (log (handle0 (request "m-9" "translate") w0).2)
  = ["translate_response"]
  ∧ messages_failed
      (performance_stats (self (handle0 (request "m-9" "translate") w0).2))
    = 0.
Proof.
  destruct (unknown_action_is_answered_as_processed clock show_q show_q
              (request "m-9" "translate") w0)
    as (w' & rm & Hh & _ & _ & _ & Hfailed & _ & _ & Hpub & _ & _ & Hact & _).
  - fresh_now.
  - reflexivity.
  - cbn. lia.
  - rewrite Hh. cbn [snd]. split; [| exact Hfailed].
    rewrite Hpub. cbn. by rewrite Hact.
Defined.

(** A recoverable failure that lasts, an echo, an unknown action. *)
Definition mixed : list A2AMessage :=
  [request "m-1" "fetch"; request "m-6" "ping"; request "m-9" "translate"].

Lemma sequential_deliveries_are_counted_once_witness :
  messages_processed
    (performance_stats (self (handle_all clock show_q show_q mixed w0)))
  + messages_failed
      (performance_stats (self (handle_all clock show_q show_q mixed w0)))
  = 3
  ∧ _processing_requests (self (handle_all clock show_q show_q mixed w0)) = ∅.
Proof.
  destruct (sequential_deliveries_are_counted_once clock show_q show_q mixed w0)
    as (Hsum & _ & _ & _ & _ & Hempty); [reflexivity | cbn; lia |].
  split; [exact Hsum | exact Hempty].
Defined.

(** The agent of the examples, stopped. *)
Definition w_stopped : @World nat := world_of (set_running false agent_a) 0%nat.

Lemma stopped_agent_publishes_nothing_witness :
  published (log (handle0 (request "m-6" "ping") w_stopped).2) = []
  ∧ (0 < invocations (log (handle0 (request "m-6" "ping") w_stopped).2))%nat.
Proof.
  destruct (stopped_agent_publishes_nothing clock show_q show_q
              (request "m-6" "ping") w_stopped) as [Hpub Hinv]; [reflexivity |].
  split; [exact Hpub |]. apply Hinv. fresh_now.
Defined.

(** An agent that was given a bus nobody has subscribed to. *)
Definition agent_c : @Agent nat := set_message_bus true (init "C").
Definition empty_bus : @MessageBus.Bus nat := MessageBus.init.

Lemma start_then_stop_restores_bus_witness :
  ∃ a1 b1 a2 b2,
    start 7%nat 0 agent_c empty_bus = (Ret tt, (a1, b1))
    ∧ stop 7%nat a1 b1 = (Ret tt, (a2, b2))
    ∧ running a2 = false
    ∧ ∀ id, MessageBusMore.handlers_of id b2
            = MessageBusMore.handlers_of id empty_bus.
Proof.
  destruct (start_then_stop_restores_bus 7%nat 0 agent_c empty_bus)
    as (a1 & b1 & a2 & b2 & H1 & H2 & _ & _ & H5 & H6 & _).
  - reflexivity.
  - apply not_elem_of_nil.
  - by exists a1, b1, a2, b2.
Defined.

Lemma second_start_leaks_a_subscription_witness :
  ∃ a1 b1 a2 b2 a3 b3,
    start 7%nat 0 agent_c empty_bus = (Ret tt, (a1, b1))
    ∧ start 7%nat 1 a1 b1 = (Ret tt, (a2, b2))
    ∧ stop 7%nat a2 b2 = (Ret tt, (a3, b3))
    ∧ running a3 = false
    ∧ 7%nat ∈ MessageBusMore.handlers_of "C" b3
    ∧ stop 7%nat a3 b3 = (Ret tt, (a3, b3)).
Proof.
  apply (second_start_leaks_a_subscription 7%nat 0 1 agent_c empty_bus).
  reflexivity.
Defined.

End BaseAgentMore.

(* ===================================================================== *)
(** ** Construction of messages *)

Module SchemasMore.
Import Schemas.

(** The values of the two enums. *)
Definition MessageType_value (t : MessageType) : string :=
  match t with
  | REQUEST => "request"
  | RESPONSE => "response"
  | EVENT => "event"
  | ERROR => "error"
  end.

Definition Priority_value (p : Priority) : Z :=
  match p with
  | LOW => 1
  | NORMAL => 2
  | HIGH => 3
  | URGENT => 4
  end.

(** [MessageType(value)] and [Priority(value)]: the member with that
    value; [None] stands for the [ValueError] of a value no member has. *)
Definition MessageType_of_value (s : string) : option MessageType :=
  if decide (s = "request") then Some REQUEST
  else if decide (s = "response") then Some RESPONSE
  else if decide (s = "event") then Some EVENT
  else if decide (s = "error") then Some ERROR
  else None.

Definition Priority_of_value (n : Z) : option Priority :=
  if decide (n = 1) then Some LOW
  else if decide (n = 2) then Some NORMAL
  else if decide (n = 3) then Some HIGH
  else if decide (n = 4) then Some URGENT
  else None.

(** What a caller may pass for an enum-typed field: a member, or any
    other Python value (the annotations are not enforced). *)
Definition Given (E : Type) : Type := E + PyVal.

(** [if isinstance(self.message_type, str): ...] *)
Definition coerce_message_type (message_type : Given MessageType)
    : option (Given MessageType) :=
  match message_type with
  | inr (VStr s) => inl <$> MessageType_of_value s
  | _ => Some message_type
  end.

(** [if isinstance(self.priority, int): ...]; a [bool] is an [int] for
    [isinstance], and [True == 1]. *)
Definition coerce_priority (priority : Given Priority)
    : option (Given Priority) :=
  match priority with
  | inr (VInt n) => inl <$> Priority_of_value n
  | inr (VBool b) => inl <$> Priority_of_value (if b then 1 else 0)
  | _ => Some priority
  end.

(** [__post_init__]; it reads and writes [message_type] and [priority]
    only. *)
Definition __post_init__ (message_type : Given MessageType)
    (priority : Given Priority)
    : option (Given MessageType * Given Priority) :=
  message_type ← coerce_message_type message_type;
  priority ← coerce_priority priority;
  Some (message_type, priority).

Lemma MessageType_of_value_None (s : string) :
  (∀ t, MessageType_value t ≠ s) -> MessageType_of_value s = None.
Proof.
  intros Hs. unfold MessageType_of_value.
  destruct (decide (s = "request")) as [-> | ?]; [by destruct (Hs REQUEST) |].
  destruct (decide (s = "response")) as [-> | ?]; [by destruct (Hs RESPONSE) |].
  destruct (decide (s = "event")) as [-> | ?]; [by destruct (Hs EVENT) |].
  destruct (decide (s = "error")) as [-> | ?]; [by destruct (Hs ERROR) |].
  done.
Qed.

Lemma Priority_of_value_None (n : Z) :
  (∀ p, Priority_value p ≠ n) -> Priority_of_value n = None.
Proof.
  intros Hn. unfold Priority_of_value.
  destruct (decide (n = 1)) as [-> | ?]; [by destruct (Hn LOW) |].
  destruct (decide (n = 2)) as [-> | ?]; [by destruct (Hn NORMAL) |].
  destruct (decide (n = 3)) as [-> | ?]; [by destruct (Hn HIGH) |].
  destruct (decide (n = 4)) as [-> | ?]; [by destruct (Hn URGENT) |].
  done.
Qed.

Lemma coerce_message_type_idem (g x : Given MessageType) :
  coerce_message_type g = Some x -> coerce_message_type x = Some x.
Proof.
  destruct g as [t | []]; cbn; try (by intros [= <-]).
  destruct (MessageType_of_value s); cbn; by intros [= <-].
Qed.

Lemma coerce_priority_idem (g x : Given Priority) :
  coerce_priority g = Some x -> coerce_priority x = Some x.
Proof.
  destruct g as [p | []]; cbn; try (by intros [= <-]);
    destruct (Priority_of_value _); cbn; by intros [= <-].
Qed.

(** X21.  [__post_init__] turns the value of an enum member back into
    the member: a [str] message type and an [int] priority that are
    values of members are replaced by those members, and any other [str]
    or [int] makes the constructor raise.  Nothing else is coerced: a
    priority given as a [str] stays that string.  Applying it to its own
    result changes nothing. *)
Theorem post_init_coerces_member_values :
  (∀ t p, __post_init__ (inr (VStr (MessageType_value t)))
            (inr (VInt (Priority_value p)))
          = Some (inl t, inl p))
  ∧ (∀ s priority, (∀ t, MessageType_value t ≠ s) ->
                   __post_init__ (inr (VStr s)) priority = None)
  ∧ (∀ message_type n, (∀ p, Priority_value p ≠ n) ->
                       __post_init__ message_type (inr (VInt n)) = None)
  ∧ (∀ t s, __post_init__ (inl t) (inr (VStr s)) = Some (inl t, inr (VStr s)))
  ∧ (∀ message_type priority r,
       __post_init__ message_type priority = Some r ->
       __post_init__ r.1 r.2 = Some r).
Proof.
  split; [| split; [| split; [| split]]].
  - by intros [] [].
  - intros s priority Hs. unfold __post_init__. cbn.
    by rewrite MessageType_of_value_None.
  - intros message_type n Hn. unfold __post_init__.
    destruct (coerce_message_type message_type); cbn; [| done].
    by rewrite Priority_of_value_None.
  - done.
  - intros message_type priority r. unfold __post_init__.
    destruct (coerce_message_type message_type) as [x |] eqn:Hx; cbn; [| done].
    destruct (coerce_priority priority) as [y |] eqn:Hy; cbn; [| done].
    intros [= <-]. cbn.
    rewrite (coerce_message_type_idem _ _ Hx). cbn.
    by rewrite (coerce_priority_idem _ _ Hy).
Qed.

End SchemasMore.

(* ===================================================================== *)
(** ** At most one handler call per message key *)

Module MessageBusOnce.
Import MessageBus MessageBusSpec MessageBusMore.

Section AtMostOnce.
Context {Handler : Type} `{EqDecision Handler}.
Implicit Types (b : @Bus Handler) (t : @Task Handler) (k : string).

(** The event leaves the window undisturbed: it is not the return of
    [stop()], not the end of a handler call by cancellation, and not a
    cleanup that evicts the record of a processed key. *)
Definition quiet b (ev : @Event Handler) : bool :=
  match ev with
  | Stop => false
  | TaskExit _ WasCancelled _ => false
  | LoopTop now =>
      match loop_top now b with
      | Some b' =>
          bool_decide (_processed_messages b ⊆ _processed_messages b')
      | None => true
      end
  | _ => true
  end.

(** The run [evs] from [b] is undisturbed. *)
Fixpoint undisturbed b (evs : list (@Event Handler)) : bool :=
  match evs with
  | [] => true
  | ev :: evs' =>
      quiet b ev
      && match step b ev with
         | Some b' => undisturbed b' evs'
         | None => true
         end
  end.

(** The task has not ended. *)
Definition unfinished t : Prop :=
  t_status t = Pending ∨ t_status t = InHandler.

(** The tasks that have not ended are those of the message the loop is
    fanning out. *)
Definition unfinished_ok b : Prop :=
  match _dispatch_task b with
  | Gathering _ tids =>
      ∃ m, ∀ i t, tasks b !! i = Some t -> unfinished t ->
                  i ∈ tids ∧ t_message t = m
  | _ => ∀ i t, tasks b !! i = Some t -> ¬ unfinished t
  end.

(** The keys of the messages of handler calls, in the order of the
    calls. *)
Definition keys_of (calls : list (Handler * A2AMessage)) : list string :=
  (fun hm => _generate_message_key hm.2) <$> calls.

(** A handler is running for a message with key [k]. *)
Definition running_key b k : Prop :=
  ∃ i t, tasks b !! i = Some t ∧ t_status t = InHandler
         ∧ _generate_message_key (t_message t) = k.

(** No handler will be called for [k] in [b]: the key is marked as
    processed, or a handler is running for it. *)
Definition blocked b k : Prop :=
  k ∈ _processed_messages b ∨ running_key b k.

(** The handler calls made since [b0]: their keys are pairwise distinct,
    were not blocked in [b0] and are blocked now, as is every key that was
    blocked in [b0]. *)
Definition window_ok b0 b : Prop :=
  ∃ calls,
    invoked b = invoked b0 ++ calls
    ∧ NoDup (keys_of calls)
    ∧ (∀ k, k ∈ keys_of calls -> ¬ blocked b0 k ∧ blocked b k)
    ∧ (∀ k, blocked b0 k -> blocked b k).

Lemma unfinished_ok_same b b' :
  tasks b' = tasks b -> _dispatch_task b' = _dispatch_task b ->
  unfinished_ok b -> unfinished_ok b'.
Proof. unfold unfinished_ok. by intros -> ->. Qed.

(** A task that changes its status was not ended before. *)
Lemma unfinished_ok_status b b' tid t st :
  tasks b !! tid = Some t -> unfinished t ->
  tasks b' = <[tid := set_status st t]> (tasks b) ->
  _dispatch_task b' = _dispatch_task b ->
  unfinished_ok b -> unfinished_ok b'.
Proof.
  unfold unfinished_ok. intros Ht Hun -> ->.
  assert (Hold : ∀ i t', <[tid := set_status st t]> (tasks b) !! i = Some t' ->
                         ∃ t'', tasks b !! i = Some t''
                                ∧ t_message t'' = t_message t'
                                ∧ (unfinished t' -> unfinished t'')).
  { intros i t' Hi. apply list_lookup_insert_Some in Hi
      as [(-> & <- & _) | [_ Hi]]; [by exists t | by exists t']. }
  destruct (_dispatch_task b).
  - intros Hno i t' Hi Hs. destruct (Hold i t' Hi) as (t'' & Hi' & _ & Hu).
    by eapply Hno; [exact Hi' | apply Hu].
  - intros Hno i t' Hi Hs. destruct (Hold i t' Hi) as (t'' & Hi' & _ & Hu).
    by eapply Hno; [exact Hi' | apply Hu].
  - intros [m Hm]. exists m. intros i t' Hi Hs.
    destruct (Hold i t' Hi) as (t'' & Hi' & <- & Hu).
    by eapply Hm; [exact Hi' | apply Hu].
Qed.

Lemma step_unfinished_ok b ev b' :
  unfinished_ok b -> step b ev = Some b' -> unfinished_ok b'.
Proof.
  intros Hok Hstep.
  destruct ev as [a h | a h | m now pr | now | | | now | | | tid | tid e now];
    cbn in Hstep.
  - injection Hstep as <-. by apply (unfinished_ok_same b).
  - injection Hstep as <-. unfold unsubscribe.
    case_bool_decide; [by apply (unfinished_ok_same b) | done].
  - injection Hstep as <-. apply (unfinished_ok_same b); [| | done];
      unfold publish, _get_queue; cbn;
      destruct (_is_duplicate_message _ _); cbn; try done;
      by destruct (_queue b), pr.
  - injection Hstep as <-. unfold start, _get_queue. unfold unfinished_ok in *.
    destruct (_dispatch_task b) eqn:Hl; rewrite ?Hl; try done.
    destruct (_queue b); cbn; exact Hok.
  - apply stop_Some in Hstep as [-> Hnone]. unfold unfinished_ok. cbn.
    intros i t Hi.
    apply lookup_cancel_pending in Hi as (t0 & Hi & ->).
    pose proof (none_in_flight _ i t0 Hnone Hi) as Hs.
    unfold cancel_pending, unfinished.
    destruct (t_status t0) eqn:E; cbn; rewrite ?E; intros [? | ?]; congruence.
  - injection Hstep as <-. by apply (unfinished_ok_same b).
  - unfold loop_top in Hstep. unfold unfinished_ok in *.
    destruct (_dispatch_task b) eqn:Hl; try done.
    destruct (negb _); injection Hstep as <-; cbn; rewrite ?Hl; exact Hok.
  - unfold loop_get in Hstep. unfold unfinished_ok in *.
    destruct (_dispatch_task b) eqn:Hl; try done.
    destruct (_queue b) as [[| m rest] |]; try done. cbn in Hstep.
    destruct (_subscribers b !! to_agent m) as [[| h hs] |];
      try case_bool_decide; injection Hstep as <-; cbn; rewrite ?Hl;
      try exact Hok.
    exists m. intros i t Hi Hs.
    apply lookup_app_Some in Hi as [Hi | [Hge Hi]]; [by destruct (Hok i t) |].
    apply (new_tasks_lookup m (h :: hs)) in Hi as [Hm Hlt]. split; [| done].
    change (i ∈ seq (length (tasks b)) (length (h :: hs))).
    apply elem_of_seq. lia.
  - unfold loop_gathered in Hstep. unfold unfinished_ok in *.
    destruct (_dispatch_task b) as [| | lc tids] eqn:Hl; try done.
    destruct (forallb _ _) eqn:Hall; [| done]. injection Hstep as <-. cbn.
    destruct Hok as [m Hm]. intros i t Hi Hs.
    destruct (Hm i t Hi Hs) as [Hin _].
    rewrite forallb_forall in Hall. apply list_elem_of_In in Hin.
    specialize (Hall i Hin). unfold task_finished in Hall.
    rewrite Hi in Hall. by destruct Hs as [Hs | Hs]; rewrite Hs in Hall.
  - unfold task_enter in Hstep.
    destruct (tasks b !! tid) as [t |] eqn:Ht; try done.
    destruct (t_status t) eqn:Hs; try done.
    destruct (lock_held _ _); try done.
    case_bool_decide; injection Hstep as <-.
    + apply (unfinished_ok_status b _ tid t Skipped); try done. by left.
    + apply (unfinished_ok_status b _ tid t InHandler); try done. by left.
  - unfold task_exit in Hstep.
    destruct (tasks b !! tid) as [t |] eqn:Ht; try done.
    destruct (t_status t) eqn:Hs; try done. injection Hstep as <-.
    apply (unfinished_ok_status b _ tid t (Done e)); try done;
      [by right | by destruct e | by destruct e].
Qed.

(** Nothing is called, nothing is forgotten, and a handler that was
    running either still is or has its key marked as processed. *)
Lemma window_ok_mono b0 b b' :
  invoked b' = invoked b ->
  _processed_messages b ⊆ _processed_messages b' ->
  (∀ k, running_key b k -> running_key b' k ∨ k ∈ _processed_messages b') ->
  window_ok b0 b -> window_ok b0 b'.
Proof.
  intros Hi HP Hr (calls & Hinv & Hnd & Hcalls & Hold).
  assert (Hmono : ∀ k, blocked b k -> blocked b' k).
  { intros k [Hp | Hrun]; [left; set_solver |].
    destruct (Hr k Hrun); [by right | by left]. }
  exists calls. rewrite Hi. split; [done |]. split; [done |]. split.
  - intros k Hk. destruct (Hcalls k Hk). split; [done | by apply Hmono].
  - intros k Hk. by apply Hmono, Hold.
Qed.

Lemma running_key_other b b' tid t st k :
  tasks b !! tid = Some t -> t_status t ≠ InHandler ->
  tasks b' = <[tid := set_status st t]> (tasks b) ->
  running_key b k -> running_key b' k.
Proof.
  intros Ht Hs Htasks (i & t' & Hi & Hs' & Hk). exists i, t'.
  split; [| done]. rewrite Htasks.
  rewrite list_lookup_insert_ne; [done |]. intros <-. congruence.
Qed.

Lemma step_window_ok b0 b ev b' :
  window_ok b0 b -> unfinished_ok b -> serialized b ->
  quiet b ev = true -> step b ev = Some b' -> window_ok b0 b'.
Proof.
  intros Hok Hun Hser Hquiet Hstep.
  destruct ev as [a h | a h | m now pr | now | | | now | | | tid | tid e now];
    cbn in Hstep, Hquiet.
  - injection Hstep as <-.
    by apply (window_ok_mono b0 b); [| | intros k Hk; left |].
  - injection Hstep as <-. unfold unsubscribe. case_bool_decide; [| done].
    by apply (window_ok_mono b0 b); [| | intros k Hk; left |].
  - injection Hstep as <-. unfold publish, _get_queue. cbn.
    destruct (_is_duplicate_message _ _); cbn;
      [by apply (window_ok_mono b0 b); [| | intros k Hk; left |] |].
    destruct (_queue b), pr; cbn;
      by apply (window_ok_mono b0 b); [| | intros k Hk; left |].
  - injection Hstep as <-. unfold start, _get_queue.
    destruct (_dispatch_task b); try done.
    destruct (_queue b);
      by apply (window_ok_mono b0 b); [| | intros k Hk; left |].
  - done.
  - injection Hstep as <-.
    by apply (window_ok_mono b0 b); [| | intros k Hk; left |].
  - rewrite Hstep in Hquiet. apply bool_decide_eq_true in Hquiet.
    unfold loop_top in Hstep. destruct (_dispatch_task b); try done.
    destruct (negb _); injection Hstep as <-; [| done].
    by apply (window_ok_mono b0 b); [| | intros k Hk; left |].
  - unfold loop_get in Hstep. destruct (_dispatch_task b); try done.
    destruct (_queue b) as [[| m rest] |]; try done. cbn in Hstep.
    destruct (_subscribers b !! to_agent m) as [[| h hs] |];
      try case_bool_decide; injection Hstep as <-;
      try (by apply (window_ok_mono b0 b); [| | intros k Hk; left |]).
    apply (window_ok_mono b0 b); [done | done | | done].
    intros k (i & t & Hi & Hs & Hk). left. exists i, t.
    split; [| done]. cbn. by apply lookup_app_l_Some.
  - unfold loop_gathered in Hstep. destruct (_dispatch_task b); try done.
    destruct (forallb _ _); [| done]. injection Hstep as <-.
    by apply (window_ok_mono b0 b); [| | intros k Hk; left |].
  - unfold task_enter in Hstep.
    destruct (tasks b !! tid) as [t |] eqn:Ht; try done.
    destruct (t_status t) eqn:Hs; try done.
    destruct (lock_held _ _) eqn:Hlock; try done.
    case_bool_decide as Hproc; injection Hstep as <-.
    + apply (window_ok_mono b0 b); [done | done | | done].
      intros k Hk. left.
      eapply (running_key_other b _ tid t Skipped); [done | congruence | done | done].
    + destruct Hok as (calls & Hinv & Hnd & Hcalls & Hold).
      assert (Hnew : ¬ blocked b (_generate_message_key (t_message t))).
      { intros [Hp | (i & t' & Hi & Hs' & Hk)]; [done |].
        assert (Hmsg : t_message t' = t_message t).
        { unfold unfinished_ok in Hun.
          destruct (_dispatch_task b).
          - destruct (Hun i t' Hi). by right.
          - destruct (Hun i t' Hi). by right.
          - destruct Hun as [m0 Hm0].
            destruct (Hm0 i t' Hi) as [_ ->]; [by right |].
            destruct (Hm0 tid t Ht) as [_ ->]; [by left |]. done. }
        destruct Hser as [Hheld _].
        assert (Hin' : in_handler_for b (to_agent (t_message t)) i).
        { exists t'. by rewrite Hmsg. }
        rewrite (Hheld _ _ Hin') in Hlock. done. }
      assert (Hmono : ∀ k, blocked b k ->
                blocked (set_locks (<[to_agent (t_message t) := true]>
                                      (_processing_locks b))
                           (set_invoked (invoked b ++ [(t_handler t, t_message t)])
                              (set_tasks (<[tid := set_status InHandler t]>
                                            (tasks b)) b))) k).
      { intros k [Hp | Hrun]; [by left |]. right.
        eapply (running_key_other b _ tid t InHandler);
          [done | congruence | done | done]. }
      exists (calls ++ [(t_handler t, t_message t)]). cbn.
      split; [by rewrite Hinv, app_assoc |].
      unfold keys_of. rewrite fmap_app. cbn. fold (keys_of calls).
      split; [| split].
      * apply NoDup_app. split; [done |]. split; [| apply NoDup_singleton].
        intros k Hk Hk'. apply list_elem_of_singleton in Hk' as ->.
        by destruct (Hcalls _ Hk).
      * intros k Hk. apply elem_of_app in Hk as [Hk | Hk].
        -- destruct (Hcalls k Hk). split; [done | by apply Hmono].
        -- apply list_elem_of_singleton in Hk as ->. split.
           ++ intros Hb0. by apply Hnew, Hold.
           ++ right. exists tid, (set_status InHandler t). cbn.
              split; [| done]. apply list_lookup_insert_eq.
              by eapply lookup_lt_Some.
      * intros k Hk. by apply Hmono, Hold.
  - unfold task_exit in Hstep.
    destruct (tasks b !! tid) as [t |] eqn:Ht; try done.
    destruct (t_status t) eqn:Hs; try done. injection Hstep as <-.
    destruct e; [| | done].
    all: apply (window_ok_mono b0 b); [done | cbn; set_solver | | done].
    all: intros k (i & t' & Hi & Hs' & Hk);
      destruct (decide (i = tid)) as [-> | Hne];
      [right; rewrite Ht in Hi; injection Hi as <-; cbn; set_solver
      | left; exists i, t'; split; [| done]; cbn;
        by rewrite list_lookup_insert_ne].
Qed.

Lemma run_window_ok b0 : ∀ evs b b',
  window_ok b0 b -> unfinished_ok b -> serialized b ->
  undisturbed b evs = true -> run b evs = Some b' -> window_ok b0 b'.
Proof.
  induction evs as [| ev evs IH]; intros b b' Hok Hun Hser Hq Hrun;
    cbn in Hrun, Hq.
  - by injection Hrun as <-.
  - destruct (step b ev) as [b1 |] eqn:Hstep; [| done].
    apply andb_true_iff in Hq as [Hev Hq].
    eapply (IH b1); [| | | exact Hq | exact Hrun].
    + by eapply step_window_ok.
    + by eapply step_unfinished_ok.
    + by eapply step_serialized.
Qed.

(** X22.  Take any state the bus can reach and any stretch of its run
    from there in which [stop()] does not return, no handler call ends by
    cancellation and no cleanup evicts the record of a processed key.  The
    handler calls started in that stretch have pairwise distinct message
    keys, whatever is published, however many handlers are subscribed and
    however the tasks interleave.  None of them is for a key that was
    marked as processed, or whose handler was running, when the stretch
    began, and each of these keys is marked as processed at the end unless
    its call is still running. *)
Theorem each_key_handled_at_most_once evs0 b0 evs b :
  run init evs0 = Some b0 ->
  undisturbed b0 evs = true ->
  run b0 evs = Some b ->
  ∃ calls,
    invoked b = invoked b0 ++ calls
    ∧ NoDup (keys_of calls)
    ∧ ∀ k, k ∈ keys_of calls ->
           ((k ∉ _processed_messages b0) ∧ ¬ running_key b0 k)
           ∧ (k ∈ _processed_messages b ∨ running_key b k).
Proof.
  intros Hrun0 Hq Hrun.
  assert (Hun0 : unfinished_ok b0).
  { apply (run_invariant unfinished_ok step_unfinished_ok evs0 init b0);
      [| exact Hrun0].
    unfold unfinished_ok. cbn. intros i t Hi. by rewrite lookup_nil in Hi. }
  pose proof (run_serialized evs0 init b0 serialized_init Hrun0) as Hser0.
  assert (Hw0 : window_ok b0 b0).
  { exists []. split; [by rewrite app_nil_r |]. split; [constructor |].
    split; [| done]. intros k Hk. by apply elem_of_nil in Hk. }
  destruct (run_window_ok b0 evs b0 b Hw0 Hun0 Hser0 Hq Hrun)
    as (calls & Hinv & Hnd & Hcalls & _).
  exists calls. split; [done |]. split; [done |].
  intros k Hk. destruct (Hcalls k Hk) as [Hnot Hnow]. split; [| exact Hnow].
  split; intros H1; apply Hnot; [by left | by right].
Qed.

End AtMostOnce.

(** A bus that has been running for 1000 seconds, with two subscribers
    of "A". *)
Definition earlier_events : list (@Event nat) :=
  [Subscribe "A" 1%nat; Subscribe "A" 2%nat; Start 0; LoopTop 1000].
Definition bus_earlier : @Bus nat := default init (run init earlier_events).

(** The request is handled by the first subscriber, skipped for the
    second, and refused when it is published again. *)
Definition orderly_events : list (@Event nat) :=
  [Publish ping 1001 false; LoopGet; TaskEnter 0%nat;
   TaskExit 0%nat Returned 1002; TaskEnter 1%nat; LoopGathered;
   Publish ping_again 1003 false; LoopTop 1100].

Definition bus_after_orderly : @Bus nat :=
  default init (run bus_earlier orderly_events).

Lemma each_key_handled_at_most_once_witness :
  keys_of (invoked bus_after_orderly) = ["conv-1:ping:m-1"]
  ∧ ∃ calls, invoked bus_after_orderly = invoked bus_earlier ++ calls
             ∧ NoDup (keys_of calls).
Proof.
  split; [vm_compute; reflexivity |].
  destruct (each_key_handled_at_most_once earlier_events bus_earlier
              orderly_events bus_after_orderly)
    as (calls & Hinv & Hnd & _);
    [vm_compute; reflexivity | vm_compute; reflexivity
    | vm_compute; reflexivity |].
  by exists calls.
Defined.

End MessageBusOnce.

(* ===================================================================== *)
(** ** From [publish] to the handler *)

Module MessageBusDelivery.
Import MessageBus MessageBusSpec MessageBusMore.

Section Delivery.
Context {Handler : Type} `{EqDecision Handler}.
Implicit Types (b : @Bus Handler) (m : A2AMessage) (h : Handler).

(** The events that carry one message from [publish] through the first
    subscriber's handler. *)
Definition delivery m (now done : Q) b : list (@Event Handler) :=
  [Publish m now false; LoopGet; TaskEnter (length (tasks b));
   TaskExit (length (tasks b)) Returned done].

(** X23.  A message that is published while the loop is idle is
    delivered: when its key is not recorded, its agent has subscribers and
    the agent's lock is free, the message is accepted, taken from the
    queue and handed to the first subscriber, and once that handler has
    returned the key is marked as processed, the message is counted as
    processed and the agent's lock is free again.  One task per
    subscriber was created. *)
Theorem published_message_reaches_first_subscriber b last_cleanup m h hs now done :
  _dispatch_task b = Waiting last_cleanup ->
  queued b = [] ->
  _generate_message_key m ∉ _processed_messages b ∪ _processing_messages b ->
  _subscribers b !! to_agent m = Some (h :: hs) ->
  lock_held (to_agent m) b = false ->
  ∃ b',
    run b (delivery m now done b) = Some b'
    ∧ invoked b' = invoked b ++ [(h, m)]
    ∧ _generate_message_key m ∈ _processed_messages b'
    ∧ (_generate_message_key m ∉ _processing_messages b')
    ∧ processed_messages (_stats b') = processed_messages (_stats b) + 1
    ∧ total_messages (_stats b') = total_messages (_stats b) + 1
    ∧ failed_messages (_stats b') = failed_messages (_stats b)
    ∧ queued b' = []
    ∧ lock_held (to_agent m) b' = false
    ∧ length (tasks b') = (length (tasks b) + S (length hs))%nat.
Proof.
  intros Hloop Hq Hnew Hsub Hlock.
  apply not_elem_of_union in Hnew as [Hp Hg].
  set (b1 := set_queue (Some [m])
               (_mark_message_processing m now
                  (set_stats (bump_total (_stats b)) b))).
  assert (H1 : (publish m now false b).2 = b1).
  { unfold publish, _is_duplicate_message. cbn.
    rewrite !bool_decide_eq_false_2 by done. cbn.
    unfold queued in Hq. unfold _get_queue. cbn.
    by destruct (_queue b) as [[| x q] |]. }
  set (tid := length (tasks b)).
  set (b2 := set_loop (Gathering last_cleanup (seq tid (length (h :: hs))))
               (set_tasks (tasks b ++ new_tasks m (h :: hs))
                  (set_queue (Some []) b1))).
  assert (H2 : loop_get b1 = Some b2).
  { unfold loop_get. cbn. rewrite Hloop, Hsub.
    by rewrite bool_decide_eq_false_2. }
  assert (Ht : tasks b2 !! tid
               = Some {| t_message := m; t_handler := h; t_status := Pending |}).
  { cbn. by apply list_lookup_middle. }
  unfold delivery. fold tid. cbn [run step]. rewrite H1, H2.
  unfold task_enter. rewrite Ht. cbn [t_status t_message].
  unfold lock_held in *. cbn [_processing_locks b2 b1 set_loop set_tasks
    set_queue _mark_message_processing set_dedup set_stats] in *.
  rewrite Hlock.
  rewrite bool_decide_eq_false_2 by done.
  unfold task_exit. cbn [tasks set_locks set_invoked set_tasks].
  rewrite list_lookup_insert_eq
    by (unfold b2, tid; cbn; rewrite length_app; cbn; lia).
  cbn. eexists. split; [reflexivity |]. cbn.
  rewrite lookup_insert_eq, !length_insert, length_app. cbn.
  rewrite length_map.
  repeat split; try done; set_solver.
Qed.

End Delivery.

Lemma published_message_reaches_first_subscriber_witness :
  ∃ b',
    run two_subscribers (delivery ping 1 2 two_subscribers) = Some b'
    ∧ invoked b' = [(1%nat, ping)]
    ∧ processed_messages (_stats b') = 1.
Proof.
  destruct (published_message_reaches_first_subscriber two_subscribers 0 ping
              1%nat [2%nat] 1 2)
    as (b' & Hrun & Hinv & _ & _ & Hproc & _);
    [vm_compute; reflexivity | vm_compute; reflexivity
    | apply not_elem_of_empty | vm_compute; reflexivity
    | vm_compute; reflexivity |].
  exists b'. split; [exact Hrun |]. split; [exact Hinv | exact Hproc].
Defined.

End MessageBusDelivery.
